(** * pnmdump: the PGM codec, the scale parser and the pixel transforms

    A shallow embedding of [pnmdumpmain.c].  Every C function that takes
    part in a conversion is a Rocq function of the same name; so are the
    printing functions and [main].

    - [int] is [Z]; an operation whose mathematical result leaves the
      range of a 32-bit [int] is undefined behaviour and reported as such.
    - [double] is the kernel's binary64 [float]; arithmetic is the
      primitive, correctly rounded one (no excess precision).
    - A [FILE] is the bytes still to be read, the end-of-file indicator and
      the bytes written so far.
    - [int data[512][512]] is a finite map from (row, column) to the value
      stored; cells never written read as 0, as in the zero-initialised
      array, and an index outside the array is undefined behaviour.
    - A function returning [bool] returns an [outcome]: [Done] for [true],
      [Failed] with the line it printed on [stderr] for [false], and
      [Undefined] where ISO C gives the program no meaning. *)

From Stdlib Require Import ZArith String Ascii List Bool Lia Floats DecimalString.
From Stdlib Require DecimalPos DecimalFacts.
From stdpp Require Import base option gmap.

Local Open Scope string_scope.
Local Open Scope Z_scope.

(** ** Enums *)

Inductive PgmType : Type := UNKNOWN | P2 | P5.

Inductive ScaleType : Type := NEAREST_NEIGHBOR | BILINEAR.

Definition PgmType_eqb (a b : PgmType) : bool :=
  match a, b with
  | UNKNOWN, UNKNOWN | P2, P2 | P5, P5 => true
  | _, _ => false
  end.

(** ** Characters and streams *)

Definition nl : string := String (ascii_of_nat 10) EmptyString.

Definition code (c : ascii) : Z := Z.of_N (N_of_ascii c).

(** [isspace] in the C locale: space, and the control characters 9 to 13. *)
Definition isspace (c : ascii) : bool :=
  (code c =? 32) || ((9 <=? code c) && (code c <=? 13)).

Definition EOF : Z := -1.

Record FILE : Type := mkFILE {
  f_in : string;    (* bytes not read yet *)
  f_eof : bool;     (* the end-of-file indicator, tested by feof *)
  f_out : string    (* bytes written so far *)
}.

Definition fopen_rb (content : string) : FILE := mkFILE content false "".
Definition fopen_wb : FILE := mkFILE "" false "".

Definition feof (f : FILE) : bool := f_eof f.

Definition fgetc (f : FILE) : Z * FILE :=
  match f_in f with
  | EmptyString => (EOF, mkFILE "" true (f_out f))
  | String c s => (code c, mkFILE s (f_eof f) (f_out f))
  end.

Definition fputs (s : string) (f : FILE) : FILE :=
  mkFILE (f_in f) (f_eof f) (f_out f ++ s).

(** What is left of the stream once a scan has examined it up to [rest]:
    a scan stops at the first byte it cannot use, and when there is none
    the read that looked for it sets the end-of-file indicator. *)
Definition advance (f : FILE) (rest : string) : FILE :=
  mkFILE rest (f_eof f || match rest with EmptyString => true | _ => false end)
         (f_out f).

(** ** C integers *)

Definition INT_MAX : Z := 2147483647.
Definition INT_MIN : Z := -2147483648.

Definition in_int (z : Z) : bool := (INT_MIN <=? z) && (z <=? INT_MAX).

(** printf's [%i]. *)
Definition print_int (z : Z) : string := NilZero.string_of_int (Z.to_int z).

(** printf's [%c]: the argument converted to [unsigned char]. *)
Definition print_char (z : Z) : string :=
  String (ascii_of_N (Z.to_N (z mod 256))) EmptyString.

(** ** Doubles *)

Definition double_of_int (z : Z) : float :=
  SF2Prim (binary_normalize prec emax z 0 false).

(** The value [num / den * 2 ^ e2] (with [0 < den]) rounded to the nearest
    double, ties to even: the quotient is computed to 66 bits or more and
    a sticky bit stands for the discarded remainder. *)
Definition round_ratio (neg : bool) (num den : Z) (e2 : Z) : float :=
  if num =? 0 then (if neg then neg_zero else zero)
  else
    let k := Z.max 0 (66 + Z.log2 den - Z.log2 num) in
    let n := num * 2 ^ k in
    let q := n / den in
    let sticky := if n mod den =? 0 then 0 else 1 in
    let m := 2 * q + sticky in
    SF2Prim (binary_normalize prec emax (if neg then - m else m) (e2 - k - 1) neg).

(** The integer part of a double, when it has one: [(int) x] before the
    range check. *)
Definition trunc (x : float) : option Z :=
  match Prim2SF x with
  | S754_zero _ => Some 0
  | S754_finite s m e =>
      let a := if 0 <=? e then Z.pos m * 2 ^ e else Z.pos m / 2 ^ (- e) in
      Some (if s then - a else a)
  | S754_infinity _ | S754_nan => None
  end.

(** ** Outcomes

    [S] is the state a failing function leaves behind (the converter). *)

Inductive outcome (S A : Type) : Type :=
| Done (a : A)
| Failed (msg : string) (s : S)
| Undefined (why : string).

Arguments Done {S A} a.
Arguments Failed {S A} msg s.
Arguments Undefined {S A} why.

Definition bind {S A B : Type} (m : outcome S A) (k : A -> outcome S B)
  : outcome S B :=
  match m with
  | Done a => k a
  | Failed msg s => Failed msg s
  | Undefined why => Undefined why
  end.

Notation "'do' x <- m ; k" := (bind m (fun x => k))
  (at level 10, x pattern, m at level 100, k at level 200,
   format "'do'  x  <-  m ; '//' k").

(** An arithmetic result stored in an [int]. *)
Definition to_int {S : Type} (z : Z) : outcome S Z :=
  if in_int z then Done z else Undefined "signed integer overflow".

(** [(int) x]. *)
Definition int_of_double {S : Type} (x : float) : outcome S Z :=
  match trunc x with
  | Some z =>
      if in_int z then Done z
      else Undefined "double to int conversion out of range"
  | None => Undefined "double to int conversion of an infinity or a NaN"
  end.

(** ** scanf

    The conversions the program uses, on the bytes still to be read.  A
    conversion takes the longest run of bytes that is, or begins, a
    sequence of the expected form (ISO C 7.21.6.2); when the run taken is
    not itself of that form the conversion is a matching failure. *)

Fixpoint skip_space (s : string) : string :=
  match s with
  | String c s' => if isspace c then skip_space s' else s
  | EmptyString => s
  end.

Definition digit_of (base : Z) (c : ascii) : option Z :=
  let n := code c in
  let d := if (48 <=? n) && (n <=? 57) then n - 48
           else if (97 <=? n) && (n <=? 102) then n - 87
           else if (65 <=? n) && (n <=? 70) then n - 55
           else base in
  if d <? base then Some d else None.

(** The longest run of digits of [base] at the head of [s]: how many
    there are, the number they continue from [acc], and what follows. *)
Fixpoint digits (base : Z) (s : string) (acc : Z) : nat * Z * string :=
  match s with
  | String c s' =>
      match digit_of base c with
      | Some d => let '(n, v, r) := digits base s' (acc * base + d) in (S n, v, r)
      | None => (O, acc, s)
      end
  | EmptyString => (O, acc, s)
  end.

Inductive scanned (A : Type) : Type :=
| Conv (a : A) (rest : string)   (* converted; [rest] starts at the first byte not taken *)
| NoMatch (rest : string)        (* matching failure *)
| NoInput.                       (* input failure: the input ended before the item began *)

Arguments Conv {A} a rest.
Arguments NoMatch {A} rest.
Arguments NoInput {A}.

Definition is_sign (c : ascii) : bool := (code c =? 43) || (code c =? 45).
Definition is_minus (c : ascii) : bool := code c =? 45.

(** The sign, if any, at the head of [s]: whether it is a minus, and
    what follows it. *)
Definition sign_of (s : string) : bool * string :=
  match s with
  | String c s' => if is_sign c then (is_minus c, s') else (false, s)
  | EmptyString => (false, s)
  end.

(** [%i]: an integer in the form of [strtol] with base 0, so a leading
    [0x] announces hexadecimal digits and a leading [0] octal ones. *)
Definition scan_i (s : string) : scanned Z :=
  match skip_space s with
  | EmptyString => NoInput
  | s0 =>
      let (neg, body) := sign_of s0 in
      let signed (v : Z) := if neg then - v else v in
      match body with
      | String c0 s1 =>
          if code c0 =? 48 then
            match s1 with
            | String x s2 =>
                if (code x =? 120) || (code x =? 88) then
                  let '(n, v, r) := digits 16 s2 0 in
                  match n with O => NoMatch r | _ => Conv (signed v) r end
                else
                  let '(_, v, r) := digits 8 s1 0 in Conv (signed v) r
            | EmptyString => Conv 0 s1
            end
          else
            let '(n, v, r) := digits 10 body 0 in
            match n with O => NoMatch r | _ => Conv (signed v) r end
      | EmptyString => NoMatch body
      end
  end.

Fixpoint word (s : string) : string * string :=
  match s with
  | String c s' =>
      if isspace c then (EmptyString, s)
      else let (w, r) := word s' in (String c w, r)
  | EmptyString => (EmptyString, s)
  end.

(** [%s]: the next run of bytes that are not white space. *)
Definition scan_s (s : string) : scanned string :=
  match skip_space s with
  | EmptyString => NoInput
  | s0 => let (w, r) := word s0 in Conv w r
  end.

Fixpoint line (s : string) : string * string :=
  match s with
  | String c s' =>
      if code c =? 10 then (EmptyString, s)
      else let (w, r) := line s' in (String c w, r)
  | EmptyString => (EmptyString, s)
  end.

(** [%[^\n]]: a run of one byte or more, none of them a newline. *)
Definition scan_not_nl (s : string) : scanned string :=
  match s with
  | EmptyString => NoInput
  | _ => let (w, r) := line s in
         match w with EmptyString => NoMatch r | _ => Conv w r end
  end.

Definition lower (c : ascii) : Z :=
  let n := code c in if (65 <=? n) && (n <=? 90) then n + 32 else n.

(** How far [s] spells the lower-case word [w], ignoring case: whether
    it spells all of it, and what follows the part it spells. *)
Fixpoint after_word (w s : string) : bool * string :=
  match w with
  | EmptyString => (true, s)
  | String a w' =>
      match s with
      | String b s' => if lower b =? code a then after_word w' s' else (false, s)
      | EmptyString => (false, s)
      end
  end.

Definition head_is (a : ascii) (s : string) : bool :=
  match s with
  | String b _ => lower b =? code a
  | EmptyString => false
  end.

Definition is_nchar (c : ascii) : bool :=
  let n := lower c in
  ((48 <=? n) && (n <=? 57)) || ((97 <=? n) && (n <=? 122)) || (n =? 95).

Fixpoint skip_nchars (s : string) : string :=
  match s with
  | String c s' => if is_nchar c then skip_nchars s' else s
  | EmptyString => s
  end.

(** The digits of a mantissa, with at most one point among them: how
    many digits, how many of them after the point, their value read as
    one integer, and what follows. *)
Definition mantissa (base : Z) (s : string) : nat * nat * Z * string :=
  let '(n1, v1, r1) := digits base s 0 in
  match r1 with
  | String "." r =>
      let '(n2, v2, r2) := digits base r v1 in ((n1 + n2)%nat, n2, v2, r2)
  | _ => (n1, O, v1, r1)
  end.

(** An exponent part introduced by the letter [e] (given in lower case),
    if there is one: its value, or [None] when the letter is there and
    no digit comes after it and its sign; and what follows. *)
Definition exponent (e : ascii) (s : string) : option Z * string :=
  match s with
  | String c s1 =>
      if lower c =? code e then
        let (neg, s2) := sign_of s1 in
        let '(n, v, r) := digits 10 s2 0 in
        (match n with O => None | _ => Some (if neg then - v else v) end, r)
      else (Some 0, s)
  | EmptyString => (Some 0, s)
  end.

(** [%lf]: a number in the form of [strtod]: decimal or hexadecimal
    digits with an optional point and exponent, an infinity or a NaN. *)
Definition scan_lf (s : string) : scanned float :=
  match skip_space s with
  | EmptyString => NoInput
  | s0 =>
      let (neg, body) := sign_of s0 in
      if head_is "i" body then
        match after_word "inf" body with
        | (true, r) =>
            let inf := if neg then neg_infinity else infinity in
            if head_is "i" r then
              match after_word "inity" r with
              | (true, r') => Conv inf r'
              | (false, r') => NoMatch r'
              end
            else Conv inf r
        | (false, r) => NoMatch r
        end
      else if head_is "n" body then
        match after_word "nan" body with
        | (true, String "(" r1) =>
            match skip_nchars r1 with
            | String ")" r2 => Conv nan r2
            | r2 => NoMatch r2
            end
        | (true, r) => Conv nan r
        | (false, r) => NoMatch r
        end
      else
        match after_word "0x" body with
        | (true, r) =>
            let '(n, frac, m, r1) := mantissa 16 r in
            match n, exponent "p" r1 with
            | S _, (Some e, r2) =>
                Conv (round_ratio neg m 1 (e - 4 * Z.of_nat frac)) r2
            | S _, (None, r2) => NoMatch r2
            | O, _ => NoMatch r1
            end
        | (false, _) =>
            let '(n, frac, m, r1) := mantissa 10 body in
            match n, exponent "e" r1 with
            | S _, (Some e, r2) =>
                let e10 := e - Z.of_nat frac in
                Conv (if 0 <=? e10 then round_ratio neg (m * 10 ^ e10) 1 0
                      else round_ratio neg m (10 ^ (- e10)) 0) r2
            | S _, (None, r2) => NoMatch r2
            | O, _ => NoMatch r1
            end
        end
  end.

(** A format is a list of directives; the converted items come back in
    the order of the pointer arguments that receive them. *)
Inductive directive : Type :=
| d_space              (* white space in the format *)
| d_char (c : ascii)   (* an ordinary character *)
| d_s (room : nat)     (* %s, stored with its terminator in [room] bytes *)
| d_skip_line          (* %*[^\n] *)
| d_i                  (* %i *)
| d_lf                 (* %lf *)
| d_n.                 (* %n *)

Inductive arg : Type :=
| a_str (s : string)
| a_int (z : Z)
| a_double (x : float).

(** [scanf fmt len s conv count args]: [len] is the length of the input
    when the call began (for [%n]), [conv] whether a conversion has
    completed, [count] the items assigned so far.  The result is the
    return value, the items assigned and the input left. *)
Fixpoint scanf {S : Type} (fmt : list directive) (len : nat) (s : string)
    (conv : bool) (count : Z) (args : list arg)
  : outcome S (Z * list arg * string) :=
  let input_failure := Done (if conv then count else EOF, args, EmptyString) in
  match fmt with
  | nil => Done (count, args, s)
  | d_space :: fmt' => scanf fmt' len (skip_space s) conv count args
  | d_char c :: fmt' =>
      match s with
      | String c' s' =>
          if Ascii.eqb c c' then scanf fmt' len s' conv count args
          else Done (count, args, s)
      | EmptyString => input_failure
      end
  | d_s room :: fmt' =>
      match scan_s s with
      | Conv w r =>
          if (String.length w <? room)%nat
          then scanf fmt' len r true (count + 1) (args ++ a_str w :: nil)%list
          else Undefined "%s overruns the array it stores into"
      | NoMatch r => Done (count, args, r)
      | NoInput => input_failure
      end
  | d_skip_line :: fmt' =>
      match scan_not_nl s with
      | Conv _ r => scanf fmt' len r true count args
      | NoMatch r => Done (count, args, r)
      | NoInput => input_failure
      end
  | d_i :: fmt' =>
      match scan_i s with
      | Conv v r =>
          if in_int v
          then scanf fmt' len r true (count + 1) (args ++ a_int v :: nil)%list
          else Undefined "%i reads a number that no int represents"
      | NoMatch r => Done (count, args, r)
      | NoInput => input_failure
      end
  | d_lf :: fmt' =>
      match scan_lf s with
      | Conv x r =>
          scanf fmt' len r true (count + 1) (args ++ a_double x :: nil)%list
      | NoMatch r => Done (count, args, r)
      | NoInput => input_failure
      end
  | d_n :: fmt' =>
      scanf fmt' len s conv count
            (args ++ a_int (Z.of_nat (len - String.length s)) :: nil)%list
  end.

Definition sscanf {S : Type} (str : string) (fmt : list directive)
  : outcome S (Z * list arg) :=
  do r <- scanf fmt (String.length str) str false 0 nil;
  Done (fst r).

Definition fscanf {S : Type} (f : FILE) (fmt : list directive)
  : outcome S (Z * list arg * FILE) :=
  do r <- scanf fmt (String.length (f_in f)) (f_in f) false 0 nil;
  Done (fst r, advance f (snd r)).

(** The item the [n]-th pointer argument received, or what the variable
    held before when the call did not get that far. *)
Definition int_arg (n : nat) (args : list arg) (old : Z) : Z :=
  match nth_error args n with Some (a_int z) => z | _ => old end.

Definition double_arg (n : nat) (args : list arg) (old : float) : float :=
  match nth_error args n with Some (a_double x) => x | _ => old end.

Definition str_arg (n : nat) (args : list arg) (old : string) : string :=
  match nth_error args n with Some (a_str s) => s | _ => old end.

(** ** Structs *)

(** The functions [ConversionArgs.getData] can point to. *)
Inductive getData_fn : Type :=
| fn_GetData
| fn_GetReflectedData
| fn_GetRotated90Data
| fn_GetScaledNnData
| fn_GetScaledUpBlData
| fn_GetScaledDownBoxData.

Record PgmFile : Type := mkPgmFile {
  fStream : option FILE;   (* [None] is the null pointer *)
  fName : string;
  width : Z;
  height : Z;
  maxDataValue : Z;
  type : PgmType
}.

Record ScaleArgs : Type := mkScaleArgs {
  scale : string;
  scaleType : ScaleType;
  isEnlarge : bool;
  hScale : float;
  wScale : float
}.

Record ConversionArgs : Type := mkConversionArgs {
  getData : option getData_fn;   (* [None] is the null pointer *)
  isSwapWidthHeight : bool;
  isScale : bool
}.

Record PgmConverter : Type := mkPgmConverter {
  iF : PgmFile;
  oF : PgmFile;
  cArgs : ConversionArgs;
  sArgs : option ScaleArgs;      (* [None] is the null pointer *)
  data : gmap (Z * Z) Z
}.

Abbreviation result := (outcome PgmConverter).

(** Field assignments. *)
Definition set_fStream (f : FILE) (p : PgmFile) : PgmFile :=
  mkPgmFile (Some f) (fName p) (width p) (height p) (maxDataValue p) (type p).
Definition set_width (w : Z) (p : PgmFile) : PgmFile :=
  mkPgmFile (fStream p) (fName p) w (height p) (maxDataValue p) (type p).
Definition set_height (h : Z) (p : PgmFile) : PgmFile :=
  mkPgmFile (fStream p) (fName p) (width p) h (maxDataValue p) (type p).
Definition set_maxDataValue (m : Z) (p : PgmFile) : PgmFile :=
  mkPgmFile (fStream p) (fName p) (width p) (height p) m (type p).
Definition set_type (t : PgmType) (p : PgmFile) : PgmFile :=
  mkPgmFile (fStream p) (fName p) (width p) (height p) (maxDataValue p) t.

Definition set_iF (p : PgmFile) (c : PgmConverter) : PgmConverter :=
  mkPgmConverter p (oF c) (cArgs c) (sArgs c) (data c).
Definition set_oF (p : PgmFile) (c : PgmConverter) : PgmConverter :=
  mkPgmConverter (iF c) p (cArgs c) (sArgs c) (data c).
Definition set_cArgs (a : ConversionArgs) (c : PgmConverter) : PgmConverter :=
  mkPgmConverter (iF c) (oF c) a (sArgs c) (data c).
Definition set_sArgs (a : ScaleArgs) (c : PgmConverter) : PgmConverter :=
  mkPgmConverter (iF c) (oF c) (cArgs c) (Some a) (data c).
Definition set_data (d : gmap (Z * Z) Z) (c : PgmConverter) : PgmConverter :=
  mkPgmConverter (iF c) (oF c) (cArgs c) (sArgs c) d.

Definition set_getData (g : getData_fn) (a : ConversionArgs) : ConversionArgs :=
  mkConversionArgs (Some g) (isSwapWidthHeight a) (isScale a).

Definition set_isEnlarge (b : bool) (a : ScaleArgs) : ScaleArgs :=
  mkScaleArgs (scale a) (scaleType a) b (hScale a) (wScale a).
Definition set_hScale (x : float) (a : ScaleArgs) : ScaleArgs :=
  mkScaleArgs (scale a) (scaleType a) (isEnlarge a) x (wScale a).
Definition set_wScale (x : float) (a : ScaleArgs) : ScaleArgs :=
  mkScaleArgs (scale a) (scaleType a) (isEnlarge a) (hScale a) x.

(** Dereferencing [c->iF->fStream], [c->oF->fStream] and [c->sArgs]. *)
Definition stream_of (p : PgmFile) : result FILE :=
  match fStream p with
  | Some f => Done f
  | None => Undefined "null stream"
  end.

Definition scale_args (c : PgmConverter) : result ScaleArgs :=
  match sArgs c with
  | Some a => Done a
  | None => Undefined "null sArgs"
  end.

(** ** The array [int data[512][512]] *)

Definition in_array (row col : Z) : bool :=
  (0 <=? row) && (row <? 512) && (0 <=? col) && (col <? 512).

(** [c->data[row][col]] as a value. *)
Definition load (c : PgmConverter) (row col : Z) : result Z :=
  if in_array row col then Done (default 0 (data c !! (row, col)))
  else Undefined "subscript outside int data[512][512]".

(** [c->data[row][col] = v]. *)
Definition store (c : PgmConverter) (row col v : Z) : result PgmConverter :=
  if in_array row col then Done (set_data (<[(row, col) := v]> (data c)) c)
  else Undefined "subscript outside int data[512][512]".

(** ** Enum functions *)

Definition PgmTypeToStr (t : PgmType) : option string :=
  match t with
  | P2 => Some "P2"
  | P5 => Some "P5"
  | UNKNOWN => None
  end.

Definition StrToPgmType (str : string) : PgmType :=
  if String.eqb str "P2" then P2
  else if String.eqb str "P5" then P5
  else UNKNOWN.

(** A line printed on [stderr]. *)
Definition message (text : string) : string := text ++ nl.

(** ** Reading the input pgm *)

(** The format ["%s\n%*[^\n]\n%i %i\n%i\n"], with [char typeStr[10]]
    behind the [%s]. *)
Definition header_format : list directive :=
  d_s 10 :: d_space :: d_skip_line :: d_space ::
  d_i :: d_space :: d_i :: d_space :: d_i :: d_space :: nil.

Definition corrupted : string := message "Corrupted input file".

Definition TryReadPgmInfo (c : PgmConverter) : result PgmConverter :=
  do f <- stream_of (iF c);
  do r <- fscanf f header_format;
  let '(ret, args, f') := r in
  let typeStr := str_arg 0 args "" in
  let c := set_iF (set_maxDataValue (int_arg 3 args (maxDataValue (iF c)))
                  (set_height (int_arg 2 args (height (iF c)))
                  (set_width (int_arg 1 args (width (iF c)))
                  (set_fStream f' (iF c))))) c in
  if negb (4 =? ret) then Failed corrupted c
  else
    let imageType := StrToPgmType typeStr in
    let c :=
      if PgmType_eqb (type (iF c)) UNKNOWN && negb (PgmType_eqb imageType UNKNOWN)
      then set_iF (set_type imageType (iF c)) c
      else c in
    if negb (PgmType_eqb (type (iF c)) imageType) then
      match PgmTypeToStr (type (iF c)) with
      | Some name => Failed (message ("Input is not in " ++ name ++ " format")) c
      | None => Undefined "%s is given a null pointer"
      end
    else Done c.

(** The local variables of [TryReadPgmData], next to the converter. *)
Record reader : Type := mkReader {
  rd_c : PgmConverter;
  rd_data : Z;         (* int data *)
  rd_dataCount : Z     (* int dataCount *)
}.

(** How the body of the inner loop ends: at its closing brace or at the
    [break]. *)
Inductive flow : Type :=
| Next (r : reader)
| Break (r : reader).

(** The first statement of the body of the inner loop: the next sample
    into [data], by [fscanf] or by [fgetc]. *)
Definition read_sample (r : reader) : result reader :=
  let c := rd_c r in
  match type (iF c) with
  | P2 =>
      do f <- stream_of (iF c);
      do s <- fscanf f (d_i :: nil);
      let '(ret, args, f') := s in
      let r1 := mkReader (set_iF (set_fStream f' (iF c)) c)
                         (int_arg 0 args (rd_data r)) (rd_dataCount r) in
      if ret =? 0 then Failed corrupted (rd_c r1) else Done r1
  | P5 =>
      do f <- stream_of (iF c);
      let (ch, f') := fgetc f in
      Done (mkReader (set_iF (set_fStream f' (iF c)) c) ch (rd_dataCount r))
  | UNKNOWN => Done r
  end.

(** The body of the inner loop, at [row] and [column]. *)
Definition read_cell (row column : Z) (r : reader) : result flow :=
  do r1 <- read_sample r;
  let c1 := rd_c r1 in
  do f1 <- stream_of (iF c1);
  if feof f1 then Done (Break r1)
  else
    do n <- to_int (rd_dataCount r1 + 1);
    if (rd_data r1 >? maxDataValue (iF c1)) || (rd_data r1 <? 0)
    then Failed corrupted c1
    else
      do c2 <- store c1 row column (rd_data r1);
      Done (Next (mkReader c2 (rd_data r1) n)).

(** [for (; column < width; column++)] with [todo] columns to go. *)
Fixpoint read_columns (todo : nat) (row column : Z) (r : reader)
  : result reader :=
  match todo with
  | O => Done r
  | S todo' =>
      do fl <- read_cell row column r;
      match fl with
      | Break r' => Done r'
      | Next r' => read_columns todo' row (column + 1) r'
      end
  end.

(** [for (; row < height; row++)] with [todo] rows to go. *)
Fixpoint read_rows (todo : nat) (row : Z) (r : reader) : result reader :=
  match todo with
  | O => Done r
  | S todo' =>
      do r' <- read_columns (Z.to_nat (width (iF (rd_c r)))) row 0 r;
      read_rows todo' (row + 1) r'
  end.

Definition TryReadPgmData (c : PgmConverter) : result PgmConverter :=
  do r <- read_rows (Z.to_nat (height (iF c))) 0 (mkReader c 0 0);
  let c := rd_c r in
  let dataCount := rd_dataCount r in
  do c1 <-
    (if PgmType_eqb (type (iF c)) P5 then
       do f <- stream_of (iF c);
       let (ch, f') := fgetc f in
       let c' := set_iF (set_fStream f' (iF c)) c in
       if negb (ch =? EOF) then Failed corrupted c' else Done c'
     else Done c);
  do n <- to_int (width (iF c1) * height (iF c1));
  if negb (dataCount =? n) then Failed corrupted c1
  else Done c1.

(** ** Parsing the scale factor *)

Definition bad_scalar : string :=
  message "Error, bad scalar format. Check README for usage:".
Definition mixed_scaling : string :=
  message ("Error, width and height must be scaled in the same way" ++
           ", i.e. if width is scaled up height must also be scaled up.").
Definition not_positive : string :=
  message "Error, scalar must be a non zero positive.".

(** [str[n] == '\0'] for a string of the command line, which holds no
    NUL before its end. *)
Definition ends_at (str : string) (n : Z) : bool :=
  match String.get (Z.to_nat n) str with
  | None => true
  | Some _ => false
  end.

(** [c->sArgs->scale[0] == 109]. *)
Definition starts_with_m (str : string) : bool :=
  match str with
  | String ch _ => code ch =? 109
  | EmptyString => false
  end.

(** The constants [1] and [0] where the other operand is a [double]. *)
Definition dbl_1 : float := double_of_int 1.
Definition dbl_0 : float := double_of_int 0.

(** The four [sscanf] tests of [TryParseScalar], in their order; [a]
    is [*c->sArgs]. *)
Definition scan_scale (c : PgmConverter) (a : ScaleArgs) : result ScaleArgs :=
  let str := scale a in
  (* "%lf%n" *)
  do r1 <- sscanf str (d_lf :: d_n :: nil);
  let x := double_arg 0 (snd r1) dbl_0 in
  let n := int_arg 1 (snd r1) 0 in
  if (fst r1 =? 1) && ends_at str n then
    Done (set_hScale x (set_wScale x a))
  else
    (* "%lf/%lf%n" *)
    do r2 <- sscanf str (d_lf :: d_char "/" :: d_lf :: d_n :: nil);
    let x := double_arg 0 (snd r2) x in
    let y := double_arg 1 (snd r2) dbl_0 in
    let n := int_arg 2 (snd r2) n in
    if (fst r2 =? 2) && ends_at str n then
      Done (set_hScale (x / y) (set_wScale (x / y) a))
    else
      (* "%lfx%lf%n" *)
      do r3 <- sscanf str (d_lf :: d_char "x" :: d_lf :: d_n :: nil);
      let x := double_arg 0 (snd r3) x in
      let y := double_arg 1 (snd r3) y in
      let n := int_arg 2 (snd r3) n in
      if (fst r3 =? 2) && ends_at str n then
        Done (set_hScale y (set_wScale x a))
      else
        (* "%lf/%lfx%lf/%lf%n" *)
        do r4 <- sscanf str (d_lf :: d_char "/" :: d_lf :: d_char "x" ::
                             d_lf :: d_char "/" :: d_lf :: d_n :: nil);
        let x := double_arg 0 (snd r4) x in
        let y := double_arg 1 (snd r4) y in
        let a' := double_arg 2 (snd r4) dbl_0 in
        let b := double_arg 3 (snd r4) dbl_0 in
        let n := int_arg 4 (snd r4) n in
        if (fst r4 =? 4) && ends_at str n then
          Done (set_hScale (a' / b) (set_wScale (x / y) a))
        else Failed bad_scalar c.

Definition TryParseScalar (c : PgmConverter) : result PgmConverter :=
  do a <- scale_args c;
  let a := set_isEnlarge (if starts_with_m (scale a) then false else true) a in
  let c := set_sArgs a c in
  do a <- scan_scale c a;
  let c := set_sArgs a c in
  let w := wScale a in
  let h := hScale a in
  let c :=
    match scaleType a with
    | BILINEAR =>
        if (dbl_1 <=? w)%float && (dbl_1 <=? h)%float
        then set_cArgs (set_getData fn_GetScaledUpBlData (cArgs c)) c
        else if (w <=? dbl_1)%float && (h <=? dbl_1)%float
        then set_cArgs (set_getData fn_GetScaledDownBoxData (cArgs c)) c
        else c
    | NEAREST_NEIGHBOR => c
    end in
  if ((w <? dbl_1)%float && (dbl_1 <? h)%float)
     || ((dbl_1 <? w)%float && (h <? dbl_1)%float)
  then Failed mixed_scaling c
  else if (w <=? dbl_0)%float || (h <=? dbl_0)%float
  then Failed not_positive c
  else Done c.

(** ** Output pgm initialization *)

Definition too_large : string :=
  message "Error, output too large, max 1920x1080".

Definition TrySetPgmInfo (c : PgmConverter) : result PgmConverter :=
  let c := set_oF (set_type (match type (oF c) with
                             | UNKNOWN => type (iF c)
                             | t => t
                             end) (oF c)) c in
  let c :=
    if isSwapWidthHeight (cArgs c)
    then set_oF (set_height (width (iF c))
                (set_width (height (iF c)) (oF c))) c
    else set_oF (set_height (height (iF c))
                (set_width (width (iF c)) (oF c))) c in
  let c := set_oF (set_maxDataValue (maxDataValue (iF c)) (oF c)) c in
  if isScale (cArgs c) then
    do c <- TryParseScalar c;
    do a <- scale_args c;
    do h <- int_of_double (double_of_int (height (oF c)) * hScale a);
    let c := set_oF (set_height h (oF c)) c in
    do w <- int_of_double (double_of_int (width (oF c)) * wScale a);
    let c := set_oF (set_width w (oF c)) c in
    if (width (oF c) >? 1920) || (height (oF c) >? 1080)
    then Failed too_large c
    else Done c
  else Done c.

(** ** Data processing *)

Definition ExtrapolateLinear (x1 x2 : Z) : result Z :=
  do d <- to_int (x2 - x1);
  do x0 <- to_int (x1 - d);
  Done (if x0 >? 255 then 255 else if x0 <? 0 then 0 else x0).

Definition LinearInterpolate (x fx1 fx2 : float) : float :=
  (fx1 * (dbl_1 - x)) + (fx2 * x).

Definition BilinearInterpolate (x y fxy11 fxy12 fxy21 fxy22 : float) : float :=
  LinearInterpolate y
    (LinearInterpolate x fxy11 fxy21)
    (LinearInterpolate x fxy12 fxy22).

(** ** Data retrieval *)

Definition GetData (c : PgmConverter) (row col : Z) : result Z :=
  load c row col.

Definition GetReflectedData (c : PgmConverter) (row col : Z) : result Z :=
  load c col row.

Definition GetRotated90Data (c : PgmConverter) (row col : Z) : result Z :=
  do w1 <- to_int (width (oF c) - 1);
  do r <- to_int (w1 - col);
  load c r row.

(** [(int)(row / c->sArgs->hScale)] and [(int)(col / c->sArgs->wScale)]. *)
Definition src_row (a : ScaleArgs) (row : Z) : result Z :=
  int_of_double (double_of_int row / hScale a).
Definition src_col (a : ScaleArgs) (col : Z) : result Z :=
  int_of_double (double_of_int col / wScale a).

Definition GetScaledNnData (c : PgmConverter) (row col : Z) : result Z :=
  do a <- scale_args c;
  do r <- src_row a row;
  do k <- src_col a col;
  load c r k.

(** [(row / c->sArgs->hScale) - (int)(row / c->sArgs->hScale)], and the
    same for the column. *)
Definition frac_row (a : ScaleArgs) (row : Z) : result float :=
  do r <- src_row a row;
  Done (double_of_int row / hScale a - double_of_int r)%float.
Definition frac_col (a : ScaleArgs) (col : Z) : result float :=
  do k <- src_col a col;
  Done (double_of_int col / wScale a - double_of_int k)%float.

(** [c->data[(int)(row / hScale) + dr][(int)(col / wScale) + dc]]. *)
Definition pixel (c : PgmConverter) (a : ScaleArgs) (row col dr dc : Z)
  : result Z :=
  do r <- src_row a row;
  do r' <- to_int (r + dr);
  do k <- src_col a col;
  do k' <- to_int (k + dc);
  load c r' k'.

(** [ExtrapolateLinear] of the pixel at (row, col) and its neighbour at
    offset (dr, dc). *)
Definition extrapolated (c : PgmConverter) (a : ScaleArgs) (row col dr dc : Z)
  : result Z :=
  do x1 <- pixel c a row col 0 0;
  do x2 <- pixel c a row col dr dc;
  ExtrapolateLinear x1 x2.

(** The tests of [GetScaledUpBlData]; [&&] evaluates its right operand
    only when the left one holds. *)
Definition and_then (p q : result bool) : result bool :=
  do b <- p; if b then q else Done false.

(** [row < (int)(c->sArgs->hScale / 2)] *)
Definition at_top (a : ScaleArgs) (row : Z) : result bool :=
  do m <- int_of_double (hScale a / double_of_int 2);
  Done (row <? m).
(** [col < (int)(c->sArgs->wScale / 2)] *)
Definition at_left (a : ScaleArgs) (col : Z) : result bool :=
  do m <- int_of_double (wScale a / double_of_int 2);
  Done (col <? m).
(** [row > c->oF->height - (int)((c->sArgs->hScale + 1) / 2)] *)
Definition at_bottom (c : PgmConverter) (a : ScaleArgs) (row : Z) : result bool :=
  do m <- int_of_double ((hScale a + dbl_1) / double_of_int 2);
  do e <- to_int (height (oF c) - m);
  Done (row >? e).
(** [col > c->oF->width - (int)((c->sArgs->wScale + 1) / 2)] *)
Definition at_right (c : PgmConverter) (a : ScaleArgs) (col : Z) : result bool :=
  do m <- int_of_double ((wScale a + dbl_1) / double_of_int 2);
  do e <- to_int (width (oF c) - m);
  Done (col >? e).

(** [(int)BilinearInterpolate(x, y, f11, f12, f21, f22)] and
    [(int)LinearInterpolate(x, f1, f2)] on [int] samples. *)
Definition bilinear (x y : float) (f11 f12 f21 f22 : Z) : result Z :=
  int_of_double (BilinearInterpolate x y (double_of_int f11) (double_of_int f12)
                                     (double_of_int f21) (double_of_int f22)).
Definition linear (x : float) (f1 f2 : Z) : result Z :=
  int_of_double (LinearInterpolate x (double_of_int f1) (double_of_int f2)).

Definition GetScaledUpBlData (c : PgmConverter) (row col : Z) : result Z :=
  do a <- scale_args c;
  let here := pixel c a row col 0 0 in
  let beyond := extrapolated c a row col in
  (* top left corner *)
  do b <- and_then (at_top a row) (at_left a col);
  if b then
    do x <- frac_row a row; do y <- frac_col a col;
    do f11 <- beyond 1 1; do f12 <- beyond 1 0; do f21 <- beyond 0 1;
    do f22 <- here;
    bilinear x y f11 f12 f21 f22
  else
  (* top right corner *)
  do b <- and_then (at_top a row) (at_right c a col);
  if b then
    do x <- frac_row a row; do y <- frac_col a col;
    do f11 <- beyond 1 0; do f12 <- beyond 1 (-1); do f21 <- here;
    do f22 <- beyond 0 (-1);
    bilinear x y f11 f12 f21 f22
  else
  (* bottom left corner *)
  do b <- and_then (at_bottom c a row) (at_left a col);
  if b then
    do x <- frac_row a row; do y <- frac_col a col;
    do f11 <- beyond 0 1; do f12 <- here; do f21 <- beyond (-1) 1;
    do f22 <- beyond (-1) 0;
    bilinear x y f11 f12 f21 f22
  else
  (* bottom right corner *)
  do b <- and_then (at_bottom c a row) (at_right c a col);
  if b then
    do x <- frac_row a row; do y <- frac_col a col;
    do f11 <- here; do f12 <- beyond 0 (-1); do f21 <- beyond (-1) 0;
    do f22 <- beyond (-1) 1;
    bilinear x y f11 f12 f21 f22
  else
  (* top edge *)
  do b <- at_top a row;
  if b then
    do x <- frac_row a row; do f1 <- beyond 1 0; do f2 <- here;
    linear x f1 f2
  else
  (* bottom edge *)
  do b <- at_bottom c a row;
  if b then
    do x <- frac_row a row; do f1 <- here; do f2 <- beyond (-1) 0;
    linear x f1 f2
  else
  (* left edge *)
  do b <- at_left a col;
  if b then
    do x <- frac_col a col; do f1 <- beyond 0 1; do f2 <- here;
    linear x f1 f2
  else
  (* right edge *)
  do b <- at_right c a col;
  if b then
    do x <- frac_col a col; do f1 <- here; do f2 <- beyond 0 (-1);
    linear x f1 f2
  else
  (* a subrow or a subcolumn inside the picture *)
    do m <- int_of_double (hScale a / double_of_int 2);
    do row <- to_int (row - m);
    do m <- int_of_double (wScale a / double_of_int 2);
    do col <- to_int (col - m);
    do x <- frac_col a col; do y <- frac_row a row;
    do f11 <- pixel c a row col 0 0; do f12 <- pixel c a row col 1 0;
    do f21 <- pixel c a row col 0 1; do f22 <- pixel c a row col 1 1;
    bilinear x y f11 f12 f21 f22.

(** ** Loops whose bound is not an integer

    [iterate fuel step st] takes the step [2 ^ fuel] times at most and
    stops at the first [inr]. *)
Fixpoint iterate {St Out : Type} (fuel : nat)
    (step : St -> result (St + Out)) (st : St) : result (St + Out) :=
  match fuel with
  | O => step st
  | S fuel' =>
      do r <- iterate fuel' step st;
      match r with
      | inl st' => iterate fuel' step st'
      | inr out => Done (inr out)
      end
  end.

(** One turn of [for (int i = ...; i < bound; i++) body], the variables
    of the body in [acc]: the test, the body and the increment. *)
Definition for_step {A : Type} (bound : float) (body : Z -> A -> result A)
    (st : Z * A) : result (Z * A + A) :=
  let (i, acc) := st in
  if (double_of_int i <? bound)%float then
    do acc' <- body i acc;
    do i' <- to_int (i + 1);
    Done (inl (i', acc'))
  else Done (inr acc).

(** [for (int i = 0; i < bound; i++) body].  The counter is an [int]:
    within [2 ^ 32] turns the loop has ended or [i++] has overflowed. *)
Definition for_below {A : Type} (bound : float) (body : Z -> A -> result A)
    (acc : A) : result A :=
  do r <- iterate 32 (for_step bound body) (0, acc);
  match r with
  | inr acc' => Done acc'
  | inl _ => Undefined "signed integer overflow"
  end.

(** The body of the inner loop of [GetScaledDownBoxData], at [rs] and
    [cs]; [acc] holds the locals (data, count). *)
Definition box_cell (c : PgmConverter) (a : ScaleArgs) (row col rs cs : Z)
    (acc : Z * Z) : result (Z * Z) :=
  let '(data, count) := acc in
  do r <- int_of_double (double_of_int row / hScale a + double_of_int rs);
  do k <- int_of_double (double_of_int col / wScale a + double_of_int cs);
  do v <- load c r k;
  do data' <- to_int (data + v);
  do count' <- to_int (count + 1);
  Done (data', count').

Definition GetScaledDownBoxData (c : PgmConverter) (row col : Z) : result Z :=
  do a <- scale_args c;
  do r <-
    for_below (dbl_1 / hScale a)
      (fun rs acc =>
         for_below (dbl_1 / wScale a) (box_cell c a row col rs) acc)
      (0, 0);
  let '(data, count) := r in
  if count =? 0 then Undefined "division by zero"
  else to_int (Z.quot data count).

(** The call [c->cArgs->getData(c, row, col)]. *)
Definition call_getData (c : PgmConverter) (row col : Z) : result Z :=
  match getData (cArgs c) with
  | Some fn_GetData => GetData c row col
  | Some fn_GetReflectedData => GetReflectedData c row col
  | Some fn_GetRotated90Data => GetRotated90Data c row col
  | Some fn_GetScaledNnData => GetScaledNnData c row col
  | Some fn_GetScaledUpBlData => GetScaledUpBlData c row col
  | Some fn_GetScaledDownBoxData => GetScaledDownBoxData c row col
  | None => Undefined "call through a null function pointer"
  end.

(** ** Writing the output pgm *)

(** [fprintf(c->oF->fStream, ...)] of the bytes [s]. *)
Definition fprintf_oF (s : string) (c : PgmConverter) : result PgmConverter :=
  do f <- stream_of (oF c);
  Done (set_oF (set_fStream (fputs s f) (oF c)) c).

Definition WritePgmInfo (oF : PgmFile) : result PgmFile :=
  do f <- stream_of oF;
  match PgmTypeToStr (type oF) with
  | Some name =>
      Done (set_fStream
              (fputs (name ++ nl ++
                      "# Generated by pnmdump.exe" ++ nl ++
                      print_int (width oF) ++ " " ++ print_int (height oF) ++ nl ++
                      print_int (maxDataValue oF) ++ nl) f) oF)
  | None => Undefined "%s is given a null pointer"
  end.

(** The body of the inner loop of [WritePgmData]. *)
Definition write_cell (row col : Z) (c : PgmConverter) : result PgmConverter :=
  match type (oF c) with
  | P2 =>
      if col =? 0 then
        do v <- call_getData c row col;
        fprintf_oF (print_int v) c
      else
        do w1 <- to_int (width (oF c) - 1);
        if col =? w1 then
          do v <- call_getData c row col;
          fprintf_oF (" " ++ print_int v ++ nl) c
        else
          do v <- call_getData c row col;
          fprintf_oF (" " ++ print_int v) c
  | P5 =>
      do v <- call_getData c row col;
      fprintf_oF (print_char v) c
  | UNKNOWN => Done c
  end.

(** [for (; col < width; col++)] with [todo] columns to go. *)
Fixpoint write_columns (todo : nat) (row col : Z) (c : PgmConverter)
  : result PgmConverter :=
  match todo with
  | O => Done c
  | S todo' =>
      do c' <- write_cell row col c;
      write_columns todo' row (col + 1) c'
  end.

(** [for (; row < height; row++)] with [todo] rows to go. *)
Fixpoint write_rows (todo : nat) (row : Z) (c : PgmConverter)
  : result PgmConverter :=
  match todo with
  | O => Done c
  | S todo' =>
      do c' <- write_columns (Z.to_nat (width (oF c))) row 0 c;
      write_rows todo' (row + 1) c'
  end.

Definition WritePgmData (c : PgmConverter) : result PgmConverter :=
  write_rows (Z.to_nat (height (oF c))) 0 c.

(** ** Stream management

    [fs] gives the content of the files that exist; a file is known by
    its name.  Opening the output file for writing is taken to succeed.
    It creates the file or empties it: when the output file is the input
    file, opened just before and not read yet, nothing is left in it to
    read (so it is where a file can be open twice, as under POSIX). *)

Definition TryOpenStreams (fs : string -> option string) (c : PgmConverter)
  : result PgmConverter :=
  match fs (fName (iF c)) with
  | None =>
      Failed (message ("No such file: " ++ String (ascii_of_nat 34) (fName (iF c))
                       ++ String (ascii_of_nat 34) ""))
             (set_iF (mkPgmFile None (fName (iF c)) (width (iF c)) (height (iF c))
                                (maxDataValue (iF c)) (type (iF c))) c)
  | Some content =>
      let left := if String.eqb (fName (oF c)) (fName (iF c)) then "" else content in
      Done (set_oF (set_fStream fopen_wb (oF c))
                   (set_iF (set_fStream (fopen_rb left) (iF c)) c))
  end.

(** [fclose] on both streams; the bytes written stay to be read in
    [f_out]. *)
Definition CloseStreams (c : PgmConverter) : result PgmConverter :=
  match fStream (iF c), fStream (oF c) with
  | Some _, Some _ => Done c
  | _, _ => Undefined "fclose of a null stream"
  end.

(** ** Pgm conversion *)

Definition TryConvertPgm (fs : string -> option string) (c : PgmConverter)
  : result PgmConverter :=
  match (do c <- TryOpenStreams fs c;
         do c <- TryReadPgmInfo c;
         do c <- TryReadPgmData c;
         TrySetPgmInfo c) with
  | Failed msg c =>
      do c <- CloseStreams c;
      Failed msg c
  | Undefined why => Undefined why
  | Done c =>
      do o <- WritePgmInfo (oF c);
      do c <- WritePgmData (set_oF o c);
      CloseStreams c
  end.

(** The bytes of the output file. *)
Definition output (c : PgmConverter) : string :=
  match fStream (oF c) with
  | Some f => f_out f
  | None => ""
  end.

(** ** The converters [main] builds for its commands *)

Definition new_file (name : string) (t : PgmType) : PgmFile :=
  mkPgmFile None name 0 0 0 t.

Definition cmd_P2toP5 (infile outfile : string) : PgmConverter :=
  mkPgmConverter (new_file infile P2) (new_file outfile P5)
    (mkConversionArgs (Some fn_GetData) false false) None ∅.

Definition cmd_P5toP2 (infile outfile : string) : PgmConverter :=
  mkPgmConverter (new_file infile P5) (new_file outfile P2)
    (mkConversionArgs (Some fn_GetData) false false) None ∅.

Definition cmd_rotate (infile outfile : string) : PgmConverter :=
  mkPgmConverter (new_file infile UNKNOWN) (new_file outfile UNKNOWN)
    (mkConversionArgs (Some fn_GetReflectedData) true false) None ∅.

Definition cmd_rotate90 (infile outfile : string) : PgmConverter :=
  mkPgmConverter (new_file infile UNKNOWN) (new_file outfile UNKNOWN)
    (mkConversionArgs (Some fn_GetRotated90Data) true false) None ∅.

Definition cmd_scaleNn (scalar infile outfile : string) : PgmConverter :=
  mkPgmConverter (new_file infile UNKNOWN) (new_file outfile UNKNOWN)
    (mkConversionArgs (Some fn_GetScaledNnData) false true)
    (Some (mkScaleArgs scalar NEAREST_NEIGHBOR false dbl_1 dbl_1)) ∅.

Definition cmd_scaleBl (scalar infile outfile : string) : PgmConverter :=
  mkPgmConverter (new_file infile UNKNOWN) (new_file outfile UNKNOWN)
    (mkConversionArgs None false true)
    (Some (mkScaleArgs scalar BILINEAR false dbl_1 dbl_1)) ∅.


(** ** Printing functions

    [stdout] and [stderr] are the texts written to them.  The dumped
    stream is the bytes it holds. *)

Definition usage : string :=
  "Usage:" ++ nl ++
  "./pnmdump.exe --version" ++ nl ++
  "./pnmdump.exe --usage" ++ nl ++
  "./pnmdump.exe --hexdump [FILE]" ++ nl.

(** [PrintUsage(outputStream)]: the text written. *)
Definition PrintUsage : string := usage.

Definition bad_arguments : string := message "pnmdump: bad arguments".

(** The digit [d] of a [%x] or a [%X] conversion. *)
Definition hex_digit (upper : bool) (d : Z) : ascii :=
  ascii_of_nat (Z.to_nat (if d <? 10 then 48 + d
                          else if upper then 55 + d else 87 + d)).

(** The hexadecimal digits of [n], before those of [acc]; an [unsigned
    int] has eight at most. *)
Fixpoint hex_digits (upper : bool) (fuel : nat) (n : Z) (acc : string) : string :=
  match fuel with
  | O => acc
  | S fuel' =>
      if n =? 0 then acc
      else hex_digits upper fuel' (n / 16) (String (hex_digit upper (n mod 16)) acc)
  end.

Fixpoint zeros (n : nat) : string :=
  match n with
  | O => ""
  | S n' => String "0" (zeros n')
  end.

(** [%0<width>x] and [%0<width>X] of a number that is not negative:
    zeros in front up to [width] digits. *)
Definition print_hex (upper : bool) (width : nat) (n : Z) : string :=
  let digits := hex_digits upper 8 n "" in
  zeros (width - String.length digits) ++ digits.

(** The first [n] bytes of [s], and what follows them: what
    [fread(chunk, 1, n, stream)] stores and leaves. *)
Fixpoint take (n : nat) (s : string) : string :=
  match n, s with
  | S n', String c s' => String c (take n' s')
  | _, _ => ""
  end.

Fixpoint drop (n : nat) (s : string) : string :=
  match n, s with
  | S n', String _ s' => drop n' s'
  | _, _ => s
  end.

(** What the inner loop prints for one byte: two upper case digits and
    the character when it is printable, a point otherwise.  A byte above
    127 is not printable whether [char] is signed or not. *)
Definition dump_byte (c : ascii) : string :=
  let n := code c in
  "  " ++ print_hex true 2 n ++ " " ++
  (if (32 <=? n) && (n <=? 126) then String c "" else ".").

Fixpoint dump_chunk (chunk : string) : string :=
  match chunk with
  | EmptyString => ""
  | String c rest => dump_byte c ++ dump_chunk rest
  end.

(** [PrintHexDump]: the text written for the bytes [input], with
    [totalBytesRead] at [total]; [turns] bounds the turns of the loop. *)
Fixpoint dump_loop (turns : nat) (input : string) (total : Z)
  : outcome unit string :=
  match turns with
  | O => Undefined "the loop has not ended"
  | S turns' =>
      let chunk := take 8 input in
      let bytesRead := Z.of_nat (String.length chunk) in
      if bytesRead =? 0 then Done (print_hex false 7 total ++ nl)
      else
        do total' <- to_int (total + bytesRead);
        let line := print_hex false 7 total ++ dump_chunk chunk ++ nl in
        if bytesRead <? 8 then Done (line ++ print_hex false 7 total' ++ nl)
        else
          do more <- dump_loop turns' (drop 8 input) total';
          Done (line ++ more)
  end.

(** Every turn but the last takes eight bytes. *)
Definition PrintHexDump (input : string) : outcome unit string :=
  dump_loop (S (String.length input / 8)) input 0.

(** The standard input: its bytes, and whether it can be positioned (a
    file) or not (a terminal or a pipe, on which [fseek] fails and
    [ftell] returns -1). *)
Record STDIN : Type := mkSTDIN {
  seekable : bool;
  typed : string
}.

(** [fseek(stdin, 0, SEEK_END); ftell(stdin)]. *)
Definition stdin_length (i : STDIN) : Z :=
  if seekable i then Z.of_nat (String.length (typed i)) else -1.

Definition no_such_file (name : string) : string :=
  message ("No such file: " ++ String (ascii_of_nat 34) name ++
           String (ascii_of_nat 34) "").

(** [argv[k]], for [k] below [argc]. *)
Definition argv_at (argv : list string) (k : nat) : string := nth k argv "".

(** [TryPrintHexDump(argc, argv)]: [Done] with the text written to
    [stdout] for [true], [Failed] with the text written to [stderr] for
    [false]. *)
Definition TryPrintHexDump (fs : string -> option string) (i : STDIN)
    (argv : list string) : outcome unit string :=
  if negb (stdin_length i =? 0) then PrintHexDump (typed i)
  else if negb (length argv =? 3)%nat then Failed (bad_arguments ++ PrintUsage) tt
  else
    match fs (argv_at argv 2) with
    | None => Failed (no_such_file (argv_at argv 2)) tt
    | Some content => PrintHexDump content
    end.

(** ** Main

    What a run leaves: the value [main] returns, the texts written to
    [stdout] and [stderr], and the output file a conversion opened, with
    its name and its bytes. *)
Record run : Type := mkRun {
  status : Z;
  out : string;
  err : string;
  written : option (string * string)
}.

Definition VERSION : string := "1.0".

(** [return !TryConvertPgm(&c)]. *)
Definition convert (fs : string -> option string) (c : PgmConverter)
  : outcome unit run :=
  match TryConvertPgm fs c with
  | Done c' => Done (mkRun 0 "" "" (Some (fName (oF c'), output c')))
  | Failed msg c' => Done (mkRun 1 "" msg (Some (fName (oF c'), output c')))
  | Undefined why => Undefined why
  end.

Definition main (fs : string -> option string) (i : STDIN) (argv : list string)
  : outcome unit run :=
  let argc := length argv in
  let bad := Done (mkRun 1 "" (bad_arguments ++ PrintUsage) None) in
  if (argc =? 1)%nat then bad
  else
    match nth_error argv 1 with
    | None => Undefined "argv[1] is read beyond the end of argv"
    | Some cmd =>
        if String.eqb cmd "--version" && (argc =? 2)%nat then
          Done (mkRun 0 (VERSION ++ nl) "" None)
        else if String.eqb cmd "--usage" && (argc =? 2)%nat then
          Done (mkRun 0 PrintUsage "" None)
        else if String.eqb cmd "--hexdump" then
          match TryPrintHexDump fs i argv with
          | Done text => Done (mkRun 0 text "" None)
          | Failed text _ => Done (mkRun 1 "" text None)
          | Undefined why => Undefined why
          end
        else if String.eqb cmd "--P2toP5" && (argc =? 4)%nat then
          convert fs (cmd_P2toP5 (argv_at argv 2) (argv_at argv 3))
        else if String.eqb cmd "--P5toP2" && (argc =? 4)%nat then
          convert fs (cmd_P5toP2 (argv_at argv 2) (argv_at argv 3))
        else if String.eqb cmd "--rotate" && (argc =? 4)%nat then
          convert fs (cmd_rotate (argv_at argv 2) (argv_at argv 3))
        else if String.eqb cmd "--rotate90" && (argc =? 4)%nat then
          convert fs (cmd_rotate90 (argv_at argv 2) (argv_at argv 3))
        else if String.eqb cmd "--scaleNn" && (argc =? 5)%nat then
          convert fs (cmd_scaleNn (argv_at argv 2) (argv_at argv 3) (argv_at argv 4))
        else if String.eqb cmd "--scaleBl" && (argc =? 5)%nat then
          convert fs (cmd_scaleBl (argv_at argv 2) (argv_at argv 3) (argv_at argv 4))
        else bad
    end.

(** ** Reading results *)

(** The factors (wScale, hScale) a successful parse leaves in [c->sArgs]. *)
Definition factors (r : result PgmConverter) : option (float * float) :=
  match r with
  | Done c =>
      match sArgs c with
      | Some a => Some (wScale a, hScale a)
      | None => None
      end
  | _ => None
  end.

(** The line a failing function printed. *)
Definition failure {A : Type} (r : result A) : option string :=
  match r with
  | Failed msg _ => Some msg
  | _ => None
  end.

(** [m] returns normally, with a result of which [P] holds. *)
Definition returns {A : Type} (m : result A) (P : A -> Prop) : Prop :=
  match m with
  | Done a => P a
  | _ => False
  end.

(** A change of the converter, whether the function returned true or
    false. *)
Definition on_state (g : PgmConverter -> PgmConverter)
    (r : result PgmConverter) : result PgmConverter :=
  match r with
  | Done c => Done (g c)
  | Failed msg c => Failed msg (g c)
  | Undefined why => Undefined why
  end.

(** The sample the decoder stored at (row, col), if it stored one. *)
Definition sample (c : PgmConverter) (row col : Z) : option Z :=
  data c !! (row, col).

(** What a decoded converter says of the picture: its descriptor. *)
Definition descriptor (c : PgmConverter) : Z * Z * Z * PgmType :=
  (width (iF c), height (iF c), maxDataValue (iF c), type (iF c)).

(** ** Decoding and encoding *)

(** Decoding: the two reading steps of [TryConvertPgm]. *)
Definition DecodePgm (c : PgmConverter) : result PgmConverter :=
  do c <- TryReadPgmInfo c;
  TryReadPgmData c.

(** Encoding: the two writing steps of [TryConvertPgm]. *)
Definition EncodePgm (c : PgmConverter) : result PgmConverter :=
  do o <- WritePgmInfo (oF c);
  WritePgmData (set_oF o c).

(** A converter whose input stream holds [content] and whose output
    stream is empty, as [TryOpenStreams] leaves them. *)
Definition opened (content : string) (c : PgmConverter) : PgmConverter :=
  set_oF (set_fStream fopen_wb (oF c))
         (set_iF (set_fStream (fopen_rb content) (iF c)) c).

(** Decoding [content] with the expectations of the converter [c], then
    encoding with its transform. *)
Definition recode (c : PgmConverter) (content : string) : result PgmConverter :=
  do c <- DecodePgm (opened content c);
  do c <- TrySetPgmInfo c;
  EncodePgm c.

(** The converter once the header of [content] is read. *)
Definition header_read (content : string) (c : PgmConverter) : PgmConverter :=
  match TryReadPgmInfo (opened content c) with
  | Done c' => c'
  | _ => c
  end.

(** An ASCII to ASCII conversion with the identity transform. *)
Definition cmd_identity (infile outfile : string) : PgmConverter :=
  mkPgmConverter (new_file infile P2) (new_file outfile P2)
    (mkConversionArgs (Some fn_GetData) false false) None ∅.

(** ** What the reading loops keep *)

(** [c'] is [c] but for the array and the state of the input stream,
    which is open in [c'] when it is in [c]. *)
Definition same_but_input (c c' : PgmConverter) : Prop :=
  oF c' = oF c /\ cArgs c' = cArgs c /\ sArgs c' = sArgs c /\
  fName (iF c') = fName (iF c) /\ width (iF c') = width (iF c) /\
  height (iF c') = height (iF c) /\
  maxDataValue (iF c') = maxDataValue (iF c) /\ type (iF c') = type (iF c) /\
  (fStream (iF c) <> None -> fStream (iF c') <> None).

(** [c] with the bytes [extra] after those its input stream holds. *)
Definition more_input (extra : string) (c : PgmConverter) : PgmConverter :=
  match fStream (iF c) with
  | Some f =>
      set_iF (set_fStream (mkFILE (f_in f ++ extra) (f_eof f) (f_out f)) (iF c)) c
  | None => c
  end.

Definition more_reader (extra : string) (r : reader) : reader :=
  mkReader (more_input extra (rd_c r)) (rd_data r) (rd_dataCount r).

(** ** What the loops of the box filter visit *)

(** [walk k step st] is the state after [k] steps none of which ends
    the loop. *)
Fixpoint walk {St Out : Type} (k : nat) (step : St -> result (St + Out))
    (st : St) : option St :=
  match k with
  | O => Some st
  | S k' =>
      match step st with
      | Done (inl st') => walk k' step st'
      | _ => None
      end
  end.

(** The loop [for (i = 0; i < bound; i++)] takes its turns at
    [i = 0, 1, ...] below [bound] and in turn [i] visits the cell
    [(int)(start + i)]: [cells] lists the cells visited. *)
Definition visits (bound start : float) (cells : list Z) : Prop :=
  (forall i : nat, (i < length cells)%nat ->
     (double_of_int (Z.of_nat i) <? bound)%float = true /\
     (int_of_double (start + double_of_int (Z.of_nat i)) : result Z)
       = Done (nth i cells 0)) /\
  (double_of_int (Z.of_nat (length cells)) <? bound)%float = false.

(** The sum of the samples of row [r] at the columns [cols], and the sum
    of the samples at the crossings of [rows] and [cols]. *)
Definition row_sum (c : PgmConverter) (r : Z) (cols : list Z) : Z :=
  fold_right Z.add 0 (map (fun k => default 0 (data c !! (r, k))) cols).

Definition block_sum (c : PgmConverter) (rows cols : list Z) : Z :=
  fold_right Z.add 0 (map (fun r => row_sum c r cols) rows).

(** Their average, the division truncated as C's is. *)
Definition block_average (c : PgmConverter) (rows cols : list Z) : Z :=
  Z.quot (block_sum c rows cols) (Z.of_nat (length rows * length cols)).

(** [n] consecutive integers from [z]. *)
Definition span (z : Z) (n : Z) : list Z :=
  map (fun i => z + Z.of_nat i) (seq 0 (Z.to_nat n)).

(** The box filter in the words of the specification: the truncated
    average of the block of floor(1/hScale) x floor(1/wScale) samples
    whose top-left corner is (floor(row/hScale), floor(col/wScale)). *)
Definition box_as_stated (c : PgmConverter) (a : ScaleArgs) (row col : Z)
  : option Z :=
  match trunc (dbl_1 / hScale a), trunc (dbl_1 / wScale a),
        trunc (double_of_int row / hScale a),
        trunc (double_of_int col / wScale a) with
  | Some nr, Some nc, Some r0, Some k0 =>
      Some (block_average c (span r0 nr) (span k0 nc))
  | _, _, _, _ => None
  end.

(** ** Pictures *)

Fixpoint repeat_string (n : nat) (s : string) : string :=
  match n with
  | O => ""
  | S n' => s ++ repeat_string n' s
  end.

Definition pgm_header (magic : string) (w h m : Z) : string :=
  magic ++ nl ++ "# a comment" ++ nl ++
  print_int w ++ " " ++ print_int h ++ nl ++ print_int m ++ nl.

(** A file system with the one file ["in.pgm"]. *)
Definition one_file (content : string) (name : string) : option string :=
  if String.eqb name "in.pgm" then Some content else None.

(** A P2 file whose header declares 513 columns and one row, with 513
    samples in its body. *)
Definition wide_pgm : string :=
  pgm_header "P2" 513 1 255 ++ repeat_string 513 "0 ".

(** A P2 file whose header declares 513 columns and no row. *)
Definition wide_empty_pgm : string := pgm_header "P2" 513 0 255.

(** A P2 file of one column and one row. *)
Definition one_pixel_pgm : string := pgm_header "P2" 1 1 255 ++ "7" ++ nl.

(** A P2 file of two columns and two rows. *)
Definition square_pgm : string :=
  pgm_header "P2" 2 2 255 ++ "10 20" ++ nl ++ "30 40" ++ nl.

(** A P5 file of one column and two rows, the bytes 65 and 66. *)
Definition column_pgm : string := pgm_header "P5" 1 2 255 ++ "AB".

(** A file whose magic is neither P2 nor P5. *)
Definition p3_pgm : string := pgm_header "P3" 1 1 255 ++ "9" ++ nl.

(** A P2 file of four columns and four rows, all samples distinct. *)
Definition distinct_pgm : string :=
  pgm_header "P2" 4 4 255 ++
  "10 20 30 40" ++ nl ++ "50 60 70 80" ++ nl ++
  "90 100 110 120" ++ nl ++ "130 140 150 160" ++ nl.

(** The two-by-two picture for the command [--P2toP5]: its header read,
    and its samples read. *)
Definition square_header : PgmConverter :=
  header_read square_pgm (cmd_P2toP5 "in.pgm" "out.pgm").

Definition square_read : PgmConverter :=
  match TryReadPgmData square_header with
  | Done c => c
  | _ => square_header
  end.

(** The two-by-two picture decoded for the command [--scaleNn 3/2], and
    the converter once the scale text is parsed. *)
Definition square_decoded : PgmConverter :=
  match (do c <- TryOpenStreams (one_file square_pgm)
                                (cmd_scaleNn "3/2" "in.pgm" "out.pgm");
         DecodePgm c) with
  | Done c => c
  | _ => cmd_scaleNn "3/2" "in.pgm" "out.pgm"
  end.

Definition square_parsed : PgmConverter :=
  match TryParseScalar square_decoded with
  | Done c => c
  | _ => square_decoded
  end.

(** The four-by-four picture decoded for the command [--scaleBl 3/4],
    its output set up. *)
Definition distinct_scaled : PgmConverter :=
  match (do c <- DecodePgm (opened distinct_pgm (cmd_scaleBl "3/4" "in.pgm" "out.pgm"));
         TrySetPgmInfo c) with
  | Done c => c
  | _ => cmd_scaleBl "3/4" "in.pgm" "out.pgm"
  end.

(** ** What [%i] reads of what [%i] wrote *)

(** The number the decimal digits [d] continue from [acc]. *)
Fixpoint uint_value (d : Decimal.uint) (acc : Z) : Z :=
  match d with
  | Decimal.Nil => acc
  | Decimal.D0 d => uint_value d (acc * 10 + 0)
  | Decimal.D1 d => uint_value d (acc * 10 + 1)
  | Decimal.D2 d => uint_value d (acc * 10 + 2)
  | Decimal.D3 d => uint_value d (acc * 10 + 3)
  | Decimal.D4 d => uint_value d (acc * 10 + 4)
  | Decimal.D5 d => uint_value d (acc * 10 + 5)
  | Decimal.D6 d => uint_value d (acc * 10 + 6)
  | Decimal.D7 d => uint_value d (acc * 10 + 7)
  | Decimal.D8 d => uint_value d (acc * 10 + 8)
  | Decimal.D9 d => uint_value d (acc * 10 + 9)
  end.

(** The text after a number ends it: it is empty or begins with white
    space. *)
Definition delimits (s : string) : bool :=
  match s with
  | EmptyString => true
  | String c _ => isspace c
  end.

(** ** The text of a pgm header *)

(** The four lines [TryReadPgmInfo] expects and [WritePgmInfo] writes. *)
Definition header_text (magic comment : string) (w h m : Z) : string :=
  magic ++ nl ++ comment ++ nl ++
  print_int w ++ " " ++ print_int h ++ nl ++ print_int m ++ nl.

(** A string of one byte or more, none of them white space. *)
Definition one_word (s : string) : bool :=
  match s, word s with
  | String _ _, (_, EmptyString) => true
  | _, _ => false
  end.

(** A string of one byte or more, none of them a newline and the first
    not white space. *)
Definition one_line (s : string) : bool :=
  match s, line s with
  | String c _, (_, EmptyString) => negb (isspace c)
  | _, _ => false
  end.

(** The comment [WritePgmInfo] writes. *)
Definition generated : string := "# Generated by pnmdump.exe".

(** ** The text of a P2 body *)

(** A run of white space, and a run of one byte or more of it. *)
Definition blank (s : string) : bool :=
  match skip_space s with
  | EmptyString => true
  | _ => false
  end.

Definition gap (s : string) : bool :=
  match s with
  | EmptyString => false
  | _ => blank s
  end.

(** The samples [px row col] in decimal, the one at (row, col)
    followed by the white space [sep row col]: [todo] samples of the row
    [row] from the column [col], and [todo] rows of [w] samples from the
    row [row]. *)
Fixpoint tokens_columns (px : Z -> Z -> Z) (sep : Z -> Z -> string)
    (todo : nat) (row col : Z) : string :=
  match todo with
  | O => ""
  | S todo' =>
      print_int (px row col) ++ sep row col ++
      tokens_columns px sep todo' row (col + 1)
  end.

Fixpoint tokens_rows (px : Z -> Z -> Z) (sep : Z -> Z -> string) (w : Z)
    (todo : nat) (row : Z) : string :=
  match todo with
  | O => ""
  | S todo' =>
      tokens_columns px sep (Z.to_nat w) row 0 ++
      tokens_rows px sep w todo' (row + 1)
  end.

(** The input stream of [c] is open, not at its end, and holds [text]
    after a run of white space. *)
Definition at_text (c : PgmConverter) (text : string) : Prop :=
  exists f b,
    fStream (iF c) = Some f /\ f_eof f = false /\ blank b = true /\
    f_in f = b ++ text.

(** ** The text of a written body *)

(** What [WritePgmData] prints for the sample [v] at the column [col] of
    a row of [w] samples. *)
Definition cell_text (t : PgmType) (w col v : Z) : string :=
  match t with
  | P2 =>
      if col =? 0 then print_int v
      else if col =? w - 1 then " " ++ print_int v ++ nl
      else " " ++ print_int v
  | P5 => print_char v
  | UNKNOWN => ""
  end.

(** The samples [g row col] so printed: [todo] samples of the row [row]
    from the column [col], and [todo] rows of [w] samples from the row
    [row]. *)
Fixpoint columns_text (t : PgmType) (g : Z -> Z -> Z) (w : Z)
    (todo : nat) (row col : Z) : string :=
  match todo with
  | O => ""
  | S todo' =>
      cell_text t w col (g row col) ++ columns_text t g w todo' row (col + 1)
  end.

Fixpoint rows_text (t : PgmType) (g : Z -> Z -> Z) (w : Z)
    (todo : nat) (row : Z) : string :=
  match todo with
  | O => ""
  | S todo' =>
      columns_text t g w (Z.to_nat w) row 0 ++ rows_text t g w todo' (row + 1)
  end.

(** The white space after the sample at the column [col] of a written
    row of [w] samples, two or more. *)
Definition written_sep (w : Z) (row col : Z) : string :=
  if col =? w - 1 then nl else " ".

(** The input stream of [c] is open, not at its end, and holds exactly
    [text]. *)
Definition at_bytes (c : PgmConverter) (text : string) : Prop :=
  exists f, fStream (iF c) = Some f /\ f_eof f = false /\ f_in f = text.

(** ** The text of a pgm file *)

(** The magic number of a type. *)
Definition magic_of (t : PgmType) : string :=
  match PgmTypeToStr t with
  | Some name => name
  | None => ""
  end.

(** A file as the program writes it: the header with the comment
    [generated], then [h] rows of [w] samples [px row col]. *)
Definition pgm_text (t : PgmType) (w h m : Z) (px : Z -> Z -> Z) : string :=
  header_text (magic_of t) generated w h m ++ rows_text t px w (Z.to_nat h) 0.

(** The cell (i, j) is in a picture of [h] rows of [w] samples. *)
Definition inside (w h i j : Z) : bool :=
  (0 <=? i) && (i <? h) && (0 <=? j) && (j <? w).

(** The array of [c'] is the array of [c] with the picture [px] of [h]
    rows of [w] samples stored in it. *)
Definition holds (c c' : PgmConverter) (w h : Z) (px : Z -> Z -> Z) : Prop :=
  forall i j,
    data c' !! (i, j) = if inside w h i j then Some (px i j) else data c !! (i, j).

(** ** Whole conversions *)




(** [content] is a pgm file of type [t] that holds the picture [px], [h]
    rows of [w] samples between 0 and [m]: after the four header lines,
    as P2 the samples in decimal with white space after each, or as P5
    one byte for each sample and nothing else, the first byte not white
    space. *)
Inductive pgm_file : string -> PgmType -> Z -> Z -> Z -> (Z -> Z -> Z) -> Prop :=
| ascii_file comment w h m b0 px sep rest :
    one_line comment = true -> blank b0 = true ->
    1 <= w <= 512 -> 1 <= h <= 512 -> m <= INT_MAX ->
    (forall i j, 0 <= i < h -> 0 <= j < w ->
       gap (sep i j) = true /\ 0 <= px i j <= m) ->
    pgm_file (header_text "P2" comment w h m ++ b0 ++
              tokens_rows px sep w (Z.to_nat h) 0 ++ rest) P2 w h m px
| binary_file comment w h m px :
    one_line comment = true ->
    1 <= w <= 512 -> 1 <= h <= 512 -> m <= INT_MAX ->
    (forall i j, 0 <= i < h -> 0 <= j < w -> 0 <= px i j <= 255 /\ px i j <= m) ->
    px 0 0 <> 32 -> ~ 9 <= px 0 0 <= 13 ->
    pgm_file (header_text "P5" comment w h m ++
              rows_text P5 px w (Z.to_nat h) 0) P5 w h m px.

(** The lines a failing conversion can print. *)
Definition failure_lines : list string :=
  corrupted :: message "Input is not in P2 format" ::
  message "Input is not in P5 format" :: bad_scalar :: mixed_scaling ::
  not_positive :: too_large :: nil.

(** [m] does not return false: it returns normally or has no meaning. *)
Definition passes {A : Type} (m : result A) : Prop :=
  match m with
  | Failed _ _ => False
  | _ => True
  end.

(** ** Scaling by a whole number *)




(** ** Reading a dump *)

(** Every byte of [s] satisfies [p]. *)
Fixpoint all_chars (p : ascii -> bool) (s : string) : bool :=
  match s with
  | EmptyString => true
  | String c s' => p c && all_chars p s'
  end.

(** A printable character of ASCII, the space among them. *)
Definition printable (c : ascii) : bool := (32 <=? code c) && (code c <=? 126).

Definition printable_or_newline (c : ascii) : bool :=
  printable c || (code c =? 10).

(** The number of newlines in [s]. *)
Fixpoint newlines (s : string) : Z :=
  match s with
  | EmptyString => 0
  | String c s' => (if code c =? 10 then 1 else 0) + newlines s'
  end.

(** ** More pictures *)

(** A P2 file of two columns and two rows whose first sample is not the
    code of a white space character, and the picture it holds. *)
Definition grey_pgm : string :=
  pgm_header "P2" 2 2 255 ++ "65 66" ++ nl ++ "67 68" ++ nl.

Definition grey_px (row col : Z) : Z := 65 + 2 * row + col.

(** The separators of a file with one space between the samples of a row
    and a newline after the last. *)
Definition plain_sep (w : Z) (row col : Z) : string :=
  if col =? w - 1 then nl else " ".

(** A P5 file of one column and two rows, the bytes 65 and 66, with its
    header read for the command [--P5toP2]. *)
Definition column_header : PgmConverter :=
  header_read column_pgm (cmd_P5toP2 "in.pgm" "out.pgm").

Definition column_stream : FILE :=
  match fStream (iF column_header) with
  | Some f => f
  | None => fopen_wb
  end.

Definition column_read : PgmConverter :=
  match TryReadPgmData column_header with
  | Done c => c
  | _ => column_header
  end.

(** A P2 header that declares no column, read for [--P2toP5]. *)
Definition empty_header : PgmConverter :=
  header_read (pgm_header "P2" 0 3 255) (cmd_P2toP5 "in.pgm" "out.pgm").

(** What the run of [--P2toP5] on a file of magic P3 leaves. *)
Definition p3_failed : PgmConverter :=
  match TryConvertPgm (one_file p3_pgm) (cmd_P2toP5 "in.pgm" "out.pgm") with
  | Failed _ c => c
  | _ => cmd_P2toP5 "in.pgm" "out.pgm"
  end.

(** The four-by-four picture decoded for [--scaleBl 3/4], then its scale
    text parsed, and the scale arguments this leaves. *)
Definition distinct_decoded : PgmConverter :=
  match DecodePgm (opened distinct_pgm (cmd_scaleBl "3/4" "in.pgm" "out.pgm")) with
  | Done c => c
  | _ => cmd_scaleBl "3/4" "in.pgm" "out.pgm"
  end.

Definition distinct_parsed : PgmConverter :=
  match TryParseScalar distinct_decoded with
  | Done c => c
  | _ => distinct_decoded
  end.

Definition distinct_args : ScaleArgs :=
  match sArgs distinct_parsed with
  | Some a => a
  | None => mkScaleArgs "" BILINEAR false dbl_1 dbl_1
  end.

(** The grey picture set up for writing as P2. *)
Definition grey_writer : PgmConverter :=
  match (do c <- DecodePgm (opened grey_pgm (cmd_identity "in.pgm" "out.pgm"));
         TrySetPgmInfo c) with
  | Done c => c
  | _ => cmd_identity "in.pgm" "out.pgm"
  end.

(** What [--P2toP5] on a file of magic P3 leaves of the run. *)
Definition p3_run : run :=
  mkRun 1 "" (message "Input is not in P2 format") (Some ("out.pgm", "")).





(** * Properties *)

Lemma PgmType_eqb_eq a b : PgmType_eqb a b = true <-> a = b.
Proof. destruct a, b; simpl; split; congruence. Qed.

(** ** The scale parser on the documented examples *)

(** C8.  Whatever else the converter holds, [TryParseScalar] maps the
    scale text "2" to the factors (2.0, 2.0), "1/2" to (0.5, 0.5), "3x4"
    to width 3.0 and height 4.0, "1/2x3/4" to (0.5, 0.75), and rejects
    "2xhalf" as a bad scalar format. *)
Theorem TryParseScalar_examples :
  forall (c : PgmConverter) (ty : ScaleType) (e : bool) (h w : float),
    let parse text := TryParseScalar (set_sArgs (mkScaleArgs text ty e h w) c) in
    factors (parse "2") = Some (2, 2)%float /\
    factors (parse "1/2") = Some (0.5, 0.5)%float /\
    factors (parse "3x4") = Some (3, 4)%float /\
    factors (parse "1/2x3/4") = Some (0.5, 0.75)%float /\
    failure (parse "2xhalf") = Some bad_scalar.
Proof.
  intros c ty e h w parse. subst parse.
  destruct ty; vm_compute; repeat split; reflexivity.
Qed.

(** ** A scale text that begins with the letter m *)

Lemma code_m (ch : ascii) : code ch = 109 -> ch = "m"%char.
Proof.
  intros H. rewrite <- (ascii_N_embedding ch).
  unfold code in H. replace (N_of_ascii ch) with 109%N by lia. reflexivity.
Qed.

Lemma TryParseScalar_m (c : PgmConverter) (a : ScaleArgs) (rest : string) :
  sArgs c = Some a -> scale a = String "m" rest ->
  failure (TryParseScalar c) = Some bad_scalar.
Proof.
  intros Ha Hs. unfold TryParseScalar, scale_args, scan_scale.
  rewrite Ha. simpl. rewrite Hs. vm_compute. reflexivity.
Qed.

(** Conjunctions of facts that hold by evaluation. *)
Ltac evaluate :=
  repeat match goal with
         | |- exists _, _ => eexists
         | |- _ /\ _ => split
         end;
  solve [vm_compute; reflexivity].

Ltac step_scan :=
  match goal with
  | |- context [bind ?m _] => destruct m as [[? ?] | ? ? | ?]; simpl
  | |- context [if ?b then _ else _] => destruct b; simpl
  end.

Lemma scan_scale_frame c a a' :
  scan_scale c a = Done a' ->
  isEnlarge a' = isEnlarge a /\ scale a' = scale a /\ scaleType a' = scaleType a.
Proof.
  unfold scan_scale.
  repeat step_scan; intros H; inversion H; subst; auto.
Qed.

Lemma TryParseScalar_Done_sArgs c c' :
  TryParseScalar c = Done c' ->
  exists a a', sArgs c = Some a /\ sArgs c' = Some a' /\
    scan_scale (set_sArgs (set_isEnlarge (if starts_with_m (scale a) then false else true) a) c)
               (set_isEnlarge (if starts_with_m (scale a) then false else true) a) = Done a'.
Proof.
  unfold TryParseScalar, scale_args. destruct (sArgs c) as [a|]; simpl; [|discriminate].
  destruct (scan_scale _ _) as [a'| |] eqn:Hs; simpl; try discriminate.
  intros H. exists a, a'. split; [reflexivity|]. split; [|exact Hs].
  destruct (scaleType a');
    repeat match type of H with
           | context [if ?b then _ else _] => destruct b
           end; inversion H; reflexivity.
Qed.

(** C10.  When the scale text begins with the letter m, [TryParseScalar]
    fails with the bad scalar format message: none of the four formats
    converts anything.  So the hint [isEnlarge = false], which only such
    a text records, is never there after a successful parse. *)
Theorem TryParseScalar_leading_m (c : PgmConverter) (a : ScaleArgs) (rest : string) :
  sArgs c = Some a -> scale a = String "m" rest ->
  failure (TryParseScalar c) = Some bad_scalar /\
  (forall c0 c1 : PgmConverter,
      TryParseScalar c0 = Done c1 ->
      exists a1, sArgs c1 = Some a1 /\ isEnlarge a1 = true).
Proof.
  intros Ha Hs. split; [exact (TryParseScalar_m c a rest Ha Hs)|].
  intros c0 c1 H.
  destruct (TryParseScalar_Done_sArgs _ _ H) as (a0 & a1 & H0 & H1 & Hscan).
  exists a1. split; [exact H1|].
  destruct (scan_scale_frame _ _ _ Hscan) as (He & _ & _). rewrite He. simpl.
  destruct (starts_with_m (scale a0)) eqn:Hm; [exfalso|reflexivity].
  unfold starts_with_m in Hm. destruct (scale a0) as [|ch r] eqn:Hsc; [discriminate|].
  apply Z.eqb_eq, code_m in Hm. subst ch.
  pose proof (TryParseScalar_m c0 a0 r H0 Hsc) as Hf.
  rewrite H in Hf. discriminate.
Qed.

Lemma TryParseScalar_leading_m_witness :
  failure (TryParseScalar (cmd_scaleNn "m2" "in.pgm" "out.pgm")) = Some bad_scalar /\
  (forall c0 c1 : PgmConverter,
      TryParseScalar c0 = Done c1 ->
      exists a1, sArgs c1 = Some a1 /\ isEnlarge a1 = true).
Proof.
  apply (TryParseScalar_leading_m (cmd_scaleNn "m2" "in.pgm" "out.pgm")
           (mkScaleArgs "m2" NEAREST_NEIGHBOR false dbl_1 dbl_1) "2");
    reflexivity.
Defined.

(** ** The capacity of the array *)

(** C1.  The decoder has no check of the declared width and height
    against the 512 x 512 array.  On a file that declares 513 columns it
    does not fail with a message.  With 513 samples in the body it stores
    the first 512 and then the last one at column 512, outside the
    array, which ISO C leaves undefined; with no row it reports success. *)
Theorem decode_beyond_capacity :
  DecodePgm (opened wide_pgm (cmd_P2toP5 "in.pgm" "out.pgm"))
    = Undefined "subscript outside int data[512][512]" /\
  returns
    (read_columns 512 0 0
       (mkReader (header_read wide_pgm (cmd_P2toP5 "in.pgm" "out.pgm")) 0 0))
    (fun r =>
       rd_dataCount r = 512 /\
       read_cell 0 512 r = Undefined "subscript outside int data[512][512]") /\
  returns
    (DecodePgm (opened wide_empty_pgm (cmd_P2toP5 "in.pgm" "out.pgm")))
    (fun c => width (iF c) = 513).
Proof.
  split; [vm_compute; reflexivity|].
  split; vm_compute; auto.
Qed.

(** ** A raster of one column *)

(** C5.  Encoding as P2 a raster one column wide: after the header, the
    two samples 65 and 66 of the two rows are written as the bytes
    "6566", with no newline after either. *)
Theorem WritePgmData_one_column :
  exists c,
    TryConvertPgm (one_file column_pgm) (cmd_P5toP2 "in.pgm" "out.pgm") = Done c /\
    width (oF c) = 1 /\ height (oF c) = 2 /\
    sample c 0 0 = Some 65 /\ sample c 1 0 = Some 66 /\
    output c = "P2" ++ nl ++ "# Generated by pnmdump.exe" ++ nl ++
               "1 2" ++ nl ++ "255" ++ nl ++ "6566".
Proof. evaluate. Qed.

(** C2.  Decoding the P2 file of one sample, 7, succeeds; encoding the
    result as P2 with the identity transform writes the sample with no
    newline after it; decoding what was written fails as a corrupted
    file, for the sample ends the stream and is not counted. *)
Theorem roundtrip_one_pixel :
  exists c1 c2,
    DecodePgm (opened one_pixel_pgm (cmd_identity "in.pgm" "out.pgm")) = Done c1 /\
    descriptor c1 = (1, 1, 255, P2) /\ sample c1 0 0 = Some 7 /\
    recode (cmd_identity "in.pgm" "out.pgm") one_pixel_pgm = Done c2 /\
    output c2 = "P2" ++ nl ++ "# Generated by pnmdump.exe" ++ nl ++
                "1 1" ++ nl ++ "255" ++ nl ++ "7" /\
    failure (DecodePgm (opened (output c2) (cmd_identity "in.pgm" "out.pgm")))
      = Some corrupted.
Proof. evaluate. Qed.

(** With two columns the same round trip gives back the descriptor and
    the four samples. *)
Example roundtrip_square :
  exists c1 c2 c3,
    DecodePgm (opened square_pgm (cmd_identity "in.pgm" "out.pgm")) = Done c1 /\
    recode (cmd_identity "in.pgm" "out.pgm") square_pgm = Done c2 /\
    DecodePgm (opened (output c2) (cmd_identity "in.pgm" "out.pgm")) = Done c3 /\
    descriptor c3 = descriptor c1 /\ data c3 = data c1.
Proof. evaluate. Qed.

(** ** A magic that is neither P2 nor P5 *)

(** C3.  When no encoding is expected, as for the rotate and scale
    commands, a file whose magic is P3 is decoded with success: the type
    stays UNKNOWN, no byte of the body is read, and the sample stored is
    the initial 0 of the local variable.  The run then reaches the
    header's [%s] with a null pointer. *)
Theorem decode_unknown_magic :
  (exists c,
     DecodePgm (opened p3_pgm (cmd_rotate "in.pgm" "out.pgm")) = Done c /\
     descriptor c = (1, 1, 255, UNKNOWN) /\ sample c 0 0 = Some 0) /\
  TryConvertPgm (one_file p3_pgm) (cmd_rotate "in.pgm" "out.pgm")
    = Undefined "%s is given a null pointer".
Proof. evaluate. Qed.

(** When an encoding is expected, a magic that maps to another one is
    refused. *)
Example decode_wrong_format :
  failure (DecodePgm (opened p3_pgm (cmd_P2toP5 "in.pgm" "out.pgm")))
    = Some (message "Input is not in P2 format") /\
  failure (DecodePgm (opened square_pgm (cmd_P5toP2 "in.pgm" "out.pgm")))
    = Some (message "Input is not in P5 format").
Proof. evaluate. Qed.

(** ** The reading loops *)

Lemma same_but_input_refl c : same_but_input c c.
Proof. unfold same_but_input; tauto. Qed.

Lemma same_but_input_trans c1 c2 c3 :
  same_but_input c1 c2 -> same_but_input c2 c3 -> same_but_input c1 c3.
Proof. unfold same_but_input; intuition congruence. Qed.

Lemma same_but_input_stream f c : same_but_input c (set_iF (set_fStream f (iF c)) c).
Proof. unfold same_but_input; simpl; intuition discriminate. Qed.

Lemma same_but_input_data d c : same_but_input c (set_data d c).
Proof. unfold same_but_input; simpl; tauto. Qed.

Lemma read_sample_frame r r1 :
  read_sample r = Done r1 ->
  same_but_input (rd_c r) (rd_c r1) /\ data (rd_c r1) = data (rd_c r) /\
  rd_dataCount r1 = rd_dataCount r.
Proof.
  unfold read_sample, stream_of.
  destruct (type (iF (rd_c r))).
  - intros H; inversion H; subst. auto using same_but_input_refl.
  - destruct (fStream (iF (rd_c r))) as [f|]; simpl; [|discriminate].
    destruct (fscanf f _) as [[[ret args] f']| |]; simpl; try discriminate.
    destruct (ret =? 0); [discriminate|].
    intros H; inversion H; subst; simpl. auto using same_but_input_stream.
  - destruct (fStream (iF (rd_c r))) as [f|]; simpl; [|discriminate].
    destruct (fgetc f) as [ch f'].
    intros H; inversion H; subst; simpl. auto using same_but_input_stream.
Qed.

(** What one turn of the inner loop does to the count and to the array. *)
Lemma read_cell_Done row column r fl :
  read_cell row column r = Done fl ->
  match fl with
  | Break r' =>
      same_but_input (rd_c r) (rd_c r') /\ data (rd_c r') = data (rd_c r) /\
      rd_dataCount r' = rd_dataCount r
  | Next r' =>
      same_but_input (rd_c r) (rd_c r') /\
      data (rd_c r') = <[(row, column) := rd_data r']> (data (rd_c r)) /\
      rd_dataCount r' = rd_dataCount r + 1 /\
      0 <= rd_data r' <= maxDataValue (iF (rd_c r)) /\
      in_array row column = true
  end.
Proof.
  unfold read_cell.
  destruct (read_sample r) as [r1| |] eqn:Hs; simpl; try discriminate.
  destruct (read_sample_frame _ _ Hs) as (Hf & Hd & Hc).
  unfold stream_of. destruct (fStream (iF (rd_c r1))) as [f1|]; simpl; [|discriminate].
  destruct (feof f1).
  - intros H; inversion H; subst. auto.
  - unfold to_int. destruct (in_int (rd_dataCount r1 + 1)); simpl; [|discriminate].
    destruct ((rd_data r1 >? maxDataValue (iF (rd_c r1))) || (rd_data r1 <? 0)) eqn:Hr;
      [discriminate|].
    unfold store. destruct (in_array row column) eqn:Hin; simpl; [|discriminate].
    intros H; inversion H; subst; simpl.
    apply orb_false_iff in Hr. destruct Hr as [Hr1 Hr2].
    rewrite Z.gtb_ltb in Hr1. apply Z.ltb_ge in Hr1. apply Z.ltb_ge in Hr2.
    destruct Hf as (? & ? & ? & ? & ? & ? & Hm & ? & ?).
    repeat split; simpl; try congruence; try lia; auto.
Qed.

Lemma read_columns_Done todo : forall row col0 r r',
  read_columns todo row col0 r = Done r' ->
  exists k : nat,
    (k <= todo)%nat /\ rd_dataCount r' = rd_dataCount r + Z.of_nat k /\
    same_but_input (rd_c r) (rd_c r') /\
    (forall i j, ~ (i = row /\ col0 <= j < col0 + Z.of_nat k) ->
                 data (rd_c r') !! (i, j) = data (rd_c r) !! (i, j)) /\
    (forall j, col0 <= j < col0 + Z.of_nat k ->
               exists v, data (rd_c r') !! (row, j) = Some v /\
                         0 <= v <= maxDataValue (iF (rd_c r))).
Proof.
  induction todo as [|todo IH]; intros row col0 r r'; simpl.
  - intros H; inversion H; subst. exists O.
    repeat split; auto using same_but_input_refl; try lia; intros; lia.
  - destruct (read_cell row col0 r) as [fl| |] eqn:Hcell; simpl; try discriminate.
    pose proof (read_cell_Done _ _ _ _ Hcell) as Hfl.
    destruct fl as [r1|r1].
    + destruct Hfl as (Hf & Hd & Hc & Hv & _).
      intros H. destruct (IH _ _ _ _ H) as (k & Hk & Hc' & Hf' & Hkeep & Hnew).
      exists (S k). split; [lia|]. split; [lia|].
      split; [eapply same_but_input_trans; eauto|].
      assert (Hm : maxDataValue (iF (rd_c r1)) = maxDataValue (iF (rd_c r)))
        by (destruct Hf as (_ & _ & _ & _ & _ & _ & Hm & _); exact Hm).
      split.
      * intros i j Hij. rewrite Hkeep by lia. rewrite Hd.
        apply lookup_insert_ne. intros E; inversion E; subst. lia.
      * intros j Hj. destruct (Z.eq_dec j col0) as [->|Hne].
        -- exists (rd_data r1). split; [|lia].
           rewrite Hkeep by lia. rewrite Hd. apply lookup_insert_eq.
        -- destruct (Hnew j) as (v & Hv1 & Hv2); [lia|].
           exists v. split; [exact Hv1|]. rewrite <- Hm. exact Hv2.
    + destruct Hfl as (Hf & Hd & Hc).
      intros H; inversion H; subst. exists O.
      split; [lia|]. split; [lia|]. split; [exact Hf|].
      split; [intros; rewrite Hd; reflexivity|intros; lia].
Qed.

Lemma read_rows_Done todo : forall row0 r r',
  read_rows todo row0 r = Done r' ->
  let W := Z.of_nat (Z.to_nat (width (iF (rd_c r)))) in
  same_but_input (rd_c r) (rd_c r') /\
  rd_dataCount r' <= rd_dataCount r + Z.of_nat todo * W /\
  (forall i j, i < row0 -> data (rd_c r') !! (i, j) = data (rd_c r) !! (i, j)) /\
  (rd_dataCount r' = rd_dataCount r + Z.of_nat todo * W ->
   forall i j, row0 <= i < row0 + Z.of_nat todo -> 0 <= j < W ->
               exists v, data (rd_c r') !! (i, j) = Some v /\
                         0 <= v <= maxDataValue (iF (rd_c r))).
Proof.
  induction todo as [|todo IH]; intros row0 r r'; simpl.
  - intros H; inversion H; subst.
    repeat split; auto using same_but_input_refl; try lia; intros; lia.
  - destruct (read_columns _ row0 0 r) as [r1| |] eqn:Hcols; simpl; try discriminate.
    destruct (read_columns_Done _ _ _ _ _ Hcols) as (k & Hk & Hc & Hf & Hkeep & Hnew).
    intros H. specialize (IH _ _ _ H). simpl in IH.
    destruct IH as (Hf' & Hle & Hkeep' & Hall).
    assert (Hw : width (iF (rd_c r1)) = width (iF (rd_c r)))
      by (destruct Hf as (_ & _ & _ & _ & Hw & _); exact Hw).
    assert (Hm : maxDataValue (iF (rd_c r1)) = maxDataValue (iF (rd_c r)))
      by (destruct Hf as (_ & _ & _ & _ & _ & _ & Hm & _); exact Hm).
    rewrite Hw in Hle, Hall.
    set (W := Z.of_nat (Z.to_nat (width (iF (rd_c r))))) in *.
    split; [eapply same_but_input_trans; eauto|].
    split; [nia|].
    split.
    + intros i j Hi. rewrite Hkeep' by lia. apply Hkeep. lia.
    + intros Heq i j Hi Hj.
      assert (Hk' : Z.of_nat k = W) by nia.
      assert (Hrest : rd_dataCount r' = rd_dataCount r1 + Z.of_nat todo * W) by nia.
      destruct (Z.eq_dec i row0) as [->|Hne].
      * rewrite Hkeep' by lia. apply Hnew. lia.
      * destruct (Hall Hrest i j) as (v & Hv1 & Hv2); [lia|lia|].
        exists v. split; [exact Hv1|]. rewrite <- Hm. exact Hv2.
Qed.

Lemma TryReadPgmData_Done c c' :
  TryReadPgmData c = Done c' ->
  exists r',
    read_rows (Z.to_nat (height (iF c))) 0 (mkReader c 0 0) = Done r' /\
    same_but_input c c' /\ data c' = data (rd_c r') /\
    rd_dataCount r' = width (iF c) * height (iF c) /\
    (type (iF c) = P5 -> exists f', fStream (iF c') = Some f' /\ f_in f' = "") /\
    (type (iF c) <> P5 -> c' = rd_c r').
Proof.
  unfold TryReadPgmData.
  destruct (read_rows _ 0 _) as [r'| |] eqn:Hrows; simpl; try discriminate.
  destruct (read_rows_Done _ _ _ _ Hrows) as (Hf & _). simpl in Hf.
  assert (Ht : type (iF (rd_c r')) = type (iF c))
    by (destruct Hf as (_ & _ & _ & _ & _ & _ & _ & Ht & _); exact Ht).
  assert (Hw : width (iF (rd_c r')) = width (iF c))
    by (destruct Hf as (_ & _ & _ & _ & Hw & _); exact Hw).
  assert (Hh : height (iF (rd_c r')) = height (iF c))
    by (destruct Hf as (_ & _ & _ & _ & _ & Hh & _); exact Hh).
  intros H. exists r'. split; [reflexivity|].
  destruct (PgmType_eqb (type (iF (rd_c r'))) P5) eqn:Hp5.
  - apply PgmType_eqb_eq in Hp5.
    unfold stream_of in H. destruct (fStream (iF (rd_c r'))) as [f|]; simpl in H; [|discriminate].
    unfold fgetc in H. destruct (f_in f) as [|ch s] eqn:Hin; simpl in H.
    + unfold to_int in H. destruct (in_int _); simpl in H; [|discriminate].
      destruct (rd_dataCount r' =? _) eqn:Hn; simpl in H; [|discriminate].
      inversion H; subst; simpl. apply Z.eqb_eq in Hn.
      split; [eapply same_but_input_trans; [exact Hf|apply same_but_input_stream]|].
      split; [reflexivity|]. split; [lia|].
      split; [intros _; eexists; split; reflexivity|].
      intros Hne. congruence.
    + assert (Hne : negb (code ch =? EOF) = true).
      { apply negb_true_iff, Z.eqb_neq. unfold code, EOF. lia. }
      rewrite Hne in H. discriminate.
  - simpl in H. unfold to_int in H. destruct (in_int _); simpl in H; [|discriminate].
    destruct (rd_dataCount r' =? _) eqn:Hn; simpl in H; [|discriminate].
    inversion H; subst. apply Z.eqb_eq in Hn.
    split; [exact Hf|]. split; [reflexivity|]. split; [lia|].
    split; [|reflexivity].
    intros Hp. rewrite <- Ht in Hp. apply PgmType_eqb_eq in Hp. congruence.
Qed.

Lemma TryReadPgmData_all_stored c c' row col :
  TryReadPgmData c = Done c' ->
  0 <= row < height (iF c) -> 0 <= col < width (iF c) ->
  exists v, sample c' row col = Some v /\ 0 <= v <= maxDataValue (iF c).
Proof.
  intros H Hrow Hcol.
  destruct (TryReadPgmData_Done _ _ H) as (r' & Hrows & _ & Hd & Hn & _).
  destruct (read_rows_Done _ _ _ _ Hrows) as (_ & _ & _ & Hall). simpl in Hall.
  unfold sample. rewrite Hd.
  apply Hall; rewrite ?Z2Nat.id by lia; lia.
Qed.

Lemma read_cell_rejects row column r r1 f1 :
  read_sample r = Done r1 ->
  fStream (iF (rd_c r1)) = Some f1 -> feof f1 = false ->
  in_int (rd_dataCount r1 + 1) = true ->
  rd_data r1 > maxDataValue (iF (rd_c r1)) \/ rd_data r1 < 0 ->
  read_cell row column r = Failed corrupted (rd_c r1).
Proof.
  intros Hs Hf He Hn Hv. unfold read_cell, stream_of, to_int.
  rewrite Hs; simpl. rewrite Hf; simpl. rewrite He, Hn; simpl.
  replace ((rd_data r1 >? maxDataValue (iF (rd_c r1))) || (rd_data r1 <? 0)) with true;
    [reflexivity|].
  symmetry. apply orb_true_iff. rewrite Z.gtb_ltb, !Z.ltb_lt. lia.
Qed.

(** ** Samples within the declared range *)

(** C7.  When [TryReadPgmData] succeeds, whatever the encoding, every
    cell of the raster holds a sample the decoder stored, and that
    sample lies between 0 and the declared maximum.  And in any turn of
    the loop, a sample just read (the stream not at its end) that is
    greater than the maximum or less than 0 makes the decoder fail there
    with the corrupted input message. *)
Theorem TryReadPgmData_samples_in_range (c c' : PgmConverter) :
  TryReadPgmData c = Done c' ->
  (forall row col,
      0 <= row < height (iF c) -> 0 <= col < width (iF c) ->
      exists v, sample c' row col = Some v /\ 0 <= v <= maxDataValue (iF c)) /\
  (forall row column r r1 f1,
      read_sample r = Done r1 ->
      fStream (iF (rd_c r1)) = Some f1 -> feof f1 = false ->
      in_int (rd_dataCount r1 + 1) = true ->
      rd_data r1 > maxDataValue (iF (rd_c r1)) \/ rd_data r1 < 0 ->
      read_cell row column r = Failed corrupted (rd_c r1)).
Proof.
  intros H. split.
  - intros row col. apply TryReadPgmData_all_stored. exact H.
  - apply read_cell_rejects.
Qed.

Lemma TryReadPgmData_samples_in_range_witness :
  TryReadPgmData square_header = Done square_read /\
  exists v, sample square_read 1 1 = Some v /\ 0 <= v <= 255.
Proof.
  split; [vm_compute; reflexivity|].
  refine (proj1 (TryReadPgmData_samples_in_range square_header square_read _) 1 1 _ _);
    vm_compute; [reflexivity | split; [discriminate | reflexivity] ..].
Defined.

(** A sample above the maximum, in either encoding. *)
Example sample_above_maximum :
  failure (DecodePgm (opened (pgm_header "P2" 2 1 9 ++ "3 10 ")
                             (cmd_P2toP5 "in.pgm" "out.pgm"))) = Some corrupted /\
  failure (DecodePgm (opened (pgm_header "P5" 2 1 9 ++ "AB")
                             (cmd_P5toP2 "in.pgm" "out.pgm"))) = Some corrupted.
Proof. evaluate. Qed.

(** ** Bytes after the last sample *)

Lemma skip_space_app s e :
  skip_space s <> "" -> skip_space (s ++ e) = skip_space s ++ e.
Proof.
  induction s as [|ch s IH]; simpl; [congruence|].
  destruct (isspace ch); [exact IH|reflexivity].
Qed.

Lemma digits_app base e : forall s acc n v r,
  digits base s acc = (n, v, r) -> r <> "" ->
  digits base (s ++ e) acc = (n, v, r ++ e).
Proof.
  induction s as [|ch s IH]; simpl; intros acc n v r H Hr.
  - inversion H; subst. congruence.
  - destruct (digit_of base ch) as [d|].
    + destruct (digits base s (acc * base + d)) as [[n' v'] r'] eqn:Hd.
      inversion H; subst. rewrite (IH _ _ _ _ Hd Hr). reflexivity.
    + inversion H; subst. reflexivity.
Qed.

Lemma sign_of_app s e neg body :
  sign_of s = (neg, body) -> s <> "" -> sign_of (s ++ e) = (neg, body ++ e).
Proof.
  destruct s as [|ch s]; simpl; [congruence|].
  destruct (is_sign ch); intros H _; inversion H; subst; reflexivity.
Qed.

Lemma scan_i_app s e v r :
  scan_i s = Conv v r -> r <> "" -> scan_i (s ++ e) = Conv v (r ++ e).
Proof.
  unfold scan_i. intros H Hr.
  destruct (skip_space s) as [|c0 s0] eqn:Hsk; [discriminate|].
  rewrite skip_space_app by (rewrite Hsk; discriminate). rewrite Hsk.
  change (String c0 s0 ++ e) with (String c0 (s0 ++ e)). cbv beta iota.
  change (String c0 (s0 ++ e)) with (String c0 s0 ++ e).
  destruct (sign_of (String c0 s0)) as [neg body] eqn:Hsg.
  rewrite (sign_of_app _ e _ _ Hsg) by discriminate.
  destruct body as [|c1 s1]; [discriminate|].
  change (String c1 s1 ++ e) with (String c1 (s1 ++ e)). cbv beta iota.
  destruct (code c1 =? 48).
  - destruct s1 as [|x s2]; [inversion H; subst; congruence|].
    change (String x s2 ++ e) with (String x (s2 ++ e)). cbv beta iota.
    destruct ((code x =? 120) || (code x =? 88)).
    + destruct (digits 16 s2 0) as [[n v'] r'] eqn:Hd.
      destruct n; [discriminate|]. inversion H; subst.
      rewrite (digits_app _ e _ _ _ _ _ Hd Hr). reflexivity.
    + destruct (digits 8 (String x s2) 0) as [[n v'] r'] eqn:Hd.
      inversion H; subst.
      change (String x (s2 ++ e)) with (String x s2 ++ e).
      rewrite (digits_app _ e _ _ _ _ _ Hd Hr). reflexivity.
  - destruct (digits 10 (String c1 s1) 0) as [[n v'] r'] eqn:Hd.
    destruct n; [discriminate|]. inversion H; subst.
    change (String c1 (s1 ++ e)) with (String c1 s1 ++ e).
    rewrite (digits_app _ e _ _ _ _ _ Hd Hr). reflexivity.
Qed.

Lemma more_input_set_data extra d c :
  more_input extra (set_data d c) = set_data d (more_input extra c).
Proof. unfold more_input; simpl. destruct (fStream (iF c)); reflexivity. Qed.

Lemma more_input_frame extra c : same_but_input c (more_input extra c).
Proof.
  unfold more_input. destruct (fStream (iF c));
    [apply same_but_input_stream|apply same_but_input_refl].
Qed.

Lemma data_more_input extra c : data (more_input extra c) = data c.
Proof. unfold more_input. destruct (fStream (iF c)); reflexivity. Qed.

Lemma read_sample_more extra r r1 f1 :
  type (iF (rd_c r)) = P2 ->
  read_sample r = Done r1 ->
  fStream (iF (rd_c r1)) = Some f1 -> feof f1 = false ->
  read_sample (more_reader extra r) = Done (more_reader extra r1).
Proof.
  intros Ht. unfold read_sample, more_reader. simpl rd_c.
  replace (type (iF (more_input extra (rd_c r)))) with P2
    by (destruct (more_input_frame extra (rd_c r)) as (_ & _ & _ & _ & _ & _ & _ & E & _);
        congruence).
  rewrite Ht. unfold stream_of, more_input.
  destruct (fStream (iF (rd_c r))) as [f|] eqn:Hf; simpl; [|discriminate].
  unfold fscanf. simpl.
  destruct (scan_i (f_in f)) as [v rest| rest |] eqn:Hscan.
  - destruct (in_int v) eqn:Hv; simpl; [|discriminate].
    intros H; inversion H; subst; clear H. simpl.
    intros H; inversion H; subst; clear H. unfold feof, advance. simpl.
    intros He. apply orb_false_iff in He. destruct He as [He1 He2].
    assert (Hr : rest <> "") by (destruct rest; congruence).
    rewrite (scan_i_app _ extra _ _ Hscan Hr). rewrite Hv. simpl.
    unfold advance. simpl. rewrite He1.
    destruct rest as [|ch rest]; [congruence|]. reflexivity.
  - simpl. discriminate.
  - simpl. intros H; inversion H; subst; clear H. simpl.
    intros H; inversion H; subst; clear H. unfold feof, advance. simpl.
    rewrite orb_true_r. discriminate.
Qed.

Lemma read_cell_more extra row column r r' :
  type (iF (rd_c r)) = P2 ->
  read_cell row column r = Done (Next r') ->
  read_cell row column (more_reader extra r) = Done (Next (more_reader extra r')).
Proof.
  intros Ht. unfold read_cell.
  destruct (read_sample r) as [r1| |] eqn:Hs; simpl; try discriminate.
  unfold stream_of at 1. destruct (fStream (iF (rd_c r1))) as [f1|] eqn:Hf1; simpl; [|discriminate].
  destruct (feof f1) eqn:He; [discriminate|].
  rewrite (read_sample_more extra _ _ _ Ht Hs Hf1 He). simpl.
  unfold stream_of, more_input. rewrite Hf1. simpl.
  unfold feof in He |- *. simpl. rewrite He.
  unfold to_int. destruct (in_int (rd_dataCount r1 + 1)); simpl; [|discriminate].
  destruct ((rd_data r1 >? maxDataValue (iF (rd_c r1))) || (rd_data r1 <? 0));
    [discriminate|].
  unfold store. destruct (in_array row column); simpl; [|discriminate].
  intros H; inversion H; subst; clear H.
  unfold more_reader. simpl. rewrite more_input_set_data.
  unfold more_input. rewrite Hf1. simpl. rewrite ?He. reflexivity.
Qed.

Lemma read_columns_more extra todo : forall row col0 r r',
  type (iF (rd_c r)) = P2 ->
  read_columns todo row col0 r = Done r' ->
  rd_dataCount r' = rd_dataCount r + Z.of_nat todo ->
  read_columns todo row col0 (more_reader extra r) = Done (more_reader extra r').
Proof.
  induction todo as [|todo IH]; intros row col0 r r' Ht; simpl.
  - intros H _; inversion H; subst. reflexivity.
  - destruct (read_cell row col0 r) as [fl| |] eqn:Hcell; simpl; try discriminate.
    pose proof (read_cell_Done _ _ _ _ Hcell) as Hfl.
    destruct fl as [r1|r1].
    + destruct Hfl as (Hf & _ & Hc & _).
      intros H Hn. rewrite (read_cell_more extra _ _ _ _ Ht Hcell). simpl.
      apply IH; [|exact H|lia].
      destruct Hf as (_ & _ & _ & _ & _ & _ & _ & E & _). congruence.
    + destruct Hfl as (_ & _ & Hc).
      intros H Hn; inversion H; subst. lia.
Qed.

Lemma read_rows_more extra todo : forall row0 r r',
  type (iF (rd_c r)) = P2 ->
  read_rows todo row0 r = Done r' ->
  rd_dataCount r' =
    rd_dataCount r + Z.of_nat todo * Z.of_nat (Z.to_nat (width (iF (rd_c r)))) ->
  read_rows todo row0 (more_reader extra r) = Done (more_reader extra r').
Proof.
  induction todo as [|todo IH]; intros row0 r r' Ht; simpl.
  - intros H _; inversion H; subst. reflexivity.
  - destruct (read_columns _ row0 0 r) as [r1| |] eqn:Hcols; simpl; try discriminate.
    destruct (read_columns_Done _ _ _ _ _ Hcols) as (k & Hk & Hc & Hf & _).
    intros H Hn.
    destruct (read_rows_Done _ _ _ _ H) as (_ & Hle & _). simpl in Hle.
    assert (Hw : width (iF (rd_c r1)) = width (iF (rd_c r)))
      by (destruct Hf as (_ & _ & _ & _ & Hw & _); exact Hw).
    assert (Ht1 : type (iF (rd_c r1)) = P2)
      by (destruct Hf as (_ & _ & _ & _ & _ & _ & _ & E & _); congruence).
    rewrite Hw in Hle.
    replace (width (iF (more_input extra (rd_c r)))) with (width (iF (rd_c r)))
      by (destruct (more_input_frame extra (rd_c r)) as (_ & _ & _ & _ & E & _);
          congruence).
    rewrite (read_columns_more extra _ _ _ _ _ Ht Hcols) by nia. simpl.
    apply IH; [exact Ht1|exact H|rewrite Hw; nia].
Qed.

Lemma read_rows_count todo : forall row0 r r',
  read_rows todo row0 r = Done r' -> rd_dataCount r <= rd_dataCount r'.
Proof.
  induction todo as [|todo IH]; intros row0 r r'; simpl.
  - intros H; inversion H; subst. lia.
  - destruct (read_columns _ row0 0 r) as [r1| |] eqn:Hcols; simpl; try discriminate.
    destruct (read_columns_Done _ _ _ _ _ Hcols) as (k & _ & Hc & _).
    intros H. specialize (IH _ _ _ H). lia.
Qed.

(** Once the loops have counted width x height samples, a P2 decode
    succeeds whatever is left in the stream, and a P5 decode fails when
    a byte is left. *)
Lemma TryReadPgmData_after_loops c r' :
  read_rows (Z.to_nat (height (iF c))) 0 (mkReader c 0 0) = Done r' ->
  rd_dataCount r' = width (iF c) * height (iF c) ->
  in_int (width (iF c) * height (iF c)) = true ->
  (type (iF c) = P2 -> TryReadPgmData c = Done (rd_c r')) /\
  (type (iF c) = P5 ->
   forall f, fStream (iF (rd_c r')) = Some f -> f_in f <> "" ->
             failure (TryReadPgmData c) = Some corrupted).
Proof.
  intros Hrows Hn Hint.
  destruct (read_rows_Done _ _ _ _ Hrows) as (Hf & _). simpl in Hf.
  destruct Hf as (_ & _ & _ & _ & Hw & Hh & _ & Ht & _).
  unfold TryReadPgmData. rewrite Hrows. cbn [bind]. split.
  - intros Hp2. replace (PgmType_eqb (type (iF (rd_c r'))) P5) with false
      by (rewrite Ht, Hp2; reflexivity).
    cbn [bind]. rewrite Hw, Hh. unfold to_int. rewrite Hint. cbn [bind].
    rewrite Hn, Z.eqb_refl. reflexivity.
  - intros Hp5 f Hs Hin.
    replace (PgmType_eqb (type (iF (rd_c r'))) P5) with true
      by (rewrite Ht, Hp5; reflexivity).
    unfold stream_of. rewrite Hs. cbn [bind]. unfold fgetc.
    destruct (f_in f) as [|ch s]; [congruence|].
    replace (negb (code ch =? EOF)) with true; [reflexivity|].
    symmetry. apply negb_true_iff, Z.eqb_neq. unfold code, EOF. lia.
Qed.

(** Once the loops of [TryReadPgmData] have counted width x height
    samples, a P2 decode succeeds whatever the stream still holds, where
    a P5 decode fails if a byte is left.  So when [TryReadPgmData]
    succeeds on a P2 stream, it succeeds as well, with the same raster,
    on that stream followed by any further bytes; on a P5 stream it
    succeeds only with no byte left after the last sample. *)
Lemma TryReadPgmData_more_input (c c' : PgmConverter) (extra : string) :
  type (iF c) = P2 ->
  TryReadPgmData c = Done c' ->
  TryReadPgmData (more_input extra c) = Done (more_input extra c') /\
  data (more_input extra c') = data c' /\
  (forall b r,
      read_rows (Z.to_nat (height (iF b))) 0 (mkReader b 0 0) = Done r ->
      rd_dataCount r = width (iF b) * height (iF b) ->
      in_int (width (iF b) * height (iF b)) = true ->
      (type (iF b) = P2 -> TryReadPgmData b = Done (rd_c r)) /\
      (type (iF b) = P5 ->
       forall f, fStream (iF (rd_c r)) = Some f -> f_in f <> "" ->
                 failure (TryReadPgmData b) = Some corrupted)) /\
  (forall b b' f',
      type (iF b) = P5 -> TryReadPgmData b = Done b' ->
      fStream (iF b') = Some f' -> f_in f' = "").
Proof.
  intros Ht H. split; [|split; [|split]].
  - destruct (TryReadPgmData_Done _ _ H) as (r' & Hrows & Hf & _ & Hn & _ & Hc').
    assert (Hne : type (iF c) <> P5) by congruence.
    specialize (Hc' Hne). subst c'.
    destruct (read_rows_Done _ _ _ _ Hrows) as (_ & Hle & _). simpl in Hle.
    assert (Hcount : rd_dataCount r' =
                     0 + Z.of_nat (Z.to_nat (height (iF c))) *
                         Z.of_nat (Z.to_nat (width (iF c)))).
    { pose proof (read_rows_count _ _ _ _ Hrows) as Hge. simpl in Hn, Hge.
      destruct (Z_lt_le_dec (height (iF c)) 0), (Z_lt_le_dec (width (iF c)) 0);
        rewrite ?Z2Nat.id by lia;
        rewrite ?(Z2Nat.inj_neg (height (iF c))) in * by lia;
        rewrite ?(Z2Nat.inj_neg (width (iF c))) in * by lia; simpl in *; nia. }
    pose proof (read_rows_more extra _ 0 (mkReader c 0 0) r' Ht Hrows Hcount) as Hmore.
    destruct (more_input_frame extra c) as (_ & _ & _ & _ & Hw & Hh & _ & Ht1 & _).
    unfold TryReadPgmData in H. rewrite Hrows in H. cbn [bind] in H.
    destruct Hf as (_ & _ & _ & _ & Hw2 & Hh2 & _ & Ht2 & _).
    replace (PgmType_eqb (type (iF (rd_c r'))) P5) with false in H
      by (rewrite Ht2, Ht; reflexivity).
    cbn [bind] in H. rewrite Hw2, Hh2 in H.
    unfold to_int in H. destruct (in_int (width (iF c) * height (iF c))) eqn:Hint;
      [|discriminate].
    apply (TryReadPgmData_after_loops (more_input extra c) (more_reader extra r')).
    + rewrite Hh. exact Hmore.
    + rewrite Hw, Hh. exact Hn.
    + rewrite Hw, Hh. exact Hint.
    + congruence.
  - apply data_more_input.
  - intros b r. apply TryReadPgmData_after_loops.
  - intros b b' f' Hb Hd Hs.
    destruct (TryReadPgmData_Done _ _ Hd) as (_ & _ & _ & _ & _ & Hp5 & _).
    destruct (Hp5 Hb) as (f & Hf & Hin). congruence.
Qed.

(** Bytes after the last sample: accepted in a P2 file, refused in a P5
    file. *)
Example trailing_bytes :
  (exists c, DecodePgm (opened (square_pgm ++ "and more")
                               (cmd_P2toP5 "in.pgm" "out.pgm")) = Done c) /\
  (exists c, DecodePgm (opened (pgm_header "P5" 1 2 255 ++ "AB")
                               (cmd_P5toP2 "in.pgm" "out.pgm")) = Done c) /\
  failure (DecodePgm (opened (pgm_header "P5" 1 2 255 ++ "ABC")
                             (cmd_P5toP2 "in.pgm" "out.pgm"))) = Some corrupted.
Proof. evaluate. Qed.

(** ** The size of a scaled output *)

Lemma scanf_never_Failed {S : Type} fmt : forall len s conv count args msg (st : S),
  scanf fmt len s conv count args <> Failed msg st.
Proof.
  induction fmt as [|d fmt IH]; intros len s conv count args msg st; simpl;
    [discriminate|].
  destruct d; try apply IH.
  - destruct s as [|ch s]; [discriminate|]. destruct (Ascii.eqb c ch); [apply IH|discriminate].
  - destruct (scan_s s); try discriminate.
    destruct (_ <? _)%nat; [apply IH|discriminate].
  - destruct (scan_not_nl s); try discriminate. apply IH.
  - destruct (scan_i s); try discriminate.
    destruct (in_int a); [apply IH|discriminate].
  - destruct (scan_lf s); try discriminate. apply IH.
Qed.

Lemma sscanf_never_Failed {S : Type} str fmt msg (st : S) :
  sscanf str fmt <> Failed msg st.
Proof.
  unfold sscanf. pose proof (@scanf_never_Failed S fmt (String.length str) str false 0 nil) as H.
  destruct (scanf fmt _ str false 0 nil); simpl; try discriminate.
  exfalso. eapply H. reflexivity.
Qed.

Ltac step_sscanf :=
  match goal with
  | |- context [bind (sscanf ?s ?f) _] =>
      let H := fresh in
      destruct (sscanf s f) as [[? ?] | ? ? | ?] eqn:H; simpl;
      [| exfalso; exact (sscanf_never_Failed _ _ _ _ H) |]
  | |- context [if ?b then _ else _] => destruct b; simpl
  end.

Lemma scan_scale_state c c0 a :
  scan_scale c a =
  match scan_scale c0 a with
  | Done a' => Done a'
  | Failed msg _ => Failed msg c
  | Undefined why => Undefined why
  end.
Proof. unfold scan_scale. repeat step_sscanf; reflexivity. Qed.

Lemma TryParseScalar_set_oF p c :
  TryParseScalar (set_oF p c) = on_state (set_oF p) (TryParseScalar c).
Proof.
  unfold TryParseScalar, scale_args. simpl.
  destruct (sArgs c) as [a|]; simpl; [|reflexivity].
  set (a0 := set_isEnlarge _ a).
  rewrite (scan_scale_state (set_sArgs a0 (set_oF p c)) (set_sArgs a0 c) a0).
  pose proof (scan_scale_state (set_sArgs a0 c) (set_sArgs a0 c) a0) as E.
  destruct (scan_scale (set_sArgs a0 c) a0) as [a'|msg s|why]; simpl.
  - clear E. destruct (scaleType a');
      repeat match goal with
             | |- context [if ?b then _ else _] => destruct b
             end; reflexivity.
  - assert (Es : s = set_sArgs a0 c) by congruence. rewrite Es. reflexivity.
  - reflexivity.
Qed.

Lemma TryParseScalar_frame c c1 :
  TryParseScalar c = Done c1 -> iF c1 = iF c /\ oF c1 = oF c.
Proof.
  unfold TryParseScalar, scale_args.
  destruct (sArgs c) as [a|]; simpl; [|discriminate].
  destruct (scan_scale _ _) as [a'| |]; simpl; try discriminate.
  destruct (scaleType a');
    repeat match goal with
           | |- context [if ?b then _ else _] => destruct b
           end; intros H; inversion H; subst; auto.
Qed.

Lemma TryOpenStreams_Done fs c c' :
  TryOpenStreams fs c = Done c' ->
  output c' = "" /\ fStream (iF c') <> None /\ fStream (oF c') <> None.
Proof.
  unfold TryOpenStreams. destruct (fs (fName (iF c))); [|discriminate].
  intros H; inversion H; subst. unfold output; simpl. repeat split; discriminate.
Qed.

(** The two files apart, the input stream holds the input file; the
    output file being the input file, it holds nothing. *)
Lemma TryOpenStreams_opened fs c content :
  fs (fName (iF c)) = Some content ->
  TryOpenStreams fs c
    = Done (opened (if String.eqb (fName (oF c)) (fName (iF c)) then "" else content) c).
Proof. intros H. unfold TryOpenStreams. rewrite H. reflexivity. Qed.


Lemma TryReadPgmInfo_Done c c' :
  TryReadPgmInfo c = Done c' -> oF c' = oF c /\ fStream (iF c') <> None.
Proof.
  unfold TryReadPgmInfo, stream_of.
  destruct (fStream (iF c)) as [f|]; cbn [bind]; [|discriminate].
  destruct (fscanf f header_format) as [[[ret args] f']| |]; cbn [bind];
    try discriminate.
  cbv beta iota zeta.
  destruct (negb (4 =? ret)); [discriminate|].
  set (c1 := set_iF _ c).
  assert (H1 : oF c1 = oF c /\ fStream (iF c1) <> None)
    by (subst c1; simpl; split; [reflexivity|discriminate]).
  clearbody c1.
  match goal with
  | |- context [if ?b then ?x else c1] => set (c2 := if b then x else c1)
  end.
  assert (H2 : oF c2 = oF c /\ fStream (iF c2) <> None).
  { subst c2. destruct (_ && _); [|exact H1]. simpl.
    destruct H1 as [Ho Hs]. split; [exact Ho|]. destruct c1 as [[]]; exact Hs. }
  clearbody c2.
  destruct (negb _).
  - destruct (PgmTypeToStr _); discriminate.
  - intros H; inversion H; subst. exact H2.
Qed.

Lemma DecodePgm_Done c c' :
  DecodePgm c = Done c' -> oF c' = oF c /\ fStream (iF c') <> None.
Proof.
  unfold DecodePgm. destruct (TryReadPgmInfo c) as [c1| |] eqn:Hi; simpl; try discriminate.
  intros Hd. destruct (TryReadPgmInfo_Done _ _ Hi) as [Ho Hs].
  destruct (TryReadPgmData_Done _ _ Hd) as (_ & _ & Hf & _).
  destruct Hf as (Ho' & _ & _ & _ & _ & _ & _ & _ & Hs').
  split; [congruence|auto].
Qed.

Lemma TrySetPgmInfo_scale (c c1 : PgmConverter) (a : ScaleArgs) (w h : Z) :
  isScale (cArgs c) = true -> isSwapWidthHeight (cArgs c) = false ->
  TryParseScalar c = Done c1 -> sArgs c1 = Some a ->
  (int_of_double (double_of_int (height (iF c)) * hScale a) : result Z) = Done h ->
  (int_of_double (double_of_int (width (iF c)) * wScale a) : result Z) = Done w ->
  exists c',
    TrySetPgmInfo c =
      (if (w >? 1920) || (h >? 1080) then Failed too_large c' else Done c') /\
    width (oF c') = w /\ height (oF c') = h /\
    fStream (oF c') = fStream (oF c) /\ fStream (iF c') = fStream (iF c).
Proof.
  intros Hscale Hswap Hparse Ha Hh Hw.
  destruct (TryParseScalar_frame _ _ Hparse) as [HiF HoF].
  set (p := set_maxDataValue (maxDataValue (iF c))
              (set_height (height (iF c))
                 (set_width (width (iF c))
                    (set_type (match type (oF c) with
                               | UNKNOWN => type (iF c)
                               | t => t
                               end) (oF c))))).
  assert (E : TrySetPgmInfo c =
              (do c2 <- TryParseScalar (set_oF p c);
               do a <- scale_args c2;
               do h <- int_of_double (double_of_int (height (oF c2)) * hScale a);
               do w <- int_of_double (double_of_int (width (oF c2)) * wScale a);
               let c4 := set_oF (set_width w (set_height h (oF c2))) c2 in
               if (w >? 1920) || (h >? 1080) then Failed too_large c4 else Done c4)).
  { unfold TrySetPgmInfo. cbv zeta. cbn [cArgs set_oF].
    rewrite Hswap. cbn [cArgs set_oF]. rewrite Hscale. reflexivity. }
  rewrite E, TryParseScalar_set_oF, Hparse.
  cbn [on_state bind]. unfold scale_args. cbn [sArgs set_oF]. rewrite Ha.
  cbn [bind oF set_oF]. subst p. cbn [height width set_maxDataValue set_height set_width].
  rewrite Hh. cbn [bind]. rewrite Hw. cbn [bind].
  eexists. split; [reflexivity|]. simpl. rewrite HiF. auto.
Qed.

(** C6, amended.  In a scale conversion whose input was decoded and
    whose scale text was parsed, the output height and width are the
    products of the input height and width by their factors, truncated to
    integers.  If the truncated width exceeds 1920 or the truncated
    height exceeds 1080, [TrySetPgmInfo] fails with the output too large
    message and so does the run, with not one byte in the output file. *)
Theorem scaled_output_size (fs : string -> option string)
    (c0 c c1 : PgmConverter) (a : ScaleArgs) (w h : Z) :
  (do o <- TryOpenStreams fs c0; DecodePgm o) = Done c ->
  isScale (cArgs c) = true -> isSwapWidthHeight (cArgs c) = false ->
  TryParseScalar c = Done c1 -> sArgs c1 = Some a ->
  (int_of_double (double_of_int (height (iF c)) * hScale a) : result Z) = Done h ->
  (int_of_double (double_of_int (width (iF c)) * wScale a) : result Z) = Done w ->
  exists c',
    width (oF c') = w /\ height (oF c') = h /\
    if (w >? 1920) || (h >? 1080)
    then TrySetPgmInfo c = Failed too_large c' /\
         TryConvertPgm fs c0 = Failed too_large c' /\ output c' = ""
    else TrySetPgmInfo c = Done c'.
Proof.
  intros Hrun Hscale Hswap Hparse Ha Hh Hw.
  destruct (TrySetPgmInfo_scale c c1 a w h Hscale Hswap Hparse Ha Hh Hw)
    as (c' & Hset & Hw' & Hh' & Ho & Hi).
  exists c'. split; [exact Hw'|]. split; [exact Hh'|].
  destruct ((w >? 1920) || (h >? 1080)); [|exact Hset].
  split; [exact Hset|].
  unfold TryConvertPgm.
  destruct (TryOpenStreams fs c0) as [co| |] eqn:Hopen; simpl in Hrun; try discriminate.
  destruct (TryOpenStreams_Done _ _ _ Hopen) as (Hout & Hin & Hof).
  destruct (DecodePgm_Done _ _ Hrun) as [HoF HiF].
  unfold DecodePgm in Hrun. cbn [bind].
  destruct (TryReadPgmInfo co) as [ci| |]; simpl in Hrun; try discriminate.
  cbn [bind]. rewrite Hrun. cbn [bind]. rewrite Hset.
  assert (Hout' : output c' = "").
  { unfold output in *. rewrite Ho, HoF. exact Hout. }
  split; [|exact Hout'].
  unfold CloseStreams. rewrite Hi, Ho, HoF.
  destruct (fStream (iF c)); [|congruence].
  destruct (fStream (oF co)); [reflexivity|congruence].
Qed.

Lemma scaled_output_size_witness :
  exists c',
    width (oF c') = 3 /\ height (oF c') = 3 /\
    TrySetPgmInfo square_decoded = Done c'.
Proof.
  apply (scaled_output_size (one_file square_pgm)
           (cmd_scaleNn "3/2" "in.pgm" "out.pgm") square_decoded square_parsed
           (mkScaleArgs "3/2" NEAREST_NEIGHBOR true 1.5 1.5) 3 3);
    vm_compute; reflexivity.
Defined.

(** C6 as stated fails: the input is 2 columns wide and the width factor
    960.25, so their product 1920.5 exceeds 1920; the run succeeds, with
    an output 1920 columns wide. *)
Lemma scale_cap_counterexample :
  exists c a,
    TryConvertPgm (one_file square_pgm)
                  (cmd_scaleNn "960.25x1" "in.pgm" "out.pgm") = Done c /\
    sArgs c = Some a /\ wScale a = 960.25%float /\ width (iF c) = 2 /\
    (double_of_int 1920 <? double_of_int (width (iF c)) * wScale a)%float = true /\
    width (oF c) = 1920.
Proof. evaluate. Qed.

(** ** Loops bounded by a double *)

Lemma walk_add {St Out : Type} (step : St -> result (St + Out)) a : forall b st,
  walk (a + b) step st =
  match walk a step st with
  | Some mid => walk b step mid
  | None => None
  end.
Proof.
  induction a as [|a IH]; intros b st; simpl; [reflexivity|].
  destruct (step st) as [[st'|out]| |]; try reflexivity. apply IH.
Qed.

Lemma pow2_nat f : Z.to_nat (2 ^ Z.of_nat (S f)) =
                   (Z.to_nat (2 ^ Z.of_nat f) + Z.to_nat (2 ^ Z.of_nat f))%nat.
Proof.
  rewrite Nat2Z.inj_succ, Z.pow_succ_r by lia.
  assert (0 < 2 ^ Z.of_nat f) by (apply Z.pow_pos_nonneg; lia). lia.
Qed.

Lemma iterate_walk {St Out : Type} (step : St -> result (St + Out)) f : forall st st',
  walk (Z.to_nat (2 ^ Z.of_nat f)) step st = Some st' ->
  iterate f step st = Done (inl st').
Proof.
  induction f as [|f IH]; intros st st'.
  - change (Z.to_nat (2 ^ Z.of_nat 0)) with 1%nat. simpl.
    destruct (step st) as [[st1|out]| |]; try discriminate.
    intros H; inversion H; reflexivity.
  - rewrite pow2_nat, walk_add.
    destruct (walk _ step st) as [mid|] eqn:Hmid; [|discriminate].
    intros H. simpl. rewrite (IH _ _ Hmid). simpl. apply IH. exact H.
Qed.

Lemma iterate_stop {St Out : Type} (step : St -> result (St + Out)) f :
  forall k st st' out,
    walk k step st = Some st' -> step st' = Done (inr out) ->
    Z.of_nat k < 2 ^ Z.of_nat f ->
    iterate f step st = Done (inr out).
Proof.
  induction f as [|f IH]; intros k st st' out Hwalk Hstop Hk.
  - change (2 ^ Z.of_nat 0) with 1 in Hk.
    destruct k; [|lia]. simpl in Hwalk. inversion Hwalk; subst. exact Hstop.
  - simpl. destruct (Z_lt_le_dec (Z.of_nat k) (2 ^ Z.of_nat f)) as [Hlt|Hge].
    + rewrite (IH _ _ _ _ Hwalk Hstop Hlt). reflexivity.
    + assert (Hpos : 0 < 2 ^ Z.of_nat f) by (apply Z.pow_pos_nonneg; lia).
      replace k with (Z.to_nat (2 ^ Z.of_nat f) + (k - Z.to_nat (2 ^ Z.of_nat f)))%nat
        in Hwalk by lia.
      rewrite walk_add in Hwalk.
      destruct (walk (Z.to_nat (2 ^ Z.of_nat f)) step st) as [mid|] eqn:Hmid;
        [|discriminate].
      rewrite (iterate_walk _ _ _ _ Hmid). simpl.
      apply (IH _ _ _ _ Hwalk Hstop).
      rewrite Nat2Z.inj_succ, Z.pow_succ_r in Hk by lia. lia.
Qed.

Lemma for_below_turns {A : Type} bound (body : Z -> A -> result A)
    (n : nat) (accs : nat -> A) :
  (forall i : nat, (i < n)%nat ->
     (double_of_int (Z.of_nat i) <? bound)%float = true /\
     body (Z.of_nat i) (accs i) = Done (accs (S i))) ->
  (double_of_int (Z.of_nat n) <? bound)%float = false ->
  Z.of_nat n <= INT_MAX ->
  for_below bound body (accs O) = Done (accs n).
Proof.
  intros Hturn Hend Hn.
  assert (Hwalk : forall k i, (i + k <= n)%nat ->
            walk k (for_step bound body) (Z.of_nat i, accs i)
            = Some (Z.of_nat (i + k), accs (i + k)%nat)).
  { induction k as [|k IH]; intros i Hi.
    - rewrite Nat.add_0_r. reflexivity.
    - simpl. destruct (Hturn i) as [Ht Hb]; [lia|]. rewrite Ht, Hb. simpl.
      unfold to_int. replace (in_int (Z.of_nat i + 1)) with true.
      + simpl. replace (Z.of_nat i + 1) with (Z.of_nat (S i)) by lia.
        rewrite IH by lia. replace (i + S k)%nat with (S i + k)%nat by lia. reflexivity.
      + symmetry. unfold in_int, INT_MIN, INT_MAX in *.
        apply andb_true_iff. rewrite !Z.leb_le. lia. }
  unfold for_below.
  rewrite (iterate_stop _ 32 n (0, accs O) (Z.of_nat n, accs n) (accs n)).
  - reflexivity.
  - exact (Hwalk n O ltac:(lia)).
  - simpl. rewrite Hend. reflexivity.
  - unfold INT_MAX in Hn. change (2 ^ Z.of_nat 32) with 4294967296. lia.
Qed.

(** ** The box filter *)

Lemma sum_firstn_S (f : Z -> Z) (l : list Z) (j : nat) :
  (j < length l)%nat ->
  fold_right Z.add 0 (map f (firstn (S j) l)) =
  fold_right Z.add 0 (map f (firstn j l)) + f (nth j l 0).
Proof.
  revert j. induction l as [|x l IH]; intros j Hj; simpl in Hj; [lia|].
  destruct j as [|j]; simpl; [lia|].
  specialize (IH j ltac:(lia)). simpl in IH. lia.
Qed.

Lemma sum_firstn_bounds (f : Z -> Z) (l : list Z) (B : Z) (j : nat) :
  0 <= B -> (forall x, In x l -> 0 <= f x <= B) ->
  0 <= fold_right Z.add 0 (map f (firstn j l)) <= Z.of_nat j * B.
Proof.
  intros HB. revert j. induction l as [|x l IH]; intros j Hl.
  - rewrite firstn_nil. simpl. nia.
  - destruct j as [|j]; simpl; [lia|].
    assert (Hx : 0 <= f x <= B) by (apply Hl; left; reflexivity).
    specialize (IH j (fun y Hy => Hl y (or_intror Hy))). nia.
Qed.

Lemma box_row c a row col rs r cols d cnt B :
  visits (dbl_1 / wScale a) (double_of_int col / wScale a) cols ->
  (int_of_double (double_of_int row / hScale a + double_of_int rs) : result Z)
    = Done r ->
  0 <= B ->
  (forall k, In k cols ->
     in_array r k = true /\ 0 <= default 0 (data c !! (r, k)) <= B) ->
  0 <= d -> d + Z.of_nat (length cols) * B <= INT_MAX ->
  0 <= cnt -> cnt + Z.of_nat (length cols) <= INT_MAX ->
  for_below (dbl_1 / wScale a) (box_cell c a row col rs) (d, cnt)
    = Done (d + row_sum c r cols, cnt + Z.of_nat (length cols)).
Proof.
  intros [Hturn Hend] Hr HB Hcells Hd Hdmax Hcnt Hcmax.
  set (f := fun k => default 0 (data c !! (r, k))).
  set (accs := fun j : nat =>
                 (d + fold_right Z.add 0 (map f (firstn j cols)), cnt + Z.of_nat j)).
  replace (d, cnt) with (accs O) by (unfold accs; simpl; f_equal; lia).
  replace (d + row_sum c r cols, cnt + Z.of_nat (length cols))
    with (accs (length cols))
    by (unfold accs, row_sum; rewrite firstn_all; reflexivity).
  apply for_below_turns; [|exact Hend|unfold INT_MAX in *; lia].
  intros j Hj. destruct (Hturn j Hj) as [Ht Hk]. split; [exact Ht|].
  unfold accs, box_cell. rewrite Hr. cbn [bind]. rewrite Hk. cbn [bind].
  assert (Hin : In (nth j cols 0) cols) by (apply nth_In; exact Hj).
  destruct (Hcells _ Hin) as [Harr Hv].
  unfold load. rewrite Harr. cbn [bind].
  pose proof (sum_firstn_bounds f cols B j HB (fun x Hx => proj2 (Hcells x Hx))) as Hs.
  fold (f (nth j cols 0)) in Hv |- *.
  unfold to_int.
  replace (in_int (d + fold_right Z.add 0 (map f (firstn j cols)) + f (nth j cols 0)))
    with true
    by (symmetry; unfold in_int, INT_MIN, INT_MAX in *;
        apply andb_true_iff; rewrite !Z.leb_le; nia).
  cbn [bind].
  replace (in_int (cnt + Z.of_nat j + 1)) with true
    by (symmetry; unfold in_int, INT_MIN, INT_MAX in *;
        apply andb_true_iff; rewrite !Z.leb_le; lia).
  cbn [bind]. rewrite sum_firstn_S by exact Hj.
  f_equal. f_equal; lia.
Qed.

Lemma row_sum_bounds c r cols B :
  0 <= B -> (forall k, In k cols -> 0 <= default 0 (data c !! (r, k)) <= B) ->
  0 <= row_sum c r cols <= Z.of_nat (length cols) * B.
Proof.
  intros HB H. unfold row_sum.
  rewrite <- (firstn_all cols) at 1 2.
  apply sum_firstn_bounds; assumption.
Qed.

(** Adding the double 0 does not change the integer part. *)
Lemma trunc_add_zero (x : float) : trunc (x + double_of_int 0) = trunc x.
Proof.
  unfold trunc. rewrite add_spec.
  change (Prim2SF (double_of_int 0)) with (S754_zero false).
  destruct (Prim2SF x) as [s|s| |s m e]; try destruct s; reflexivity.
Qed.

Lemma visits_first bound start cells :
  visits bound start cells -> cells <> nil ->
  (int_of_double start : result Z) = Done (hd 0 cells).
Proof.
  intros [Hturn _] Hne. destruct cells as [|z cells]; [congruence|].
  destruct (Hturn O) as [_ H]; [simpl; lia|].
  unfold int_of_double in *. simpl Z.of_nat in H.
  rewrite trunc_add_zero in H. exact H.
Qed.

(** C4, amended.  The loops of [GetScaledDownBoxData] take one turn for
    every integer [rs = 0, 1, ...] below [1 / hScale] and every integer
    [cs = 0, 1, ...] below [1 / wScale], and visit the sample at row
    [(int)(row / hScale + rs)] and column [(int)(col / wScale + cs)]:
    with [rows] and [cols] the rows and columns so visited, inside the
    array and the sum of their samples within an [int], the result is
    the truncated average of the samples at their crossings; the first
    row and column are [(int)(row / hScale)] and [(int)(col / wScale)]. *)
Theorem GetScaledDownBoxData_block (c : PgmConverter) (a : ScaleArgs)
    (row col : Z) (rows cols : list Z) (M : Z) :
  sArgs c = Some a ->
  visits (dbl_1 / hScale a) (double_of_int row / hScale a) rows ->
  visits (dbl_1 / wScale a) (double_of_int col / wScale a) cols ->
  rows <> nil -> cols <> nil ->
  (forall r k, In r rows -> In k cols ->
     in_array r k = true /\ 0 <= default 0 (data c !! (r, k)) <= M) ->
  Z.of_nat (length rows * length cols) * Z.max 1 M <= INT_MAX ->
  GetScaledDownBoxData c row col = Done (block_average c rows cols) /\
  (int_of_double (double_of_int row / hScale a) : result Z) = Done (hd 0 rows) /\
  (int_of_double (double_of_int col / wScale a) : result Z) = Done (hd 0 cols).
Proof.
  intros Ha Hrows Hcols Hr0 Hc0 Hcells Hmax.
  split; [|split; eapply visits_first; eassumption].
  set (B := Z.max 1 M) in *.
  assert (HB : 0 <= B) by lia.
  assert (HB1 : 1 <= B) by lia.
  assert (Hnr : (0 < length rows)%nat) by (destruct rows; [congruence|simpl; lia]).
  assert (Hnc : (0 < length cols)%nat) by (destruct cols; [congruence|simpl; lia]).
  assert (HcellsB : forall r k, In r rows -> In k cols ->
            in_array r k = true /\ 0 <= default 0 (data c !! (r, k)) <= B).
  { intros r k Hr Hk. destruct (Hcells r k Hr Hk) as [H1 H2]. split; [exact H1|lia]. }
  set (g := fun r => row_sum c r cols).
  assert (Hg : forall r, In r rows -> 0 <= g r <= Z.of_nat (length cols) * B).
  { intros r Hr. apply row_sum_bounds; [exact HB|].
    intros k Hk. apply (HcellsB r k Hr Hk). }
  set (accs := fun i : nat =>
                 (fold_right Z.add 0 (map g (firstn i rows)),
                  Z.of_nat i * Z.of_nat (length cols))).
  assert (Hloop :
    for_below (dbl_1 / hScale a)
      (fun rs acc => for_below (dbl_1 / wScale a) (box_cell c a row col rs) acc)
      (accs O) = Done (accs (length rows))).
  { destruct Hrows as [Hturn Hend].
    apply for_below_turns; [|exact Hend|].
    2:{ rewrite Nat2Z.inj_mul in Hmax. unfold INT_MAX in *.
        assert (Z.of_nat (length rows)
                <= Z.of_nat (length rows) * Z.of_nat (length cols)) by nia.
        assert (Z.of_nat (length rows) * Z.of_nat (length cols)
                <= Z.of_nat (length rows) * Z.of_nat (length cols) * B) by nia.
        lia. }
    intros i Hi. destruct (Hturn i Hi) as [Ht Hrow]. split; [exact Ht|].
    unfold accs.
    assert (Hin : In (nth i rows 0) rows) by (apply nth_In; exact Hi).
    pose proof (sum_firstn_bounds g rows (Z.of_nat (length cols) * B) i
                  ltac:(nia) Hg) as Hs.
    rewrite Nat2Z.inj_mul in Hmax. unfold INT_MAX in *.
    assert (H1 : (Z.of_nat i + 1) * Z.of_nat (length cols)
                 <= Z.of_nat (length rows) * Z.of_nat (length cols)) by nia.
    assert (H2 : (Z.of_nat i + 1) * Z.of_nat (length cols) * B
                 <= Z.of_nat (length rows) * Z.of_nat (length cols) * B) by nia.
    assert (H3 : (Z.of_nat i + 1) * Z.of_nat (length cols)
                 <= (Z.of_nat i + 1) * Z.of_nat (length cols) * B) by nia.
    rewrite (box_row c a row col (Z.of_nat i) (nth i rows 0) cols _ _ B Hcols Hrow HB).
    - rewrite sum_firstn_S by exact Hi. fold (g (nth i rows 0)).
      f_equal. f_equal. lia.
    - intros k Hk. apply (HcellsB _ k Hin Hk).
    - lia.
    - unfold INT_MAX. nia.
    - nia.
    - unfold INT_MAX. nia. }
  unfold GetScaledDownBoxData, scale_args. rewrite Ha. cbn [bind].
  change (0, 0) with (accs O). rewrite Hloop. cbn [bind]. unfold accs.
  rewrite firstn_all.
  replace (Z.of_nat (length rows) * Z.of_nat (length cols) =? 0) with false
    by (symmetry; apply Z.eqb_neq; nia).
  unfold block_average, block_sum. fold g. rewrite Nat2Z.inj_mul.
  pose proof (sum_firstn_bounds g rows (Z.of_nat (length cols) * B) (length rows)
                ltac:(nia) Hg) as Hs.
  rewrite firstn_all in Hs.
  set (total := fold_right Z.add 0 (map g rows)) in *.
  set (n := Z.of_nat (length rows) * Z.of_nat (length cols)).
  assert (Hn : 0 < n) by (unfold n; nia).
  unfold to_int.
  replace (in_int (total ÷ n)) with true; [reflexivity|].
  symmetry. unfold in_int, INT_MIN, INT_MAX in *.
  apply andb_true_iff. rewrite !Z.leb_le.
  pose proof (Z.quot_pos total n ltac:(lia) Hn).
  assert (total ÷ n <= total) by (apply Z.quot_le_upper_bound; nia).
  rewrite Nat2Z.inj_mul in Hmax. nia.
Qed.

Lemma GetScaledDownBoxData_block_witness :
  GetScaledDownBoxData distinct_scaled 0 0
    = Done (block_average distinct_scaled (0 :: 1 :: nil) (0 :: 1 :: nil)) /\
  (int_of_double (double_of_int 0 / 0.75) : result Z) = Done 0 /\
  (int_of_double (double_of_int 0 / 0.75) : result Z) = Done 0.
Proof.
  apply (GetScaledDownBoxData_block distinct_scaled
           (mkScaleArgs "3/4" BILINEAR true 0.75 0.75) 0 0
           (0 :: 1 :: nil) (0 :: 1 :: nil) 255).
  - vm_compute; reflexivity.
  - split; [|vm_compute; reflexivity].
    intros [|[|i]] Hi; [vm_compute; split; reflexivity ..|simpl in Hi; lia].
  - split; [|vm_compute; reflexivity].
    intros [|[|i]] Hi; [vm_compute; split; reflexivity ..|simpl in Hi; lia].
  - discriminate.
  - discriminate.
  - intros r k [<-|[<-|[]]] [<-|[<-|[]]]; vm_compute; repeat split; discriminate.
  - vm_compute. discriminate.
Defined.

(** C4 as stated fails: with both factors 3/4, floor(1/0.75) is 1 and
    the block of the spec at output cell (0, 0) is the one sample 10;
    the code averages the four samples 10, 20, 50 and 60. *)
Lemma box_counterexample :
  exists c a,
    (do c <- DecodePgm (opened distinct_pgm (cmd_scaleBl "3/4" "in.pgm" "out.pgm"));
     TrySetPgmInfo c) = Done c /\
    sArgs c = Some a /\ hScale a = 0.75%float /\ wScale a = 0.75%float /\
    getData (cArgs c) = Some fn_GetScaledDownBoxData /\
    box_as_stated c a 0 0 = Some 10 /\
    GetScaledDownBoxData c 0 0 = Done 35.
Proof. evaluate. Qed.

(** The average at (0, 0) is that of the four samples 10, 20, 50, 60. *)
Example box_three_quarters :
  block_average distinct_scaled (0 :: 1 :: nil) (0 :: 1 :: nil) = 35 /\
  trunc (dbl_1 / 0.75) = Some 1.
Proof. evaluate. Qed.


(** With both factors 1/2 the two readings agree: each cell of the 2 x 2
    output is the truncated average of its 2 x 2 block of the source. *)
Example box_half :
  exists c a,
    (do c <- DecodePgm (opened distinct_pgm (cmd_scaleBl "1/2" "in.pgm" "out.pgm"));
     TrySetPgmInfo c) = Done c /\
    sArgs c = Some a /\ width (oF c) = 2 /\ height (oF c) = 2 /\
    getData (cArgs c) = Some fn_GetScaledDownBoxData /\
    GetScaledDownBoxData c 0 0 = Done 35 /\ box_as_stated c a 0 0 = Some 35 /\
    GetScaledDownBoxData c 0 1 = Done 55 /\ box_as_stated c a 0 1 = Some 55 /\
    GetScaledDownBoxData c 1 0 = Done 115 /\ box_as_stated c a 1 0 = Some 115 /\
    GetScaledDownBoxData c 1 1 = Done 135 /\ box_as_stated c a 1 1 = Some 135.
Proof. evaluate. Qed.

(** ** What [%i] reads of what [%i] wrote *)

Lemma uint_value_acc d : forall acc : positive,
  uint_value d (Z.pos acc) = Z.pos (Pos.of_uint_acc d acc).
Proof.
  induction d; intros acc; simpl; try reflexivity;
    match goal with
    | |- uint_value _ ?z = _ =>
        match goal with
        | |- _ = Z.pos (Pos.of_uint_acc _ ?p) =>
            replace z with (Z.pos p) by lia; apply IHd
        end
    end.
Qed.

Lemma uint_value_of_uint d : uint_value d 0 = Z.of_N (Pos.of_uint d).
Proof.
  induction d; simpl; try reflexivity; try exact IHd;
    match goal with
    | |- uint_value _ ?z = _ => apply (uint_value_acc d)
    end.
Qed.

Lemma uint_value_to_uint p : uint_value (Pos.to_uint p) 0 = Z.pos p.
Proof. rewrite uint_value_of_uint, DecimalPos.Unsigned.of_to. reflexivity. Qed.

Lemma nzhead_no_zero d d' : Decimal.nzhead d <> Decimal.D0 d'.
Proof. induction d; simpl; congruence. Qed.

Lemma to_uint_no_zero p d : Pos.to_uint p <> Decimal.D0 d.
Proof.
  intros H.
  pose proof (DecimalPos.Unsigned.to_of (Pos.to_uint p)) as E.
  rewrite DecimalPos.Unsigned.of_to in E. simpl in E.
  rewrite H in E at 1. rewrite H in E. unfold Decimal.unorm in E. simpl in E.
  destruct (Decimal.nzhead d) eqn:Hn; try discriminate.
  - inversion E; subst. apply (DecimalPos.Unsigned.to_uint_nonzero p). exact H.
  - apply (nzhead_no_zero d d). congruence.
Qed.

Lemma delimits_digit base post :
  delimits post = true -> digits base post 0 = (O, 0, post) /\
  forall acc, digits base post acc = (O, acc, post).
Proof.
  destruct post as [|c s]; simpl; [auto|].
  intros H. unfold digit_of, isspace in *.
  assert (E : (code c =? 32) || (9 <=? code c) && (code c <=? 13) = true) by exact H.
  assert (R : code c = 32 \/ 9 <= code c <= 13) by lia.
  replace ((48 <=? code c) && (code c <=? 57)) with false by lia.
  replace ((97 <=? code c) && (code c <=? 102)) with false by lia.
  replace ((65 <=? code c) && (code c <=? 70)) with false by lia.
  rewrite Z.ltb_irrefl. auto.
Qed.

Lemma digits_uint d : forall post acc,
  delimits post = true ->
  digits 10 (NilEmpty.string_of_uint d ++ post) acc
    = (Decimal.nb_digits d, uint_value d acc, post).
Proof.
  induction d; intros post acc Hp;
    [simpl; apply (delimits_digit 10 post Hp)|..];
    simpl; rewrite (IHd post _ Hp); reflexivity.
Qed.

Lemma scan_i_unsigned c s :
  isspace c = false -> is_sign c = false -> (code c =? 48) = false ->
  scan_i (String c s) =
    let '(n, v, r) := digits 10 (String c s) 0 in
    match n with O => NoMatch r | _ => Conv v r end.
Proof.
  intros Hs Hg Hz. unfold scan_i. cbn [skip_space]. rewrite Hs.
  cbn [sign_of]. rewrite Hg. cbv beta iota. rewrite Hz. reflexivity.
Qed.

Lemma scan_i_minus c s :
  isspace c = false -> is_sign c = false -> (code c =? 48) = false ->
  scan_i (String "-" (String c s)) =
    let '(n, v, r) := digits 10 (String c s) 0 in
    match n with O => NoMatch r | _ => Conv (- v) r end.
Proof.
  intros Hs Hg Hz. unfold scan_i.
  assert (E1 : skip_space (String "-" (String c s)) = String "-" (String c s))
    by reflexivity.
  assert (E2 : sign_of (String "-" (String c s)) = (true, String c s))
    by reflexivity.
  rewrite E1. cbv beta iota zeta. rewrite E2. rewrite Hz.
  destruct (digits 10 (String c s) 0) as [[n v] r]. reflexivity.
Qed.

Lemma append_String c s e : String c s ++ e = String c (s ++ e).
Proof. reflexivity. Qed.

Lemma scan_i_pos p post :
  delimits post = true ->
  scan_i (NilZero.string_of_uint (Pos.to_uint p) ++ post) = Conv (Z.pos p) post /\
  scan_i (String "-" (NilZero.string_of_uint (Pos.to_uint p) ++ post))
    = Conv (Z.neg p) post.
Proof.
  intros Hp. pose proof (uint_value_to_uint p) as Hv.
  pose proof (to_uint_no_zero p) as Hz.
  pose proof (digits_uint (Pos.to_uint p) post 0 Hp) as Hdig.
  destruct (Pos.to_uint p) as [|d|d|d|d|d|d|d|d|d|d] eqn:Hd;
    [exfalso; exact (DecimalPos.Unsigned.to_uint_nonnil p Hd)
    |exfalso; exact (Hz d eq_refl)|..];
    cbn [NilZero.string_of_uint NilEmpty.string_of_uint Decimal.nb_digits] in *;
    rewrite append_String in *;
    (split;
     [rewrite scan_i_unsigned by reflexivity
     |rewrite scan_i_minus by reflexivity];
     rewrite Hdig, Hv; reflexivity).
Qed.

Lemma scan_i_print_int z post :
  delimits post = true -> scan_i (print_int z ++ post) = Conv z post.
Proof.
  intros Hp. destruct z as [|p|p].
  - change (print_int 0) with "0". rewrite append_String.
    unfold scan_i.
    assert (E1 : forall s, skip_space (String "0" s) = String "0" s) by reflexivity.
    assert (E2 : forall s, sign_of (String "0" s) = (false, String "0" s)) by reflexivity.
    rewrite E1. cbv beta iota zeta. rewrite E2.
    change (code "0" =? 48) with true. cbv beta iota.
    change ("" ++ post) with post.
    destruct post as [|x s2]; [reflexivity|].
    assert (Hx : (code x =? 120) || (code x =? 88) = false).
    { simpl in Hp. unfold isspace in Hp. lia. }
    rewrite Hx. rewrite (proj1 (delimits_digit 8 _ Hp)). reflexivity.
  - apply (scan_i_pos p post Hp).
  - apply (scan_i_pos p post Hp).
Qed.

Lemma skip_space_blank pre s :
  skip_space pre = "" -> skip_space (pre ++ s) = skip_space s.
Proof.
  induction pre as [|c pre IH]; simpl; [reflexivity|].
  destruct (isspace c); [exact IH|discriminate].
Qed.

Lemma scan_i_blank pre s : skip_space pre = "" -> scan_i (pre ++ s) = scan_i s.
Proof. intros H. unfold scan_i. rewrite (skip_space_blank pre s H). reflexivity. Qed.

(** The number a [%i] conversion writes is an [int] again when read. *)
Lemma scan_i_token pre z post :
  skip_space pre = "" -> delimits post = true ->
  scan_i (pre ++ print_int z ++ post) = Conv z post.
Proof.
  intros H1 H2. rewrite scan_i_blank by exact H1. apply scan_i_print_int, H2.
Qed.

Lemma append_assoc (a b c : string) : (a ++ b) ++ c = a ++ b ++ c.
Proof.
  induction a as [|x a IH]; [reflexivity|].
  rewrite !append_String, IH. reflexivity.
Qed.

Lemma append_nil_r (a : string) : a ++ "" = a.
Proof.
  induction a as [|x a IH]; [reflexivity|].
  rewrite append_String, IH. reflexivity.
Qed.

Lemma length_append (a b : string) :
  String.length (a ++ b) = (String.length a + String.length b)%nat.
Proof.
  induction a as [|x a IH]; [reflexivity|].
  rewrite append_String. simpl. rewrite IH. reflexivity.
Qed.

(** ** Reading a header *)

Lemma word_app w : forall rest,
  snd (word w) = "" -> delimits rest = true -> word (w ++ rest) = (w, rest).
Proof.
  induction w as [|a w IH]; intros rest Hw Hr.
  - change ("" ++ rest) with rest. destruct rest as [|c s]; [reflexivity|].
    simpl in *. rewrite Hr. reflexivity.
  - rewrite append_String. simpl in *. destruct (isspace a); [discriminate|].
    destruct (word w) as [x r] eqn:E. simpl in Hw. subst r.
    rewrite (IH rest eq_refl Hr). reflexivity.
Qed.

Lemma scan_s_word w rest :
  one_word w = true -> delimits rest = true -> scan_s (w ++ rest) = Conv w rest.
Proof.
  unfold one_word. intros Hw Hr. destruct w as [|a w]; [discriminate|].
  destruct (word (String a w)) as [x r] eqn:E. destruct r; [|discriminate].
  assert (Ha : isspace a = false).
  { simpl in E. destruct (isspace a); [discriminate|reflexivity]. }
  unfold scan_s. rewrite append_String. cbn [skip_space]. rewrite Ha.
  rewrite <- append_String. rewrite word_app; [reflexivity| |exact Hr].
  rewrite E. reflexivity.
Qed.

Lemma line_app s : forall rest,
  snd (line s) = "" -> line (s ++ nl ++ rest) = (s, nl ++ rest).
Proof.
  induction s as [|a s IH]; intros rest Hs.
  - reflexivity.
  - rewrite append_String. simpl in *. destruct (code a =? 10); [discriminate|].
    destruct (line s) as [x r] eqn:E. simpl in Hs. subst r.
    rewrite (IH rest eq_refl). reflexivity.
Qed.

Lemma scan_not_nl_line s rest :
  one_line s = true ->
  skip_space (s ++ nl ++ rest) = s ++ nl ++ rest /\
  scan_not_nl (s ++ nl ++ rest) = Conv s (nl ++ rest).
Proof.
  unfold one_line. intros Hs. destruct s as [|a s]; [discriminate|].
  destruct (line (String a s)) as [x r] eqn:E. destruct r; [|discriminate].
  apply negb_true_iff in Hs. split.
  - rewrite append_String. cbn [skip_space]. rewrite Hs. reflexivity.
  - unfold scan_not_nl. rewrite append_String. rewrite <- append_String.
    rewrite line_app by (rewrite E; reflexivity). reflexivity.
Qed.

Lemma skip_space_nl s : skip_space (nl ++ s) = skip_space s.
Proof. reflexivity. Qed.

Lemma skip_space_sp s : skip_space (" " ++ s) = skip_space s.
Proof. reflexivity. Qed.

Lemma print_int_head z :
  exists c s, print_int z = String c s /\ isspace c = false.
Proof.
  destruct z as [|p|p].
  - exists "0"%char, "". split; reflexivity.
  - unfold print_int. simpl.
    pose proof (DecimalPos.Unsigned.to_uint_nonnil p) as Hn.
    destruct (Pos.to_uint p); [congruence|..]; simpl; eauto.
  - unfold print_int. simpl. eauto.
Qed.

Lemma skip_space_print_int z s :
  skip_space (print_int z ++ s) = print_int z ++ s.
Proof.
  destruct (print_int_head z) as (c & r & E & Hc). rewrite E, append_String.
  cbn [skip_space]. rewrite Hc. reflexivity.
Qed.

(** The header scan on a header of four lines: four items are assigned
    and the scan stops at the first byte after the header that is not
    white space. *)
Lemma scanf_header {S : Type} magic comment w h m body len :
  one_word magic = true -> (String.length magic < 10)%nat ->
  one_line comment = true ->
  in_int w = true -> in_int h = true -> in_int m = true ->
  scanf (S := S) header_format len (header_text magic comment w h m ++ body) false 0 nil
    = Done (4, a_str magic :: a_int w :: a_int h :: a_int m :: nil, skip_space body).
Proof.
  intros Hm Hlen Hc Hw Hh Hx. unfold header_text, header_format.
  rewrite !append_assoc. cbn [scanf].
  rewrite scan_s_word by (exact Hm || reflexivity).
  apply Nat.ltb_lt in Hlen. rewrite Hlen. rewrite skip_space_nl.
  destruct (scan_not_nl_line comment
              (print_int w ++ " " ++ print_int h ++ nl ++ print_int m ++ nl ++ body) Hc)
    as [E1 E2].
  rewrite E1, E2. rewrite skip_space_nl, skip_space_print_int.
  rewrite scan_i_print_int by reflexivity. rewrite Hw.
  rewrite skip_space_sp, skip_space_print_int.
  rewrite scan_i_print_int by reflexivity. rewrite Hh.
  rewrite skip_space_nl, skip_space_print_int.
  rewrite scan_i_print_int by reflexivity. rewrite Hx.
  rewrite skip_space_nl. reflexivity.
Qed.

Lemma TryReadPgmInfo_header c f magic comment w h m body t :
  fStream (iF c) = Some f ->
  f_in f = header_text magic comment w h m ++ body ->
  one_word magic = true -> (String.length magic < 10)%nat ->
  one_line comment = true ->
  in_int w = true -> in_int h = true -> in_int m = true ->
  StrToPgmType magic = t ->
  let c1 := set_iF (mkPgmFile (Some (advance f (skip_space body)))
                              (fName (iF c)) w h m t) c in
  (t <> UNKNOWN -> type (iF c) = UNKNOWN \/ type (iF c) = t ->
   TryReadPgmInfo c = Done c1) /\
  (type (iF c) = UNKNOWN -> TryReadPgmInfo c = Done c1) /\
  (forall name, type (iF c) <> t -> PgmTypeToStr (type (iF c)) = Some name ->
     failure (TryReadPgmInfo c)
       = Some (message ("Input is not in " ++ name ++ " format"))).
Proof.
  intros Hf Hin Hm Hlen Hc Hw Hh Hx Ht c1.
  assert (E : TryReadPgmInfo c =
    let c0 := set_iF (mkPgmFile (Some (advance f (skip_space body)))
                                (fName (iF c)) w h m (type (iF c))) c in
    let c2 :=
      if PgmType_eqb (type (iF c)) UNKNOWN && negb (PgmType_eqb t UNKNOWN)
      then set_iF (set_type t (iF c0)) c0 else c0 in
    if negb (PgmType_eqb (type (iF c2)) t) then
      match PgmTypeToStr (type (iF c2)) with
      | Some name => Failed (message ("Input is not in " ++ name ++ " format")) c2
      | None => Undefined "%s is given a null pointer"
      end
    else Done c2).
  { unfold TryReadPgmInfo, stream_of, fscanf. rewrite Hf. cbn [bind].
    rewrite Hin, (scanf_header magic comment w h m body _ Hm Hlen Hc Hw Hh Hx).
    cbn [bind fst snd]. cbv beta iota zeta.
    change (str_arg 0 _ "") with magic. rewrite Ht.
    reflexivity. }
  rewrite E. clear E. subst c1. split; [|split].
  - intros Hu [Hty|Hty]; rewrite Hty; destruct t; try congruence; reflexivity.
  - intros Hty. rewrite Hty. destruct t; reflexivity.
  - intros name Hne Hname. destruct (type (iF c)), t; try congruence;
      simpl in Hname; inversion Hname; reflexivity.
Qed.

(** ** Reading a P2 body *)

Lemma blank_skip b s : blank b = true -> skip_space (b ++ s) = skip_space s.
Proof.
  unfold blank. intros H. apply skip_space_blank.
  destruct (skip_space b); [reflexivity|discriminate].
Qed.

Lemma gap_delimits g s : gap g = true -> delimits (g ++ s) = true /\ g ++ s <> "".
Proof.
  unfold gap, blank. destruct g as [|c g]; [discriminate|].
  rewrite append_String. cbn [skip_space delimits].
  destruct (isspace c); [split; [reflexivity|discriminate]|discriminate].
Qed.

Lemma gap_blank g : gap g = true -> blank g = true.
Proof. unfold gap. destruct g; [discriminate|auto]. Qed.

Lemma read_cell_token row col r f b v g rest :
  type (iF (rd_c r)) = P2 ->
  fStream (iF (rd_c r)) = Some f -> f_eof f = false ->
  f_in f = b ++ print_int v ++ g ++ rest ->
  blank b = true -> gap g = true ->
  0 <= v <= maxDataValue (iF (rd_c r)) -> maxDataValue (iF (rd_c r)) <= INT_MAX ->
  in_array row col = true ->
  0 <= rd_dataCount r < INT_MAX ->
  read_cell row col r =
    Done (Next (mkReader
                  (set_data (<[(row, col) := v]> (data (rd_c r)))
                     (set_iF (set_fStream (mkFILE (g ++ rest) false (f_out f))
                                          (iF (rd_c r))) (rd_c r)))
                  v (rd_dataCount r + 1))).
Proof.
  intros Ht Hf He Hin Hb Hg Hv Hmax Harr Hcount.
  destruct (gap_delimits g rest Hg) as [Hd Hne].
  assert (Hint : in_int v = true) by (unfold in_int, INT_MIN, INT_MAX in *; lia).
  assert (Hrs : read_sample r =
    Done (mkReader (set_iF (set_fStream (mkFILE (g ++ rest) false (f_out f))
                                        (iF (rd_c r))) (rd_c r))
                   v (rd_dataCount r))).
  { unfold read_sample, stream_of, fscanf. rewrite Ht, Hf. cbn [bind].
    rewrite Hin. cbn [scanf].
    assert (Hsc : scan_i (b ++ print_int v ++ g ++ rest) = Conv v (g ++ rest)).
    { apply scan_i_token; [|exact Hd].
      unfold blank in Hb. destruct (skip_space b); [reflexivity|discriminate]. }
    rewrite Hsc, Hint. cbn [bind fst snd]. cbv beta iota zeta.
    change (1 =? 0) with false. cbv iota.
    unfold advance. rewrite He. cbn [f_in f_eof f_out orb].
    destruct (g ++ rest); [congruence|]. reflexivity. }
  unfold read_cell. rewrite Hrs. cbn [bind rd_c rd_data rd_dataCount].
  unfold stream_of. cbn [iF set_iF fStream set_fStream bind feof f_eof].
  unfold to_int.
  replace (in_int (rd_dataCount r + 1)) with true
    by (unfold in_int, INT_MIN, INT_MAX in *; lia).
  cbn [bind]. cbn [maxDataValue set_fStream].
  replace ((v >? maxDataValue (iF (rd_c r))) || (v <? 0)) with false by lia.
  unfold store. rewrite Harr. cbn [bind]. reflexivity.
Qed.

Lemma read_columns_tokens px sep rest todo : forall row col r,
  type (iF (rd_c r)) = P2 ->
  at_text (rd_c r) (tokens_columns px sep todo row col ++ rest) ->
  (forall j, col <= j < col + Z.of_nat todo ->
     gap (sep row j) = true /\ 0 <= px row j <= maxDataValue (iF (rd_c r)) /\
     in_array row j = true) ->
  maxDataValue (iF (rd_c r)) <= INT_MAX ->
  0 <= rd_dataCount r -> rd_dataCount r + Z.of_nat todo <= INT_MAX ->
  exists r',
    read_columns todo row col r = Done r' /\
    at_text (rd_c r') rest /\
    same_but_input (rd_c r) (rd_c r') /\
    rd_dataCount r' = rd_dataCount r + Z.of_nat todo /\
    (forall i j,
       data (rd_c r') !! (i, j) =
         if (i =? row) && (col <=? j) && (j <? col + Z.of_nat todo)
         then Some (px i j) else data (rd_c r) !! (i, j)).
Proof.
  induction todo as [|todo IH]; intros row col r Ht Hat Hcells Hmax Hc0 Hc1.
  - exists r. cbn [read_columns]. split; [reflexivity|].
    split; [exact Hat|]. split; [apply same_but_input_refl|].
    split; [simpl; lia|].
    intros i j. change (Z.of_nat 0) with 0.
    replace ((i =? row) && (col <=? j) && (j <? col + 0)) with false by lia.
    reflexivity.
  - destruct Hat as (f & b & Hf & He & Hb & Hin).
    cbn [tokens_columns] in Hin. rewrite !append_assoc in Hin.
    destruct (Hcells col ltac:(lia)) as (Hg & Hv & Harr).
    cbn [read_columns].
    rewrite (read_cell_token row col r f b (px row col) (sep row col) _
               Ht Hf He Hin Hb Hg Hv Hmax Harr ltac:(lia)).
    cbn [bind].
    set (r1 := mkReader _ _ _).
    destruct (IH row (col + 1) r1) as (r' & Hrd & Hat' & Hsame & Hcnt & Hdata).
    + exact Ht.
    + exists (mkFILE (sep row col ++ tokens_columns px sep todo row (col + 1) ++ rest)
                     false (f_out f)), (sep row col).
      repeat split; auto using gap_blank.
    + intros j Hj. apply Hcells. lia.
    + exact Hmax.
    + subst r1; simpl; lia.
    + subst r1; simpl; lia.
    + exists r'. split; [exact Hrd|]. split; [exact Hat'|].
      split.
      { eapply same_but_input_trans; [|exact Hsame].
        subst r1. simpl. unfold same_but_input. simpl.
        repeat split; auto; discriminate. }
      split; [subst r1; simpl in *; lia|].
      intros i j. rewrite Hdata. subst r1. cbn [rd_c data set_data].
      replace (Z.of_nat (S todo)) with (Z.of_nat todo + 1) by lia.
      pose proof (Nat2Z.is_nonneg todo) as Hn.
      destruct (decide ((i, j) = (row, col))) as [E|E].
      * inversion E; subst.
        replace ((row =? row) && (col + 1 <=? col) && (col <? col + 1 + Z.of_nat todo))
          with false by lia.
        replace ((row =? row) && (col <=? col) && (col <? col + (Z.of_nat todo + 1)))
          with true by lia.
        apply lookup_insert_eq.
      * rewrite lookup_insert_ne by congruence.
        assert (i <> row \/ j <> col) as Hij
          by (destruct (Z.eq_dec i row), (Z.eq_dec j col); subst; auto; congruence).
        replace ((i =? row) && (col <=? j) && (j <? col + (Z.of_nat todo + 1)))
          with ((i =? row) && (col + 1 <=? j) && (j <? col + 1 + Z.of_nat todo))
          by lia.
        destruct ((i =? row) && (col + 1 <=? j) && (j <? col + 1 + Z.of_nat todo)) eqn:Eb;
          [|reflexivity].
        assert (i = row) by lia. subst. reflexivity.
Qed.

Lemma read_rows_tokens px sep rest w todo : forall row r,
  type (iF (rd_c r)) = P2 -> width (iF (rd_c r)) = w -> 0 <= w ->
  at_text (rd_c r) (tokens_rows px sep w todo row ++ rest) ->
  (forall i j, row <= i < row + Z.of_nat todo -> 0 <= j < w ->
     gap (sep i j) = true /\ 0 <= px i j <= maxDataValue (iF (rd_c r)) /\
     in_array i j = true) ->
  maxDataValue (iF (rd_c r)) <= INT_MAX ->
  0 <= rd_dataCount r -> rd_dataCount r + Z.of_nat todo * w <= INT_MAX ->
  exists r',
    read_rows todo row r = Done r' /\
    at_text (rd_c r') rest /\
    same_but_input (rd_c r) (rd_c r') /\
    rd_dataCount r' = rd_dataCount r + Z.of_nat todo * w /\
    (forall i j,
       data (rd_c r') !! (i, j) =
         if (row <=? i) && (i <? row + Z.of_nat todo) && (0 <=? j) && (j <? w)
         then Some (px i j) else data (rd_c r) !! (i, j)).
Proof.
  induction todo as [|todo IH]; intros row r Ht Hw Hw0 Hat Hcells Hmax Hc0 Hc1.
  - exists r. cbn [read_rows]. split; [reflexivity|].
    split; [exact Hat|]. split; [apply same_but_input_refl|].
    split; [simpl; lia|].
    intros i j. change (Z.of_nat 0) with 0.
    replace ((row <=? i) && (i <? row + 0) && (0 <=? j) && (j <? w))
      with false by lia.
    reflexivity.
  - assert (HS : Z.of_nat (S todo) = Z.of_nat todo + 1) by lia.
    rewrite HS in *. clear HS. pose proof (Nat2Z.is_nonneg todo) as Hn.
    cbn [tokens_rows] in Hat. rewrite append_assoc in Hat.
    cbn [read_rows]. rewrite Hw.
    destruct (read_columns_tokens px sep
                (tokens_rows px sep w todo (row + 1) ++ rest)
                (Z.to_nat w) row 0 r Ht Hat)
      as (r1 & Hrd1 & Hat1 & Hsame1 & Hcnt1 & Hdata1).
    + rewrite Z2Nat.id by lia. intros j Hj. apply Hcells; lia.
    + exact Hmax.
    + exact Hc0.
    + rewrite Z2Nat.id by lia. nia.
    + rewrite Hrd1. cbn [bind].
      rewrite Z2Nat.id in * by lia.
      pose proof Hsame1 as (_ & _ & _ & _ & Hw1 & _ & Hm1 & Ht1 & _).
      destruct (IH (row + 1) r1) as (r' & Hrd & Hat' & Hsame & Hcnt & Hdata).
      * congruence.
      * congruence.
      * exact Hw0.
      * exact Hat1.
      * intros i j Hi Hj. rewrite Hm1. apply Hcells; lia.
      * rewrite Hm1. exact Hmax.
      * lia.
      * nia.
      * exists r'. split; [exact Hrd|]. split; [exact Hat'|].
        split; [eapply same_but_input_trans; eassumption|].
        split; [nia|].
        intros i j. rewrite Hdata, Hdata1.
        destruct (Z.eq_dec i row) as [->|Hne].
        -- replace ((row + 1 <=? row) && (row <? row + 1 + Z.of_nat todo) &&
                    (0 <=? j) && (j <? w)) with false by lia.
           replace ((row =? row) && (0 <=? j) && (j <? 0 + w))
             with ((row <=? row) && (row <? row + (Z.of_nat todo + 1)) &&
                   (0 <=? j) && (j <? w)) by lia.
           reflexivity.
        -- replace ((i =? row) && (0 <=? j) && (j <? 0 + w)) with false by lia.
           replace ((row <=? i) && (i <? row + (Z.of_nat todo + 1)) &&
                    (0 <=? j) && (j <? w))
             with ((row + 1 <=? i) && (i <? row + 1 + Z.of_nat todo) &&
                   (0 <=? j) && (j <? w)) by lia.
           reflexivity.
Qed.

(** ** What [WritePgmData] writes *)

Lemma fprintf_oF_nothing c f : fStream (oF c) = Some f -> fprintf_oF "" c = Done c.
Proof.
  intros Hf. unfold fprintf_oF, stream_of. rewrite Hf. cbn [bind].
  destruct c as [i o ca sa d]. destruct o as [fs fn wd ht mx ty].
  simpl in Hf. subst fs. destruct f as [fi fe fo].
  unfold set_oF, set_fStream, fputs. simpl. rewrite append_nil_r. reflexivity.
Qed.

Lemma fprintf_oF_twice c c1 s1 s2 :
  fprintf_oF s1 c = Done c1 -> fprintf_oF s2 c1 = fprintf_oF (s1 ++ s2) c.
Proof.
  unfold fprintf_oF, stream_of.
  destruct (fStream (oF c)) as [f|] eqn:Hf; cbn [bind]; [|discriminate].
  intros H. inversion H; subst. simpl.
  unfold set_oF, set_fStream, fputs. simpl. rewrite append_assoc. reflexivity.
Qed.

Lemma fprintf_oF_Done c s c1 :
  fprintf_oF s c = Done c1 ->
  exists f, fStream (oF c) = Some f /\
            c1 = set_oF (set_fStream (fputs s f) (oF c)) c.
Proof.
  unfold fprintf_oF, stream_of.
  destruct (fStream (oF c)) as [f|]; cbn [bind]; [|discriminate].
  intros H. inversion H. eauto.
Qed.

Lemma call_getData_stream f c row col :
  call_getData (set_oF (set_fStream f (oF c)) c) row col = call_getData c row col.
Proof.
  unfold call_getData. cbn [cArgs set_oF].
  destruct (getData (cArgs c)) as [[]|]; reflexivity.
Qed.

Lemma write_cell_text c f row col v :
  fStream (oF c) = Some f -> in_int (width (oF c) - 1) = true ->
  call_getData c row col = Done v ->
  write_cell row col c
    = fprintf_oF (cell_text (type (oF c)) (width (oF c)) col v) c.
Proof.
  intros Hf Hw Hv. unfold write_cell, cell_text, to_int.
  destruct (type (oF c)).
  - symmetry. eapply fprintf_oF_nothing, Hf.
  - rewrite Hv, Hw. cbn [bind]. destruct (col =? 0); [reflexivity|].
    destruct (col =? width (oF c) - 1); reflexivity.
  - rewrite Hv. reflexivity.
Qed.

Lemma write_columns_text g todo : forall row col c f,
  fStream (oF c) = Some f -> in_int (width (oF c) - 1) = true ->
  (forall j, col <= j < col + Z.of_nat todo -> call_getData c row j = Done (g row j)) ->
  write_columns todo row col c
    = fprintf_oF (columns_text (type (oF c)) g (width (oF c)) todo row col) c.
Proof.
  induction todo as [|todo IH]; intros row col c f Hf Hw Hg.
  - symmetry. eapply fprintf_oF_nothing, Hf.
  - cbn [write_columns columns_text].
    rewrite (write_cell_text c f row col (g row col) Hf Hw) by (apply Hg; lia).
    destruct (fprintf_oF (cell_text _ _ col (g row col)) c) as [c1| |] eqn:E;
      [|unfold fprintf_oF, stream_of in E; rewrite Hf in E; discriminate ..].
    cbn [bind].
    destruct (fprintf_oF_Done _ _ _ E) as (f0 & Hf0 & Hc1).
    assert (Ht1 : type (oF c1) = type (oF c)) by (rewrite Hc1; reflexivity).
    assert (Hw1 : width (oF c1) = width (oF c)) by (rewrite Hc1; reflexivity).
    rewrite (IH row (col + 1) c1 (fputs (cell_text (type (oF c)) (width (oF c)) col (g row col)) f0)).
    + rewrite Ht1, Hw1. apply (fprintf_oF_twice _ _ _ _ E).
    + rewrite Hc1. reflexivity.
    + rewrite Hw1. exact Hw.
    + intros j Hj. rewrite Hc1, call_getData_stream. apply Hg. lia.
Qed.

Lemma write_rows_text g todo : forall row c f,
  fStream (oF c) = Some f -> in_int (width (oF c) - 1) = true ->
  (forall i j, row <= i < row + Z.of_nat todo -> 0 <= j < width (oF c) ->
     call_getData c i j = Done (g i j)) ->
  write_rows todo row c
    = fprintf_oF (rows_text (type (oF c)) g (width (oF c)) todo row) c.
Proof.
  induction todo as [|todo IH]; intros row c f Hf Hw Hg.
  - symmetry. eapply fprintf_oF_nothing, Hf.
  - cbn [write_rows rows_text].
    rewrite (write_columns_text g _ row 0 c f Hf Hw) by (intros j Hj; apply Hg; lia).
    destruct (fprintf_oF _ c) as [c1| |] eqn:E;
      [|unfold fprintf_oF, stream_of in E; rewrite Hf in E; discriminate ..].
    cbn [bind].
    destruct (fprintf_oF_Done _ _ _ E) as (f0 & Hf0 & Hc1).
    assert (Ht1 : type (oF c1) = type (oF c)) by (rewrite Hc1; reflexivity).
    assert (Hw1 : width (oF c1) = width (oF c)) by (rewrite Hc1; reflexivity).
    rewrite (IH (row + 1) c1 (fputs (columns_text (type (oF c)) g (width (oF c))
                                       (Z.to_nat (width (oF c))) row 0) f0)).
    + rewrite Ht1, Hw1. apply (fprintf_oF_twice _ _ _ _ E).
    + rewrite Hc1. reflexivity.
    + rewrite Hw1. exact Hw.
    + intros i j Hi Hj. rewrite Hc1, call_getData_stream. apply Hg; [lia|].
      rewrite Hw1 in Hj. exact Hj.
Qed.

Lemma EncodePgm_text g c f name :
  fStream (oF c) = Some f -> PgmTypeToStr (type (oF c)) = Some name ->
  in_int (width (oF c) - 1) = true ->
  (forall i j, 0 <= i < height (oF c) -> 0 <= j < width (oF c) ->
     call_getData c i j = Done (g i j)) ->
  EncodePgm c
    = fprintf_oF
        (header_text name generated (width (oF c)) (height (oF c))
                     (maxDataValue (oF c)) ++
         rows_text (type (oF c)) g (width (oF c)) (Z.to_nat (height (oF c))) 0) c.
Proof.
  intros Hf Hn Hw Hg. unfold EncodePgm, WritePgmInfo, stream_of.
  rewrite Hf, Hn. cbn [bind]. unfold WritePgmData.
  set (c1 := set_oF _ c).
  assert (E : fprintf_oF (header_text name generated (width (oF c)) (height (oF c))
                                      (maxDataValue (oF c))) c = Done c1).
  { unfold fprintf_oF, stream_of. rewrite Hf. reflexivity. }
  assert (Ht1 : type (oF c1) = type (oF c)) by reflexivity.
  assert (Hw1 : width (oF c1) = width (oF c)) by reflexivity.
  assert (Hh1 : height (oF c1) = height (oF c)) by reflexivity.
  rewrite (write_rows_text g _ 0 c1 (fputs (header_text name generated (width (oF c))
                                              (height (oF c)) (maxDataValue (oF c))) f)).
  - rewrite Ht1, Hw1, Hh1. apply (fprintf_oF_twice _ _ _ _ E).
  - reflexivity.
  - exact Hw.
  - intros i j Hi Hj. subst c1. rewrite call_getData_stream. apply Hg.
    + rewrite Hh1 in Hi. lia.
    + exact Hj.
Qed.

(** A written row of two samples or more is its samples in decimal, a
    space after each but the last and a newline after the last. *)
Lemma columns_text_tokens g w row todo : forall col,
  1 <= col -> col + Z.of_nat (S todo) = w ->
  columns_text P2 g w (S todo) row col
    = " " ++ tokens_columns g (written_sep w) (S todo) row col.
Proof.
  induction todo as [|todo IH]; intros col Hc Hw.
  - cbn [columns_text tokens_columns cell_text]. unfold written_sep.
    replace (col =? 0) with false by lia.
    replace (col =? w - 1) with true by lia.
    rewrite !append_assoc. reflexivity.
  - change (columns_text P2 g w (S (S todo)) row col)
      with (cell_text P2 w col (g row col) ++ columns_text P2 g w (S todo) row (col + 1)).
    rewrite (IH (col + 1)) by lia.
    change (tokens_columns g (written_sep w) (S (S todo)) row col)
      with (print_int (g row col) ++ written_sep w row col ++
            tokens_columns g (written_sep w) (S todo) row (col + 1)).
    unfold cell_text, written_sep at 2.
    replace (col =? 0) with false by lia.
    replace (col =? w - 1) with false by lia.
    rewrite !append_assoc. reflexivity.
Qed.

Lemma row_text_tokens g w row :
  2 <= w ->
  columns_text P2 g w (Z.to_nat w) row 0
    = tokens_columns g (written_sep w) (Z.to_nat w) row 0.
Proof.
  intros Hw. destruct (Z.to_nat w) as [|[|n]] eqn:E; [lia|lia|].
  change (columns_text P2 g w (S (S n)) row 0)
    with (cell_text P2 w 0 (g row 0) ++ columns_text P2 g w (S n) row (0 + 1)).
  rewrite (columns_text_tokens g w row n (0 + 1)) by lia.
  change (tokens_columns g (written_sep w) (S (S n)) row 0)
    with (print_int (g row 0) ++ written_sep w row 0 ++
          tokens_columns g (written_sep w) (S n) row (0 + 1)).
  unfold cell_text, written_sep at 2.
  change (0 =? 0) with true. cbv iota.
  replace (0 =? w - 1) with false by lia. reflexivity.
Qed.

Lemma rows_text_tokens g w todo : forall row,
  2 <= w ->
  rows_text P2 g w todo row = tokens_rows g (written_sep w) w todo row.
Proof.
  induction todo as [|todo IH]; intros row Hw; [reflexivity|].
  cbn [rows_text tokens_rows]. rewrite row_text_tokens by exact Hw.
  rewrite IH by exact Hw. reflexivity.
Qed.

Lemma written_sep_gap w row col : gap (written_sep w row col) = true.
Proof. unfold written_sep. destruct (col =? w - 1); reflexivity. Qed.

(** ** Reading a P5 body *)

Lemma print_char_byte v :
  0 <= v <= 255 ->
  exists ch, print_char v = String ch "" /\ code ch = v.
Proof.
  intros Hv. unfold print_char. eexists. split; [reflexivity|].
  unfold code. rewrite Z.mod_small by lia.
  rewrite N_ascii_embedding by lia. lia.
Qed.

Lemma read_cell_byte row col r f v rest :
  type (iF (rd_c r)) = P5 ->
  fStream (iF (rd_c r)) = Some f -> f_eof f = false ->
  f_in f = print_char v ++ rest ->
  0 <= v <= 255 -> v <= maxDataValue (iF (rd_c r)) ->
  in_array row col = true ->
  0 <= rd_dataCount r < INT_MAX ->
  read_cell row col r =
    Done (Next (mkReader
                  (set_data (<[(row, col) := v]> (data (rd_c r)))
                     (set_iF (set_fStream (mkFILE rest false (f_out f))
                                          (iF (rd_c r))) (rd_c r)))
                  v (rd_dataCount r + 1))).
Proof.
  intros Ht Hf He Hin Hv Hmax Harr Hcount.
  destruct (print_char_byte v Hv) as (ch & Hch & Hcode).
  rewrite Hch in Hin. rewrite append_String in Hin.
  change ("" ++ rest) with rest in Hin.
  assert (Hrs : read_sample r =
    Done (mkReader (set_iF (set_fStream (mkFILE rest false (f_out f))
                                        (iF (rd_c r))) (rd_c r))
                   v (rd_dataCount r))).
  { unfold read_sample, stream_of, fgetc. rewrite Ht, Hf. cbn [bind].
    rewrite Hin, He, Hcode. reflexivity. }
  unfold read_cell. rewrite Hrs. cbn [bind rd_c rd_data rd_dataCount].
  unfold stream_of. cbn [iF set_iF fStream set_fStream bind feof f_eof].
  unfold to_int.
  replace (in_int (rd_dataCount r + 1)) with true
    by (unfold in_int, INT_MIN, INT_MAX in *; lia).
  cbn [bind]. cbn [maxDataValue set_fStream].
  replace ((v >? maxDataValue (iF (rd_c r))) || (v <? 0)) with false by lia.
  unfold store. rewrite Harr. cbn [bind]. reflexivity.
Qed.

Lemma read_columns_bytes px w rest todo : forall row col r,
  type (iF (rd_c r)) = P5 ->
  at_bytes (rd_c r) (columns_text P5 px w todo row col ++ rest) ->
  (forall j, col <= j < col + Z.of_nat todo ->
     0 <= px row j <= 255 /\ px row j <= maxDataValue (iF (rd_c r)) /\
     in_array row j = true) ->
  0 <= rd_dataCount r -> rd_dataCount r + Z.of_nat todo <= INT_MAX ->
  exists r',
    read_columns todo row col r = Done r' /\
    at_bytes (rd_c r') rest /\
    same_but_input (rd_c r) (rd_c r') /\
    rd_dataCount r' = rd_dataCount r + Z.of_nat todo /\
    (forall i j,
       data (rd_c r') !! (i, j) =
         if (i =? row) && (col <=? j) && (j <? col + Z.of_nat todo)
         then Some (px i j) else data (rd_c r) !! (i, j)).
Proof.
  induction todo as [|todo IH]; intros row col r Ht Hat Hcells Hc0 Hc1.
  - exists r. cbn [read_columns]. split; [reflexivity|].
    split; [exact Hat|]. split; [apply same_but_input_refl|].
    split; [simpl; lia|].
    intros i j. change (Z.of_nat 0) with 0.
    replace ((i =? row) && (col <=? j) && (j <? col + 0)) with false by lia.
    reflexivity.
  - destruct Hat as (f & Hf & He & Hin).
    cbn [columns_text cell_text] in Hin. rewrite !append_assoc in Hin.
    destruct (Hcells col ltac:(lia)) as (Hv & Hmax & Harr).
    cbn [read_columns].
    rewrite (read_cell_byte row col r f (px row col) _
               Ht Hf He Hin Hv Hmax Harr ltac:(lia)).
    cbn [bind].
    set (r1 := mkReader _ _ _).
    destruct (IH row (col + 1) r1) as (r' & Hrd & Hat' & Hsame & Hcnt & Hdata).
    + exact Ht.
    + exists (mkFILE (columns_text P5 px w todo row (col + 1) ++ rest)
                     false (f_out f)).
      repeat split; auto.
    + intros j Hj. apply Hcells. lia.
    + subst r1; simpl; lia.
    + subst r1; simpl; lia.
    + exists r'. split; [exact Hrd|]. split; [exact Hat'|].
      split.
      { eapply same_but_input_trans; [|exact Hsame].
        subst r1. simpl. unfold same_but_input. simpl.
        repeat split; auto; discriminate. }
      split; [subst r1; simpl in *; lia|].
      intros i j. rewrite Hdata. subst r1. cbn [rd_c data set_data].
      replace (Z.of_nat (S todo)) with (Z.of_nat todo + 1) by lia.
      pose proof (Nat2Z.is_nonneg todo) as Hn.
      destruct (decide ((i, j) = (row, col))) as [E|E].
      * inversion E; subst.
        replace ((row =? row) && (col + 1 <=? col) && (col <? col + 1 + Z.of_nat todo))
          with false by lia.
        replace ((row =? row) && (col <=? col) && (col <? col + (Z.of_nat todo + 1)))
          with true by lia.
        apply lookup_insert_eq.
      * rewrite lookup_insert_ne by congruence.
        assert (i <> row \/ j <> col) as Hij
          by (destruct (Z.eq_dec i row), (Z.eq_dec j col); subst; auto; congruence).
        replace ((i =? row) && (col <=? j) && (j <? col + (Z.of_nat todo + 1)))
          with ((i =? row) && (col + 1 <=? j) && (j <? col + 1 + Z.of_nat todo))
          by lia.
        destruct ((i =? row) && (col + 1 <=? j) && (j <? col + 1 + Z.of_nat todo)) eqn:Eb;
          [|reflexivity].
        assert (i = row) by lia. subst. reflexivity.
Qed.

Lemma read_rows_bytes px rest w todo : forall row r,
  type (iF (rd_c r)) = P5 -> width (iF (rd_c r)) = w -> 0 <= w ->
  at_bytes (rd_c r) (rows_text P5 px w todo row ++ rest) ->
  (forall i j, row <= i < row + Z.of_nat todo -> 0 <= j < w ->
     0 <= px i j <= 255 /\ px i j <= maxDataValue (iF (rd_c r)) /\
     in_array i j = true) ->
  0 <= rd_dataCount r -> rd_dataCount r + Z.of_nat todo * w <= INT_MAX ->
  exists r',
    read_rows todo row r = Done r' /\
    at_bytes (rd_c r') rest /\
    same_but_input (rd_c r) (rd_c r') /\
    rd_dataCount r' = rd_dataCount r + Z.of_nat todo * w /\
    (forall i j,
       data (rd_c r') !! (i, j) =
         if (row <=? i) && (i <? row + Z.of_nat todo) && (0 <=? j) && (j <? w)
         then Some (px i j) else data (rd_c r) !! (i, j)).
Proof.
  induction todo as [|todo IH]; intros row r Ht Hw Hw0 Hat Hcells Hc0 Hc1.
  - exists r. cbn [read_rows]. split; [reflexivity|].
    split; [exact Hat|]. split; [apply same_but_input_refl|].
    split; [simpl; lia|].
    intros i j. change (Z.of_nat 0) with 0.
    replace ((row <=? i) && (i <? row + 0) && (0 <=? j) && (j <? w))
      with false by lia.
    reflexivity.
  - assert (HS : Z.of_nat (S todo) = Z.of_nat todo + 1) by lia.
    rewrite HS in *. clear HS. pose proof (Nat2Z.is_nonneg todo) as Hn.
    cbn [rows_text] in Hat. rewrite append_assoc in Hat.
    cbn [read_rows]. rewrite Hw.
    destruct (read_columns_bytes px w
                (rows_text P5 px w todo (row + 1) ++ rest)
                (Z.to_nat w) row 0 r Ht Hat)
      as (r1 & Hrd1 & Hat1 & Hsame1 & Hcnt1 & Hdata1).
    + rewrite Z2Nat.id by lia. intros j Hj. apply Hcells; lia.
    + exact Hc0.
    + rewrite Z2Nat.id by lia. nia.
    + rewrite Hrd1. cbn [bind].
      rewrite Z2Nat.id in * by lia.
      pose proof Hsame1 as (_ & _ & _ & _ & Hw1 & _ & Hm1 & Ht1 & _).
      destruct (IH (row + 1) r1) as (r' & Hrd & Hat' & Hsame & Hcnt & Hdata).
      * congruence.
      * congruence.
      * exact Hw0.
      * exact Hat1.
      * intros i j Hi Hj. rewrite Hm1. apply Hcells; lia.
      * lia.
      * nia.
      * exists r'. split; [exact Hrd|]. split; [exact Hat'|].
        split; [eapply same_but_input_trans; eassumption|].
        split; [nia|].
        intros i j. rewrite Hdata, Hdata1.
        destruct (Z.eq_dec i row) as [->|Hne].
        -- replace ((row + 1 <=? row) && (row <? row + 1 + Z.of_nat todo) &&
                    (0 <=? j) && (j <? w)) with false by lia.
           replace ((row =? row) && (0 <=? j) && (j <? 0 + w))
             with ((row <=? row) && (row <? row + (Z.of_nat todo + 1)) &&
                   (0 <=? j) && (j <? w)) by lia.
           reflexivity.
        -- replace ((i =? row) && (0 <=? j) && (j <? 0 + w)) with false by lia.
           replace ((row <=? i) && (i <? row + (Z.of_nat todo + 1)) &&
                    (0 <=? j) && (j <? w))
             with ((row + 1 <=? i) && (i <? row + 1 + Z.of_nat todo) &&
                   (0 <=? j) && (j <? w)) by lia.
           reflexivity.
Qed.

(** ** Decoding a file *)

Lemma tokens_rows_head px sep w todo row rest :
  1 <= w -> (0 < todo)%nat ->
  exists ch s, tokens_rows px sep w todo row ++ rest = String ch s /\
               isspace ch = false.
Proof.
  intros Hw Ht. destruct todo as [|todo]; [lia|].
  cbn [tokens_rows]. destruct (Z.to_nat w) as [|n] eqn:E; [lia|].
  cbn [tokens_columns]. rewrite !append_assoc.
  destruct (print_int_head (px row 0)) as (ch & s & Hp & Hs).
  rewrite Hp, append_String. eauto.
Qed.

Lemma TryReadPgmData_tokens px sep rest c w h :
  type (iF c) = P2 -> width (iF c) = w -> height (iF c) = h ->
  0 <= w -> 0 <= h ->
  at_text c (tokens_rows px sep w (Z.to_nat h) 0 ++ rest) ->
  (forall i j, 0 <= i < h -> 0 <= j < w ->
     gap (sep i j) = true /\ 0 <= px i j <= maxDataValue (iF c) /\
     in_array i j = true) ->
  maxDataValue (iF c) <= INT_MAX -> w * h <= INT_MAX ->
  exists c',
    TryReadPgmData c = Done c' /\ same_but_input c c' /\ at_text c' rest /\
    holds c c' w h px.
Proof.
  intros Ht Hw Hh Hw0 Hh0 Hat Hcells Hmax Hwh.
  destruct (read_rows_tokens px sep rest w (Z.to_nat h) 0 (mkReader c 0 0))
    as (r' & Hrd & Hat' & Hsame & Hcnt & Hdata); cbn [rd_c rd_dataCount]; auto.
  - rewrite Z2Nat.id by lia. intros i j Hi Hj. apply Hcells; lia.
  - lia.
  - rewrite Z2Nat.id by lia. lia.
  - cbn [rd_c rd_dataCount] in *. rewrite Z2Nat.id in * by lia.
    exists (rd_c r'). split; [|split; [exact Hsame|split; [exact Hat'|]]].
    + apply (TryReadPgmData_after_loops c r'); auto.
      * rewrite Hh. exact Hrd.
      * rewrite Hw, Hh. lia.
      * rewrite Hw, Hh. unfold in_int, INT_MIN, INT_MAX in *. nia.
    + intros i j. rewrite Hdata. unfold inside.
      replace (0 + h) with h by lia. reflexivity.
Qed.

Lemma TryReadPgmData_bytes px c w h :
  type (iF c) = P5 -> width (iF c) = w -> height (iF c) = h ->
  0 <= w -> 0 <= h ->
  at_bytes c (rows_text P5 px w (Z.to_nat h) 0) ->
  (forall i j, 0 <= i < h -> 0 <= j < w ->
     0 <= px i j <= 255 /\ px i j <= maxDataValue (iF c) /\
     in_array i j = true) ->
  w * h <= INT_MAX ->
  exists c',
    TryReadPgmData c = Done c' /\ same_but_input c c' /\ holds c c' w h px.
Proof.
  intros Ht Hw Hh Hw0 Hh0 Hat Hcells Hwh.
  destruct (read_rows_bytes px "" w (Z.to_nat h) 0 (mkReader c 0 0))
    as (r' & Hrd & Hat' & Hsame & Hcnt & Hdata); cbn [rd_c rd_dataCount]; auto.
  - rewrite append_nil_r. exact Hat.
  - rewrite Z2Nat.id by lia. intros i j Hi Hj. apply Hcells; lia.
  - lia.
  - rewrite Z2Nat.id by lia. lia.
  - cbn [rd_c rd_dataCount] in *. rewrite Z2Nat.id in * by lia.
    destruct Hat' as (f' & Hf' & He' & Hin').
    pose proof Hsame as (Ho & Hca & Hsa & Hn & Hw1 & Hh1 & Hm1 & Ht1 & _).
    exists (set_iF (set_fStream (mkFILE "" true (f_out f')) (iF (rd_c r'))) (rd_c r')).
    split; [|split].
    + unfold TryReadPgmData. rewrite Hh, Hrd. cbn [bind].
      rewrite Ht1, Ht. cbn [PgmType_eqb]. unfold stream_of. rewrite Hf'.
      cbn [bind]. unfold fgetc. rewrite Hin'. cbn [bind].
      change (negb (EOF =? EOF)) with false. cbv iota. cbn [bind].
      cbn [iF set_iF width height set_fStream]. rewrite Hw1, Hh1, Hw, Hh.
      unfold to_int.
      replace (in_int (w * h)) with true
        by (unfold in_int, INT_MIN, INT_MAX in *; nia).
      cbn [bind]. rewrite Hcnt.
      replace (negb (0 + h * w =? w * h)) with false by lia. reflexivity.
    + unfold same_but_input in *. cbn [iF oF cArgs sArgs set_iF set_fStream
        fName width height maxDataValue type fStream].
      repeat split; auto; discriminate.
    + intros i j. cbn [data set_iF]. rewrite Hdata. unfold inside.
      replace (0 + h) with h by lia. reflexivity.
Qed.

Lemma DecodePgm_tokens c0 comment w h m b0 px sep rest :
  type (iF c0) = UNKNOWN \/ type (iF c0) = P2 ->
  one_line comment = true -> blank b0 = true ->
  1 <= w <= 512 -> 1 <= h <= 512 -> m <= INT_MAX ->
  (forall i j, 0 <= i < h -> 0 <= j < w ->
     gap (sep i j) = true /\ 0 <= px i j <= m) ->
  exists c',
    DecodePgm (opened (header_text "P2" comment w h m ++ b0 ++
                       tokens_rows px sep w (Z.to_nat h) 0 ++ rest) c0) = Done c' /\
    descriptor c' = (w, h, m, P2) /\ fName (iF c') = fName (iF c0) /\
    fStream (iF c') <> None /\
    oF c' = set_fStream fopen_wb (oF c0) /\
    cArgs c' = cArgs c0 /\ sArgs c' = sArgs c0 /\
    holds c0 c' w h px.
Proof.
  intros Hty Hcm Hb0 Hw Hh Hm Hcells.
  assert (Hm0 : 0 <= m) by (destruct (Hcells 0 0) as [_ ?]; lia).
  set (body := b0 ++ tokens_rows px sep w (Z.to_nat h) 0 ++ rest).
  set (c := opened (header_text "P2" comment w h m ++ body) c0).
  assert (Hiw : in_int w = true) by (unfold in_int, INT_MIN, INT_MAX in *; lia).
  assert (Hih : in_int h = true) by (unfold in_int, INT_MIN, INT_MAX in *; lia).
  assert (Him : in_int m = true) by (unfold in_int, INT_MIN, INT_MAX in *; lia).
  pose proof (TryReadPgmInfo_header c
                (fopen_rb (header_text "P2" comment w h m ++ body))
                "P2" comment w h m body P2 eq_refl eq_refl eq_refl
                ltac:(simpl; lia) Hcm Hiw Hih Him eq_refl) as Hinfo.
  cbv zeta in Hinfo. destruct Hinfo as (Hinfo & _ & _).
  specialize (Hinfo ltac:(discriminate) Hty).
  unfold DecodePgm. rewrite Hinfo. cbn [bind].
  set (c1 := set_iF _ c) in *.
  destruct (tokens_rows_head px sep w (Z.to_nat h) 0 rest) as (ch & s & Hhead & Hch);
    [lia|lia|].
  assert (Hsk : skip_space body = tokens_rows px sep w (Z.to_nat h) 0 ++ rest).
  { subst body. rewrite blank_skip by exact Hb0. rewrite Hhead.
    cbn [skip_space]. rewrite Hch. reflexivity. }
  destruct (TryReadPgmData_tokens px sep rest c1 w h) as (c' & Hd & Hsame & _ & Hdata);
    try reflexivity; try lia.
  - exists (advance (fopen_rb (header_text "P2" comment w h m ++ body)) (skip_space body)), "".
    split; [reflexivity|]. split; [|split; [reflexivity|]].
    + rewrite Hsk, Hhead. reflexivity.
    + rewrite Hsk. reflexivity.
  - intros i j Hi Hj. destruct (Hcells i j Hi Hj) as [Hg Hv].
    split; [exact Hg|]. split; [exact Hv|]. unfold in_array. lia.
  - exact Hm.
  - unfold INT_MAX; nia.
  - exists c'. split; [exact Hd|].
    destruct Hsame as (Ho & Hca & Hsa & Hn & Hw1 & Hh1 & Hm1 & Ht1 & Hs1).
    unfold descriptor. rewrite Hw1, Hh1, Hm1, Ht1, Hn, Ho, Hca, Hsa.
    repeat split; try reflexivity.
    + apply Hs1. discriminate.
    + exact Hdata.
Qed.

Lemma rows_bytes_head px w todo row :
  1 <= w -> (0 < todo)%nat -> 0 <= px row 0 <= 255 ->
  exists ch s, rows_text P5 px w todo row = String ch s /\ code ch = px row 0.
Proof.
  intros Hw Ht Hv. destruct todo as [|todo]; [lia|].
  cbn [rows_text]. destruct (Z.to_nat w) as [|n] eqn:E; [lia|].
  cbn [columns_text cell_text]. rewrite !append_assoc.
  destruct (print_char_byte (px row 0) Hv) as (ch & Hp & Hc).
  rewrite Hp, append_String. eauto.
Qed.

Lemma DecodePgm_bytes c0 comment w h m px :
  type (iF c0) = UNKNOWN \/ type (iF c0) = P5 ->
  one_line comment = true ->
  1 <= w <= 512 -> 1 <= h <= 512 -> m <= INT_MAX ->
  (forall i j, 0 <= i < h -> 0 <= j < w -> 0 <= px i j <= 255 /\ px i j <= m) ->
  px 0 0 <> 32 -> ~ 9 <= px 0 0 <= 13 ->
  exists c',
    DecodePgm (opened (header_text "P5" comment w h m ++
                       rows_text P5 px w (Z.to_nat h) 0) c0) = Done c' /\
    descriptor c' = (w, h, m, P5) /\ fName (iF c') = fName (iF c0) /\
    fStream (iF c') <> None /\
    oF c' = set_fStream fopen_wb (oF c0) /\
    cArgs c' = cArgs c0 /\ sArgs c' = sArgs c0 /\
    holds c0 c' w h px.
Proof.
  intros Hty Hcm Hw Hh Hm Hcells Hsp1 Hsp2.
  assert (Hm0 : 0 <= m) by (destruct (Hcells 0 0); lia).
  set (body := rows_text P5 px w (Z.to_nat h) 0).
  set (c := opened (header_text "P5" comment w h m ++ body) c0).
  assert (Hiw : in_int w = true) by (unfold in_int, INT_MIN, INT_MAX in *; lia).
  assert (Hih : in_int h = true) by (unfold in_int, INT_MIN, INT_MAX in *; lia).
  assert (Him : in_int m = true) by (unfold in_int, INT_MIN, INT_MAX in *; lia).
  pose proof (TryReadPgmInfo_header c
                (fopen_rb (header_text "P5" comment w h m ++ body))
                "P5" comment w h m body P5 eq_refl eq_refl eq_refl
                ltac:(simpl; lia) Hcm Hiw Hih Him eq_refl) as Hinfo.
  cbv zeta in Hinfo. destruct Hinfo as (Hinfo & _ & _).
  specialize (Hinfo ltac:(discriminate) Hty).
  unfold DecodePgm. rewrite Hinfo. cbn [bind].
  set (c1 := set_iF _ c) in *.
  destruct (rows_bytes_head px w (Z.to_nat h) 0) as (ch & s & Hhead & Hch);
    [lia|lia|apply Hcells; lia|].
  assert (Hsk : skip_space body = body).
  { subst body. rewrite Hhead. cbn [skip_space]. unfold isspace. rewrite Hch.
    replace ((px 0 0 =? 32) || (9 <=? px 0 0) && (px 0 0 <=? 13)) with false by lia.
    reflexivity. }
  destruct (TryReadPgmData_bytes px c1 w h) as (c' & Hd & Hsame & Hdata);
    try reflexivity; try lia.
  - exists (advance (fopen_rb (header_text "P5" comment w h m ++ body)) (skip_space body)).
    split; [reflexivity|]. split.
    + rewrite Hsk. subst body. rewrite Hhead. reflexivity.
    + rewrite Hsk. reflexivity.
  - intros i j Hi Hj. destruct (Hcells i j Hi Hj) as [Hv Hvm].
    split; [exact Hv|]. split; [exact Hvm|]. unfold in_array. lia.
  - unfold INT_MAX; nia.
  - exists c'. split; [exact Hd|].
    destruct Hsame as (Ho & Hca & Hsa & Hn & Hw1 & Hh1 & Hm1 & Ht1 & Hs1).
    unfold descriptor. rewrite Hw1, Hh1, Hm1, Ht1, Hn, Ho, Hca, Hsa.
    repeat split; try reflexivity.
    + apply Hs1. discriminate.
    + exact Hdata.
Qed.

(** ** A sample that ends the stream *)







(** ** Whole conversions *)


Lemma TryConvertPgm_stages fs c0 :
  TryConvertPgm fs c0 =
    match (do c <- TryOpenStreams fs c0; do c <- DecodePgm c; TrySetPgmInfo c) with
    | Failed msg c => do c <- CloseStreams c; Failed msg c
    | Undefined why => Undefined why
    | Done c => do c <- EncodePgm c; CloseStreams c
    end.
Proof.
  unfold TryConvertPgm, DecodePgm, EncodePgm.
  destruct (TryOpenStreams fs c0) as [c1| |]; cbn [bind]; try reflexivity.
  destruct (TryReadPgmInfo c1) as [c2| |]; cbn [bind]; try reflexivity.
  destruct (TryReadPgmData c2) as [c3| |]; cbn [bind]; try reflexivity.
  destruct (TrySetPgmInfo c3) as [c4| |]; cbn [bind]; try reflexivity.
  destruct (WritePgmInfo (oF c4)) as [o| |]; cbn [bind]; reflexivity.
Qed.



Lemma DecodePgm_file c0 content t w h m px :
  pgm_file content t w h m px ->
  type (iF c0) = UNKNOWN \/ type (iF c0) = t ->
  exists c',
    DecodePgm (opened content c0) = Done c' /\
    descriptor c' = (w, h, m, t) /\ fName (iF c') = fName (iF c0) /\
    fStream (iF c') <> None /\
    oF c' = set_fStream fopen_wb (oF c0) /\
    cArgs c' = cArgs c0 /\ sArgs c' = sArgs c0 /\
    holds c0 c' w h px.
Proof.
  intros [comment w0 h0 m0 b0 px0 sep rest Hc Hb Hw Hh Hm Hcells
         |comment w0 h0 m0 px0 Hc Hw Hh Hm Hcells H1 H2] Hty.
  - apply DecodePgm_tokens; assumption.
  - apply DecodePgm_bytes; assumption.
Qed.






(** A file the program wrote is a pgm file when, as P2, its rows have
    two samples or more and, as P5, its samples are bytes and the first
    is not white space. *)
Lemma pgm_text_P2_file w h m px :
  2 <= w <= 512 -> 1 <= h <= 512 -> m <= INT_MAX ->
  (forall i j, 0 <= i < h -> 0 <= j < w -> 0 <= px i j <= m) ->
  pgm_file (pgm_text P2 w h m px) P2 w h m px.
Proof.
  intros Hw Hh Hm Hpx. unfold pgm_text. change (magic_of P2) with "P2".
  rewrite rows_text_tokens by lia.
  replace (tokens_rows px (written_sep w) w (Z.to_nat h) 0)
    with ("" ++ tokens_rows px (written_sep w) w (Z.to_nat h) 0 ++ "")
    by (rewrite append_nil_r; reflexivity).
  apply ascii_file; try reflexivity; try lia.
  intros i j Hi Hj. split; [apply written_sep_gap|apply Hpx; assumption].
Qed.

Lemma pgm_text_P5_file w h m px :
  1 <= w <= 512 -> 1 <= h <= 512 -> m <= INT_MAX ->
  (forall i j, 0 <= i < h -> 0 <= j < w -> 0 <= px i j <= 255 /\ px i j <= m) ->
  px 0 0 <> 32 -> ~ 9 <= px 0 0 <= 13 ->
  pgm_file (pgm_text P5 w h m px) P5 w h m px.
Proof.
  intros Hw Hh Hm Hpx H1 H2. unfold pgm_text. change (magic_of P5) with "P5".
  apply binary_file; try reflexivity; assumption.
Qed.

Lemma grey_pgm_file : pgm_file grey_pgm P2 2 2 255 grey_px.
Proof.
  replace grey_pgm
    with (header_text "P2" "# a comment" 2 2 255 ++ "" ++
          tokens_rows grey_px (plain_sep 2) 2 (Z.to_nat 2) 0 ++ "")
    by (vm_compute; reflexivity).
  apply ascii_file; try reflexivity; try (unfold INT_MAX; lia).
  intros i j Hi Hj. split.
  - unfold plain_sep. destruct (j =? 2 - 1); reflexivity.
  - unfold grey_px. lia.
Qed.





(** ** The commands on a pgm file *)













(** ** The enum functions *)

(** X7.  [PgmTypeToStr] and [StrToPgmType] are inverse to each other on
    P2 and P5: the name of a type converts back to it, a string that
    converts to P2 or P5 is that type's name, and UNKNOWN has no name
    (a null pointer). *)
Theorem PgmType_names :
  (forall t s, PgmTypeToStr t = Some s -> StrToPgmType s = t) /\
  (forall s, StrToPgmType s <> UNKNOWN ->
             PgmTypeToStr (StrToPgmType s) = Some s) /\
  PgmTypeToStr UNKNOWN = None.
Proof.
  split; [|split].
  - intros [] s H; inversion H; reflexivity.
  - intros s. unfold StrToPgmType.
    destruct (String.eqb s "P2") eqn:E2.
    + apply String.eqb_eq in E2. subst. reflexivity.
    + destruct (String.eqb s "P5") eqn:E5; [|congruence].
      apply String.eqb_eq in E5. subst. reflexivity.
  - reflexivity.
Qed.

(** ** Extrapolation *)

(** X8.  On two samples of a decoded picture, [ExtrapolateLinear] is
    [2 * x1 - x2] brought into the range 0..255, and it is undefined
    (signed overflow in [x1 - (x2 - x1)]) when [2 * x1 - x2] is above
    INT_MAX. *)
Theorem ExtrapolateLinear_clamps (x1 x2 : Z) :
  0 <= x1 <= INT_MAX -> 0 <= x2 <= INT_MAX ->
  ExtrapolateLinear x1 x2 =
    if 2 * x1 - x2 <=? INT_MAX
    then Done (Z.max 0 (Z.min 255 (2 * x1 - x2)))
    else Undefined "signed integer overflow".
Proof.
  intros H1 H2. unfold ExtrapolateLinear, to_int.
  replace (in_int (x2 - x1)) with true
    by (unfold in_int, INT_MIN, INT_MAX in *; lia).
  cbn [bind].
  destruct (2 * x1 - x2 <=? INT_MAX) eqn:E.
  - replace (in_int (x1 - (x2 - x1))) with true
      by (unfold in_int, INT_MIN, INT_MAX in *; lia).
    cbn [bind]. f_equal.
    destruct (x1 - (x2 - x1) >? 255) eqn:E1; [lia|].
    destruct (x1 - (x2 - x1) <? 0) eqn:E0; lia.
  - replace (in_int (x1 - (x2 - x1))) with false
      by (unfold in_int, INT_MIN, INT_MAX in *; lia).
    reflexivity.
Qed.

Lemma ExtrapolateLinear_clamps_witness :
  ExtrapolateLinear 200 100 = Done 255 /\
  ExtrapolateLinear INT_MAX 0 = Undefined "signed integer overflow".
Proof.
  split.
  - exact (ExtrapolateLinear_clamps 200 100 ltac:(vm_compute; split; discriminate)
             ltac:(vm_compute; split; discriminate)).
  - exact (ExtrapolateLinear_clamps INT_MAX 0 ltac:(vm_compute; split; discriminate)
             ltac:(vm_compute; split; discriminate)).
Defined.

(** ** A missing input file *)

(** X9.  When the input file cannot be opened, [TryOpenStreams] prints
    the "No such file" line and leaves both streams null; the run then
    reaches [CloseStreams], which calls [fclose] on the null input
    stream. *)
Theorem missing_input_file fs c :
  fs (fName (iF c)) = None ->
  (exists c',
     TryOpenStreams fs c
       = Failed (message ("No such file: " ++ String (ascii_of_nat 34) (fName (iF c))
                          ++ String (ascii_of_nat 34) "")) c' /\
     fStream (iF c') = None /\ oF c' = oF c) /\
  TryConvertPgm fs c = Undefined "fclose of a null stream".
Proof.
  intros H. split.
  - unfold TryOpenStreams. rewrite H. eexists. split; [reflexivity|].
    split; reflexivity.
  - unfold TryConvertPgm, TryOpenStreams. rewrite H. cbn [bind].
    unfold CloseStreams. reflexivity.
Qed.

Lemma missing_input_file_witness :
  TryConvertPgm (fun _ => None) (cmd_P2toP5 "in.pgm" "out.pgm")
    = Undefined "fclose of a null stream".
Proof.
  exact (proj2 (missing_input_file (fun _ => None) (cmd_P2toP5 "in.pgm" "out.pgm") eq_refl)).
Defined.

(** ** The input file as output file *)

(** X20.  A conversion whose output file is its input file destroys the
    file: the output stream, opened after the input stream, empties it
    before a byte is read, so that whatever the file held the run fails
    as corrupted and leaves it empty. *)
Theorem same_file_is_emptied fs c :
  fName (oF c) = fName (iF c) -> fs (fName (iF c)) <> None ->
  exists c', TryConvertPgm fs c = Failed corrupted c' /\ output c' = "".
Proof.
  intros Hsame Hfs.
  destruct (fs (fName (iF c))) as [content|] eqn:E; [clear Hfs|congruence].
  rewrite TryConvertPgm_stages, (TryOpenStreams_opened fs c content E).
  rewrite Hsame, String.eqb_refl. cbn [bind].
  destruct c as [i o a s d]. destruct i, o.
  eexists. split; reflexivity.
Qed.

Lemma same_file_is_emptied_witness :
  exists c',
    TryConvertPgm (one_file grey_pgm) (cmd_rotate "in.pgm" "in.pgm")
      = Failed corrupted c' /\ output c' = "".
Proof.
  apply (same_file_is_emptied (one_file grey_pgm) (cmd_rotate "in.pgm" "in.pgm"));
    [reflexivity|discriminate].
Defined.

(** ** The function a bilinear scaling selects *)

Lemma SFcompare_antisym x y :
  SFcompare y x = option_map CompOpp (SFcompare x y).
Proof.
  destruct x as [sx|sx| |sx mx ex], y as [sy|sy| |sy my ey]; simpl;
    try destruct sx; try destruct sy; try reflexivity;
    rewrite (Z.compare_antisym ey ex);
    change (Pos.compare_cont Eq my mx) with (Pos.compare my mx);
    change (Pos.compare_cont Eq mx my) with (Pos.compare mx my);
    rewrite (Pos.compare_antisym mx my);
    destruct (ey ?= ex)%Z; simpl; try reflexivity;
    destruct (mx ?= my)%positive; reflexivity.
Qed.

Lemma SFcompare_nan x m e :
  SFcompare x (S754_finite false m e) = None -> SFeqb x x = false.
Proof. destruct x as [sx|sx| |sx mx ex]; simpl; try discriminate; reflexivity. Qed.

(** X10.  After a successful [TryParseScalar] for a bilinear scaling,
    [getData] is [GetScaledUpBlData] when both factors are 1 or more,
    [GetScaledDownBoxData] when both are 1 or less and not both are 1 or
    more, and it is left as it was only when a factor is a NaN, which
    the checks of the function let through. *)
Theorem TryParseScalar_bilinear c c' a :
  TryParseScalar c = Done c' -> sArgs c' = Some a -> scaleType a = BILINEAR ->
  (getData (cArgs c') = Some fn_GetScaledUpBlData /\
   (dbl_1 <=? wScale a)%float = true /\ (dbl_1 <=? hScale a)%float = true) \/
  (getData (cArgs c') = Some fn_GetScaledDownBoxData /\
   (wScale a <=? dbl_1)%float = true /\ (hScale a <=? dbl_1)%float = true) \/
  (getData (cArgs c') = getData (cArgs c) /\
   (is_nan (wScale a) || is_nan (hScale a)) = true).
Proof.
  unfold TryParseScalar, scale_args.
  destruct (sArgs c) as [a0|]; cbn [bind]; [|discriminate].
  destruct (scan_scale _ _) as [a1| |]; cbn [bind]; try discriminate.
  cbv zeta. intros H Ha Hbl.
  assert (Hone : exists m e, Prim2SF dbl_1 = S754_finite false m e)
    by (vm_compute; eauto).
  destruct Hone as (m1 & e1 & Hone).
  unfold is_nan. rewrite !FloatAxioms.eqb_spec.
  rewrite !FloatAxioms.leb_spec, !FloatAxioms.ltb_spec in *.
  unfold SFleb, SFltb in *.
  rewrite !(SFcompare_antisym (Prim2SF (wScale a1)) (Prim2SF dbl_1)) in H.
  rewrite !(SFcompare_antisym (Prim2SF (hScale a1)) (Prim2SF dbl_1)) in H.
  assert (Ea : forall c1, Done (A := PgmConverter) (S := PgmConverter) c1 = Done c' ->
                          sArgs c1 = Some a1 -> a = a1).
  { intros c1 E E1. inversion E; subst. congruence. }
  destruct (scaleType a1) eqn:Hst.
  - exfalso.
    repeat match type of H with
           | context [if ?b then _ else _] => destruct b
           end; try discriminate;
      (assert (a = a1) by (apply (Ea _ H); reflexivity); subst; congruence).
  - pose proof (SFcompare_nan (Prim2SF (wScale a1)) m1 e1) as Nw.
    pose proof (SFcompare_nan (Prim2SF (hScale a1)) m1 e1) as Nh.
    rewrite <- Hone in Nw, Nh.
    destruct (SFcompare (Prim2SF (wScale a1)) (Prim2SF dbl_1)) as [[]|] eqn:Cw;
      destruct (SFcompare (Prim2SF (hScale a1)) (Prim2SF dbl_1)) as [[]|] eqn:Ch;
      cbn [option_map CompOpp andb orb] in H;
      repeat match type of H with
             | context [if ?b then _ else _] => destruct b
             end; try discriminate;
      (assert (a = a1) by (apply (Ea _ H); reflexivity); subst a;
       inversion H; subst c'; cbn [cArgs set_cArgs set_getData getData set_sArgs];
       rewrite ?Cw, ?Ch, ?(SFcompare_antisym (Prim2SF (wScale a1)) (Prim2SF dbl_1)),
         ?(SFcompare_antisym (Prim2SF (hScale a1)) (Prim2SF dbl_1)), ?Cw, ?Ch;
       cbn [option_map CompOpp];
       first [ left; repeat split; reflexivity
             | right; left; repeat split; reflexivity
             | right; right; split; [reflexivity|];
               rewrite ?(Nw eq_refl), ?(Nh eq_refl); cbn [negb orb];
               rewrite ?orb_true_r; reflexivity ]).
Qed.

Lemma TryParseScalar_bilinear_witness :
  TryParseScalar distinct_decoded = Done distinct_parsed /\
  ((getData (cArgs distinct_parsed) = Some fn_GetScaledUpBlData /\
    (dbl_1 <=? wScale distinct_args)%float = true /\
    (dbl_1 <=? hScale distinct_args)%float = true) \/
   (getData (cArgs distinct_parsed) = Some fn_GetScaledDownBoxData /\
    (wScale distinct_args <=? dbl_1)%float = true /\
    (hScale distinct_args <=? dbl_1)%float = true) \/
   (getData (cArgs distinct_parsed) = getData (cArgs distinct_decoded) /\
    (is_nan (wScale distinct_args) || is_nan (hScale distinct_args)) = true)).
Proof.
  assert (H : TryParseScalar distinct_decoded = Done distinct_parsed)
    by (vm_compute; reflexivity).
  split; [exact H|].
  apply (TryParseScalar_bilinear distinct_decoded distinct_parsed distinct_args H);
    vm_compute; reflexivity.
Defined.

(** ** The functions that return no [bool] *)

Lemma passes_bind {A B : Type} (m : result A) (k : A -> result B) :
  passes m -> (forall a, passes (k a)) -> passes (bind m k).
Proof. destruct m; simpl; auto. Qed.

Ltac pass :=
  repeat first
    [ exact I
    | assumption
    | apply passes_bind; [|intros]
    | match goal with
      | |- passes (if ?b then _ else _) => destruct b
      | |- passes (match ?x with _ => _ end) => destruct x
      | |- passes (let (_, _) := ?x in _) => destruct x
      end ].

Lemma passes_to_int z : passes (to_int z).
Proof. unfold to_int. pass. Qed.

Lemma passes_int_of_double x : passes (int_of_double x).
Proof. unfold int_of_double. pass. Qed.

Lemma passes_load c row col : passes (load c row col).
Proof. unfold load. pass. Qed.

Lemma passes_scale_args c : passes (scale_args c).
Proof. unfold scale_args. pass. Qed.

Lemma passes_stream_of p : passes (stream_of p).
Proof. unfold stream_of. pass. Qed.

Lemma passes_src_row a row : passes (src_row a row).
Proof. apply passes_int_of_double. Qed.

Lemma passes_src_col a col : passes (src_col a col).
Proof. apply passes_int_of_double. Qed.

Create HintDb passes.

#[local] Hint Resolve passes_to_int passes_int_of_double passes_load
  passes_scale_args passes_stream_of passes_src_row passes_src_col : passes.

Ltac pass_with := pass; auto with passes.

Lemma passes_ExtrapolateLinear x1 x2 : passes (ExtrapolateLinear x1 x2).
Proof. unfold ExtrapolateLinear. pass_with. Qed.

Lemma passes_pixel c a row col dr dc : passes (pixel c a row col dr dc).
Proof. unfold pixel, src_row, src_col. pass_with. Qed.

#[local] Hint Resolve passes_ExtrapolateLinear passes_pixel : passes.

Lemma passes_extrapolated c a row col dr dc : passes (extrapolated c a row col dr dc).
Proof. unfold extrapolated. pass_with. Qed.

Lemma passes_frac_row a row : passes (frac_row a row).
Proof. unfold frac_row, src_row. pass_with. Qed.

Lemma passes_frac_col a col : passes (frac_col a col).
Proof. unfold frac_col, src_col. pass_with. Qed.

Lemma passes_at_top a row : passes (at_top a row).
Proof. unfold at_top. pass_with. Qed.

Lemma passes_at_left a col : passes (at_left a col).
Proof. unfold at_left. pass_with. Qed.

Lemma passes_at_bottom c a row : passes (at_bottom c a row).
Proof. unfold at_bottom. pass_with. Qed.

Lemma passes_at_right c a col : passes (at_right c a col).
Proof. unfold at_right. pass_with. Qed.

#[local] Hint Resolve passes_extrapolated passes_frac_row passes_frac_col
  passes_at_top passes_at_left passes_at_bottom passes_at_right : passes.

Lemma passes_and_then p q : passes p -> passes q -> passes (and_then p q).
Proof. intros Hp Hq. unfold and_then. pass. Qed.

Lemma passes_bilinear x y f11 f12 f21 f22 : passes (bilinear x y f11 f12 f21 f22).
Proof. unfold bilinear. pass_with. Qed.

Lemma passes_linear x f1 f2 : passes (linear x f1 f2).
Proof. unfold linear. pass_with. Qed.

#[local] Hint Resolve passes_and_then passes_bilinear passes_linear : passes.

Lemma passes_GetScaledUpBlData c row col : passes (GetScaledUpBlData c row col).
Proof. unfold GetScaledUpBlData. pass_with. Qed.

Lemma passes_iterate {St Out : Type} (step : St -> result (St + Out)) fuel :
  (forall st, passes (step st)) -> forall st, passes (iterate fuel step st).
Proof.
  intros Hs. induction fuel as [|fuel IH]; intros st; cbn [iterate]; [apply Hs|].
  apply passes_bind; [apply IH|]. intros [st'|out]; [apply IH|exact I].
Qed.

Lemma passes_for_below {A : Type} bound (body : Z -> A -> result A) acc :
  (forall i a, passes (body i a)) -> passes (for_below bound body acc).
Proof.
  intros Hb. unfold for_below. apply passes_bind.
  - apply passes_iterate. intros [i a]. unfold for_step. pass_with.
  - intros [st|a]; exact I.
Qed.

Lemma passes_GetScaledDownBoxData c row col : passes (GetScaledDownBoxData c row col).
Proof.
  unfold GetScaledDownBoxData. apply passes_bind; [auto with passes|]. intros a.
  apply passes_bind.
  - apply passes_for_below. intros rs acc. apply passes_for_below.
    intros cs [dt cnt]. unfold box_cell. pass_with.
  - intros [dt cnt]. pass_with.
Qed.

Lemma passes_call_getData c row col : passes (call_getData c row col).
Proof.
  unfold call_getData. destruct (getData (cArgs c)) as [[]|]; try exact I.
  - unfold GetData. auto with passes.
  - unfold GetReflectedData. auto with passes.
  - unfold GetRotated90Data. pass_with.
  - unfold GetScaledNnData, src_row, src_col. pass_with.
  - apply passes_GetScaledUpBlData.
  - apply passes_GetScaledDownBoxData.
Qed.

Lemma passes_fprintf_oF s c : passes (fprintf_oF s c).
Proof. unfold fprintf_oF. pass_with. Qed.

#[local] Hint Resolve passes_call_getData passes_fprintf_oF : passes.

Lemma passes_write_cell row col c : passes (write_cell row col c).
Proof. unfold write_cell. pass_with. Qed.

Lemma passes_write_columns todo : forall row col c,
  passes (write_columns todo row col c).
Proof.
  induction todo as [|todo IH]; intros row col c; cbn [write_columns]; [exact I|].
  apply passes_bind; [apply passes_write_cell|]. intros c'. apply IH.
Qed.

Lemma passes_write_rows todo : forall row c, passes (write_rows todo row c).
Proof.
  induction todo as [|todo IH]; intros row c; cbn [write_rows]; [exact I|].
  apply passes_bind; [apply passes_write_columns|]. intros c'. apply IH.
Qed.

Lemma passes_EncodePgm c : passes (EncodePgm c).
Proof.
  unfold EncodePgm. apply passes_bind.
  - unfold WritePgmInfo. pass_with.
  - intros o. unfold WritePgmData. apply passes_write_rows.
Qed.

Lemma passes_CloseStreams c : passes (CloseStreams c).
Proof. unfold CloseStreams. pass. Qed.


(** ** A run that fails *)

Lemma fscanf_never_Failed {S : Type} f fmt msg (st : S) :
  fscanf f fmt <> Failed msg st.
Proof.
  unfold fscanf.
  pose proof (@scanf_never_Failed S fmt (String.length (f_in f)) (f_in f) false 0 nil) as H.
  destruct (scanf fmt _ (f_in f) false 0 nil); simpl; try discriminate.
  exfalso. eapply H. reflexivity.
Qed.

Lemma read_sample_Failed r msg c' :
  read_sample r = Failed msg c' ->
  msg = corrupted /\ oF c' = oF (rd_c r) /\
  (fStream (iF (rd_c r)) <> None -> fStream (iF c') <> None).
Proof.
  unfold read_sample, stream_of.
  destruct (type (iF (rd_c r))); [discriminate| |].
  - destruct (fStream (iF (rd_c r))) as [f|]; cbn [bind]; [|discriminate].
    destruct (fscanf f (d_i :: nil)) as [[[ret args] f']| |] eqn:E; cbn [bind];
      [|exfalso; exact (fscanf_never_Failed _ _ _ _ E)|discriminate].
    destruct (ret =? 0); [|discriminate].
    intros H; inversion H; subst. cbn. repeat split; auto; discriminate.
  - destruct (fStream (iF (rd_c r))) as [f|]; cbn [bind]; [|discriminate].
    destruct (fgetc f); discriminate.
Qed.

Lemma read_cell_Failed row col r msg c' :
  read_cell row col r = Failed msg c' ->
  msg = corrupted /\ oF c' = oF (rd_c r) /\
  (fStream (iF (rd_c r)) <> None -> fStream (iF c') <> None).
Proof.
  unfold read_cell.
  destruct (read_sample r) as [r1| |] eqn:E; cbn [bind]; [| |discriminate].
  - destruct (read_sample_frame _ _ E) as (Hs & _ & _).
    destruct Hs as (Ho & _ & _ & _ & _ & _ & _ & _ & Hst).
    unfold stream_of. destruct (fStream (iF (rd_c r1))) as [f1|] eqn:Hf1; cbn [bind];
      [|discriminate].
    destruct (feof f1); [discriminate|].
    unfold to_int. destruct (in_int _); cbn [bind]; [|discriminate].
    destruct (_ || _).
    + intros H; inversion H; subst. repeat split; auto.
      intros _. rewrite Hf1. discriminate.
    + unfold store. destruct (in_array row col); discriminate.
  - intros H; inversion H; subst. apply (read_sample_Failed _ _ _ E).
Qed.

Lemma read_columns_Failed todo : forall row col r msg c',
  read_columns todo row col r = Failed msg c' ->
  msg = corrupted /\ oF c' = oF (rd_c r) /\
  (fStream (iF (rd_c r)) <> None -> fStream (iF c') <> None).
Proof.
  induction todo as [|todo IH]; intros row col r msg c'; cbn [read_columns];
    [discriminate|].
  destruct (read_cell row col r) as [fl| |] eqn:E; cbn [bind]; [| |discriminate].
  - pose proof (read_cell_Done _ _ _ _ E) as Hd.
    destruct fl as [r1|r1]; [|discriminate].
    destruct Hd as (Hs & _). destruct Hs as (Ho & _ & _ & _ & _ & _ & _ & _ & Hst).
    intros H. destruct (IH _ _ _ _ _ H) as (Hm & Ho' & Hst').
    split; [exact Hm|]. split; [congruence|auto].
  - intros H; inversion H; subst. apply (read_cell_Failed _ _ _ _ _ E).
Qed.

Lemma read_rows_Failed todo : forall row r msg c',
  read_rows todo row r = Failed msg c' ->
  msg = corrupted /\ oF c' = oF (rd_c r) /\
  (fStream (iF (rd_c r)) <> None -> fStream (iF c') <> None).
Proof.
  induction todo as [|todo IH]; intros row r msg c'; cbn [read_rows];
    [discriminate|].
  destruct (read_columns _ row 0 r) as [r1| |] eqn:E; cbn [bind]; [| |discriminate].
  - destruct (read_columns_Done _ _ _ _ _ E) as (k & _ & _ & Hs & _).
    destruct Hs as (Ho & _ & _ & _ & _ & _ & _ & _ & Hst).
    intros H. destruct (IH _ _ _ _ H) as (Hm & Ho' & Hst').
    split; [exact Hm|]. split; [congruence|auto].
  - intros H; inversion H; subst. apply (read_columns_Failed _ _ _ _ _ _ E).
Qed.

Lemma TryReadPgmData_Failed c msg c' :
  TryReadPgmData c = Failed msg c' ->
  msg = corrupted /\ oF c' = oF c /\
  (fStream (iF c) <> None -> fStream (iF c') <> None).
Proof.
  unfold TryReadPgmData.
  destruct (read_rows _ 0 _) as [r| |] eqn:E; cbn [bind]; [| |discriminate].
  - destruct (read_rows_Done _ _ _ _ E) as (Hs & _). cbn [rd_c] in Hs.
    destruct Hs as (Ho & _ & _ & _ & _ & _ & _ & _ & Hst).
    destruct (PgmType_eqb (type (iF (rd_c r))) P5).
    + unfold stream_of. destruct (fStream (iF (rd_c r))) as [f|]; cbn [bind];
        [|discriminate].
      destruct (fgetc f) as [ch f'].
      destruct (negb (ch =? EOF)); cbn [bind].
      * intros H; inversion H; subst. cbn. repeat split; auto; discriminate.
      * unfold to_int. destruct (in_int _); cbn [bind]; [|discriminate].
        destruct (negb _); [|discriminate].
        intros H; inversion H; subst. cbn. repeat split; auto; discriminate.
    + cbn [bind]. unfold to_int. destruct (in_int _); cbn [bind]; [|discriminate].
      destruct (negb _); [|discriminate].
      intros H; inversion H; subst. repeat split; auto.
  - intros H; inversion H; subst. apply (read_rows_Failed _ _ _ _ _ E).
Qed.

Lemma TryReadPgmInfo_Failed c msg c' :
  TryReadPgmInfo c = Failed msg c' ->
  In msg failure_lines /\ oF c' = oF c /\ fStream (iF c') <> None.
Proof.
  unfold TryReadPgmInfo, stream_of.
  destruct (fStream (iF c)) as [f|]; cbn [bind]; [|discriminate].
  destruct (fscanf f header_format) as [[[ret args] f']| |] eqn:E; cbn [bind];
    [|exfalso; exact (fscanf_never_Failed _ _ _ _ E)|discriminate].
  cbv beta iota zeta.
  destruct (negb (4 =? ret)).
  - intros H; inversion H; subst. cbn. split; [auto|]. split; [reflexivity|discriminate].
  - set (c1 := set_iF _ c).
    assert (H1 : oF c1 = oF c /\ fStream (iF c1) <> None)
      by (subst c1; simpl; split; [reflexivity|discriminate]).
    clearbody c1.
    match goal with
    | |- context [if ?b then set_iF ?p c1 else c1] =>
        set (c2 := if b then set_iF p c1 else c1)
    end.
    assert (H2 : oF c2 = oF c /\ fStream (iF c2) <> None).
    { subst c2. destruct (_ && _); [|exact H1]. simpl. exact H1. }
    clearbody c2.
    destruct (negb _); [|discriminate].
    destruct (type (iF c2)); cbn [PgmTypeToStr]; [discriminate| |];
      intros H; inversion H; subst; (split; [cbn; auto|exact H2]).
Qed.

Lemma scan_scale_Failed c a msg s :
  scan_scale c a = Failed msg s -> msg = bad_scalar /\ s = c.
Proof.
  unfold scan_scale. repeat step_sscanf; try discriminate;
    intros E; inversion E; auto.
Qed.

Lemma TryParseScalar_Failed c msg c' :
  TryParseScalar c = Failed msg c' ->
  In msg failure_lines /\ oF c' = oF c /\ iF c' = iF c.
Proof.
  unfold TryParseScalar, scale_args.
  destruct (sArgs c) as [a|]; cbn [bind]; [|discriminate].
  destruct (scan_scale _ _) as [a'|m s|] eqn:E; cbn [bind]; [| |discriminate].
  - destruct (scaleType a');
      repeat match goal with
             | |- context [if ?b then _ else _] => destruct b
             end; try discriminate;
      intros H; inversion H; subst; (split; [cbn; auto 8|split; reflexivity]).
  - destruct (scan_scale_Failed _ _ _ _ E) as [-> ->].
    intros H; inversion H; subst. split; [cbn; auto 8|split; reflexivity].
Qed.

(** The output file set up before any scaling. *)
Lemma TrySetPgmInfo_unfold c :
  let p := mkPgmFile (fStream (oF c)) (fName (oF c))
             (if isSwapWidthHeight (cArgs c) then height (iF c) else width (iF c))
             (if isSwapWidthHeight (cArgs c) then width (iF c) else height (iF c))
             (maxDataValue (iF c))
             (match type (oF c) with UNKNOWN => type (iF c) | t => t end) in
  TrySetPgmInfo c =
    if isScale (cArgs c) then
      do c2 <- TryParseScalar (set_oF p c);
      do a <- scale_args c2;
      do h <- int_of_double (double_of_int (height (oF c2)) * hScale a);
      do w <- int_of_double (double_of_int (width (oF c2)) * wScale a);
      let c4 := set_oF (set_width w (set_height h (oF c2))) c2 in
      if (w >? 1920) || (h >? 1080) then Failed too_large c4 else Done c4
    else Done (set_oF p c).
Proof.
  destruct c as [i o [gd sw sc] sa d]. destruct sw, sc; reflexivity.
Qed.

Lemma int_of_double_never_Failed {S : Type} x msg (s : S) :
  int_of_double x <> Failed msg s.
Proof.
  unfold int_of_double. destruct (trunc x); [destruct (in_int _)|]; discriminate.
Qed.

Lemma TrySetPgmInfo_Failed c msg c' :
  TrySetPgmInfo c = Failed msg c' ->
  In msg failure_lines /\ fStream (oF c') = fStream (oF c) /\ iF c' = iF c.
Proof.
  rewrite TrySetPgmInfo_unfold. cbv zeta.
  destruct (isScale (cArgs c)); [|discriminate].
  rewrite TryParseScalar_set_oF.
  destruct (TryParseScalar c) as [c2|m s|] eqn:E; cbn [on_state bind];
    [| |discriminate].
  - destruct (TryParseScalar_frame _ _ E) as [Hi Ho].
    unfold scale_args. cbn [sArgs set_oF].
    destruct (sArgs c2) as [a|]; cbn [bind]; [|discriminate].
    do 2 match goal with
         | |- context [bind (int_of_double ?x) _] =>
             let Ex := fresh "Ex" in
             destruct (int_of_double (S := PgmConverter) x) as [?| |] eqn:Ex;
             cbn [bind];
             [|exfalso; exact (int_of_double_never_Failed _ _ _ Ex)|discriminate];
             clear Ex
         end.
    match goal with |- context [if ?b then _ else _] => destruct b end;
      [|discriminate].
    intros H; inversion H; subst. split; [cbn; auto 8|].
    cbn [oF iF set_oF set_width set_height fStream]. split; [reflexivity|exact Hi].
  - destruct (TryParseScalar_Failed _ _ _ E) as (Hm & Ho & Hi).
    intros H; inversion H; subst. split; [exact Hm|].
    cbn [oF iF set_oF fStream]. split; [reflexivity|exact Hi].
Qed.

Lemma TryConvertPgm_Failed fs c msg c' :
  TryConvertPgm fs c = Failed msg c' ->
  In msg failure_lines /\ fs (fName (iF c)) <> None /\
  fStream (oF c') = Some fopen_wb /\ output c' = "".
Proof.
  rewrite TryConvertPgm_stages.
  destruct (do c1 <- TryOpenStreams fs c; do c2 <- DecodePgm c1; TrySetPgmInfo c2)
    as [c4|m s|] eqn:E; [| |discriminate].
  - intros H.
    assert (P : passes (do c5 <- EncodePgm c4; CloseStreams c5)).
    { apply passes_bind; [apply passes_EncodePgm|]. intros c5. apply passes_CloseStreams. }
    rewrite H in P. destruct P.
  - unfold CloseStreams.
    destruct (fStream (iF s)) as [fi|] eqn:Hfi; [|discriminate].
    destruct (fStream (oF s)) as [fo|] eqn:Hfo; [|discriminate].
    cbn [bind]. intros H; inversion H; subst. clear H.
    destruct (fs (fName (iF c))) as [content0|] eqn:Hfs.
    + rewrite (TryOpenStreams_opened fs c content0 Hfs) in E.
      set (content := if String.eqb _ _ then _ else _) in E. clearbody content.
      cbn [bind] in E.
      assert (Hop : fStream (oF (opened content c)) = Some fopen_wb) by reflexivity.
      set (c1 := opened content c) in *. clearbody c1.
      assert (Hs : fStream (oF c') = Some fopen_wb).
      { unfold DecodePgm in E.
        destruct (TryReadPgmInfo c1) as [c2|m2 s2|] eqn:E1; cbn [bind] in E;
          [| |discriminate].
        - destruct (TryReadPgmInfo_Done _ _ E1) as [Ho1 _].
          destruct (TryReadPgmData c2) as [c3|m3 s3|] eqn:E2; cbn [bind] in E;
            [| |discriminate].
          + destruct (TryReadPgmData_Done _ _ E2) as (_ & _ & Hsame & _).
            destruct Hsame as (Ho2 & _).
            destruct (TrySetPgmInfo_Failed _ _ _ E) as (_ & Ho3 & _).
            congruence.
          + inversion E; subst.
            destruct (TryReadPgmData_Failed _ _ _ E2) as (_ & Ho2 & _). congruence.
        - inversion E; subst.
          destruct (TryReadPgmInfo_Failed _ _ _ E1) as (_ & Ho1 & _). congruence. }
      split; [|split; [discriminate|split; [exact Hs|]]].
      * unfold DecodePgm in E.
        destruct (TryReadPgmInfo c1) as [c2|m2 s2|] eqn:E1; cbn [bind] in E;
          [| |discriminate].
        -- destruct (TryReadPgmData c2) as [c3|m3 s3|] eqn:E2; cbn [bind] in E;
             [| |discriminate].
           ++ apply (TrySetPgmInfo_Failed _ _ _ E).
           ++ inversion E; subst.
              destruct (TryReadPgmData_Failed _ _ _ E2) as (-> & _). cbn; auto.
        -- inversion E; subst. apply (TryReadPgmInfo_Failed _ _ _ E1).
      * unfold output. rewrite Hs. reflexivity.
    + unfold TryOpenStreams in E. rewrite Hfs in E.
      inversion E; subst. cbn in Hfi. discriminate.
Qed.

(** X11.  A run that returns false has printed one of seven lines, it
    found the input file, and it leaves the output file created and
    empty: no byte of a header or of a sample is written before every
    check has passed. *)
Theorem failed_run_writes_nothing fs c msg c' :
  TryConvertPgm fs c = Failed msg c' ->
  In msg failure_lines /\ fs (fName (iF c)) <> None /\
  fStream (oF c') = Some fopen_wb /\ output c' = "".
Proof. apply TryConvertPgm_Failed. Qed.

Lemma failed_run_writes_nothing_witness :
  TryConvertPgm (one_file p3_pgm) (cmd_P2toP5 "in.pgm" "out.pgm")
    = Failed (message "Input is not in P2 format") p3_failed /\
  output p3_failed = "".
Proof.
  assert (H : TryConvertPgm (one_file p3_pgm) (cmd_P2toP5 "in.pgm" "out.pgm")
              = Failed (message "Input is not in P2 format") p3_failed)
    by (vm_compute; reflexivity).
  split; [exact H|].
  exact (proj2 (proj2 (proj2 (failed_run_writes_nothing _ _ _ _ H)))).
Defined.

(** ** A picture with no sample *)

Lemma read_rows_no_column todo : forall row r,
  width (iF (rd_c r)) <= 0 -> read_rows todo row r = Done r.
Proof.
  induction todo as [|todo IH]; intros row r Hw; cbn [read_rows]; [reflexivity|].
  replace (Z.to_nat (width (iF (rd_c r)))) with O by lia.
  cbn [read_columns bind]. apply IH, Hw.
Qed.

(** X12.  When the header declares no column or no row (a width or a
    height of 0 or less), [TryReadPgmData] reads nothing from a P2
    stream: it succeeds, the converter unchanged, when the product of
    width and height is 0, and fails as corrupted otherwise. *)
Theorem TryReadPgmData_no_sample c :
  type (iF c) = P2 ->
  width (iF c) <= 0 \/ height (iF c) <= 0 ->
  in_int (width (iF c) * height (iF c)) = true ->
  TryReadPgmData c =
    if width (iF c) * height (iF c) =? 0 then Done c else Failed corrupted c.
Proof.
  intros Ht Hwh Hint.
  assert (Hrows : read_rows (Z.to_nat (height (iF c))) 0 (mkReader c 0 0)
                  = Done (mkReader c 0 0)).
  { destruct (Z_le_gt_dec (width (iF c)) 0) as [Hw|Hw].
    - apply read_rows_no_column. exact Hw.
    - replace (Z.to_nat (height (iF c))) with O by lia. reflexivity. }
  unfold TryReadPgmData. rewrite Hrows. cbn [bind rd_c rd_dataCount].
  rewrite Ht. cbn [PgmType_eqb bind]. unfold to_int. rewrite Hint. cbn [bind].
  rewrite Z.eqb_sym. destruct (_ =? 0); reflexivity.
Qed.

Lemma TryReadPgmData_no_sample_witness :
  width (iF empty_header) = 0 /\
  TryReadPgmData empty_header = Done empty_header.
Proof.
  assert (Hw : width (iF empty_header) = 0) by (vm_compute; reflexivity).
  split; [exact Hw|].
  assert (H := TryReadPgmData_no_sample empty_header).
  rewrite Hw in H. apply H.
  - vm_compute; reflexivity.
  - left. lia.
  - reflexivity.
Defined.

(** ** What a P5 decode asks of the bytes after the header *)

Lemma skip_space_idem s : skip_space (skip_space s) = skip_space s.
Proof.
  induction s as [|c s IH]; [reflexivity|]. cbn [skip_space].
  destruct (isspace c) eqn:E; [exact IH|]. cbn [skip_space]. rewrite E. reflexivity.
Qed.

(** When the header scan assigns its four items it has taken the white
    space after the fourth: what it leaves does not begin with white
    space. *)
Lemma scanf_header_rest {S : Type} len s args rest :
  scanf (S := S) header_format len s false 0 nil = Done (4, args, rest) ->
  skip_space rest = rest.
Proof.
  unfold header_format. cbn [scanf].
  destruct (scan_s s) as [w r| r|]; [|intros H; inversion H..].
  destruct (_ <? _)%nat; [|discriminate].
  destruct (scan_not_nl _) as [w1 r1| r1|]; [|intros H; inversion H..].
  destruct (scan_i _) as [v2 r2| r2|]; [|intros H; inversion H..].
  destruct (in_int v2); [|discriminate].
  destruct (scan_i _) as [v3 r3| r3|]; [|intros H; inversion H..].
  destruct (in_int v3); [|discriminate].
  destruct (scan_i _) as [v4 r4| r4|]; [|intros H; inversion H..].
  destruct (in_int v4); [|discriminate].
  intros H; inversion H. apply skip_space_idem.
Qed.

Lemma TryReadPgmInfo_rest c c1 :
  TryReadPgmInfo c = Done c1 ->
  exists f1, fStream (iF c1) = Some f1 /\ skip_space (f_in f1) = f_in f1.
Proof.
  unfold TryReadPgmInfo, stream_of.
  destruct (fStream (iF c)) as [f|]; cbn [bind]; [|discriminate].
  unfold fscanf.
  destruct (scanf header_format _ (f_in f) false 0 nil) as [[[ret args] rest]| |] eqn:E;
    cbn [bind fst snd]; try discriminate.
  cbv beta iota zeta.
  destruct (negb (4 =? ret)) eqn:E4; [discriminate|].
  apply negb_false_iff, Z.eqb_eq in E4. subst ret.
  pose proof (scanf_header_rest _ _ _ _ E) as Hrest.
  set (c0 := set_iF _ c).
  assert (H0 : exists f1, fStream (iF c0) = Some f1 /\ skip_space (f_in f1) = f_in f1).
  { subst c0. cbn. eexists. split; [reflexivity|]. exact Hrest. }
  clearbody c0.
  match goal with
  | |- context [if ?b then set_iF ?p c0 else c0] =>
      set (c2 := if b then set_iF p c0 else c0)
  end.
  assert (H2 : exists f1, fStream (iF c2) = Some f1 /\ skip_space (f_in f1) = f_in f1).
  { subst c2. destruct (_ && _); [|exact H0]. cbn. exact H0. }
  clearbody c2.
  destruct (negb _).
  - destruct (PgmTypeToStr _); discriminate.
  - intros H; inversion H; subst. exact H2.
Qed.

(** One turn of the inner loop on a P5 stream takes one byte and counts
    it, or finds the stream at its end and stops.  The end-of-file
    indicator of the stream is set only once a read has found no byte. *)
Lemma read_cell_P5 row col r f fl :
  type (iF (rd_c r)) = P5 -> fStream (iF (rd_c r)) = Some f ->
  (f_eof f = true -> f_in f = "") ->
  read_cell row col r = Done fl ->
  match fl with
  | Next r' =>
      exists ch f', f_in f = String ch (f_in f') /\
                    fStream (iF (rd_c r')) = Some f' /\
                    (f_eof f' = true -> f_in f' = "") /\
                    data (rd_c r') = <[(row, col) := code ch]> (data (rd_c r)) /\
                    rd_dataCount r' = rd_dataCount r + 1
  | Break r' =>
      exists f', f_in f = "" /\ fStream (iF (rd_c r')) = Some f' /\ f_in f' = "" /\
                 rd_dataCount r' = rd_dataCount r
  end.
Proof.
  intros Ht Hf Hwf. unfold read_cell, read_sample, stream_of. rewrite Ht, Hf.
  cbn [bind]. unfold fgetc.
  destruct (f_in f) as [|ch s] eqn:Hin; cbn [bind rd_c rd_data rd_dataCount iF set_iF
    fStream set_fStream feof f_eof].
  - intros H; inversion H; subst. eexists. cbn. repeat split; reflexivity.
  - destruct (f_eof f) eqn:He; [specialize (Hwf eq_refl); discriminate|].
    unfold to_int. destruct (in_int _); cbn [bind]; [|discriminate].
    destruct (_ || _); [discriminate|].
    unfold store. destruct (in_array row col); cbn [bind]; [|discriminate].
    intros H; inversion H; subst. exists ch, (mkFILE s false (f_out f)).
    cbn. repeat split; try reflexivity. discriminate.
Qed.

Lemma read_columns_P5 todo : forall row col r f r',
  type (iF (rd_c r)) = P5 -> fStream (iF (rd_c r)) = Some f ->
  (f_eof f = true -> f_in f = "") ->
  read_columns todo row col r = Done r' ->
  exists f',
    fStream (iF (rd_c r')) = Some f' /\ (f_eof f' = true -> f_in f' = "") /\
    Z.of_nat (String.length (f_in f))
      = Z.of_nat (String.length (f_in f')) + (rd_dataCount r' - rd_dataCount r) /\
    (rd_dataCount r' < rd_dataCount r + Z.of_nat todo -> f_in f' = "").
Proof.
  induction todo as [|todo IH]; intros row col r f r' Ht Hf Hwf; cbn [read_columns].
  - intros H; inversion H; subst. exists f. repeat split; auto; lia.
  - destruct (read_cell row col r) as [fl| |] eqn:E; cbn [bind]; try discriminate.
    pose proof (read_cell_P5 _ _ _ _ _ Ht Hf Hwf E) as Hc.
    pose proof (read_cell_Done _ _ _ _ E) as Hd.
    destruct fl as [r1|r1].
    + destruct Hc as (ch & f1 & Hin & Hf1 & Hwf1 & _ & Hcnt).
      destruct Hd as (Hs & _). destruct Hs as (_ & _ & _ & _ & _ & _ & _ & Ht1 & _).
      intros H.
      destruct (IH row (col + 1) r1 f1 r' ltac:(congruence) Hf1 Hwf1 H)
        as (f' & Hf' & Hwf' & Hlen & Hshort).
      exists f'. split; [exact Hf'|]. split; [exact Hwf'|]. split.
      * rewrite Hin. cbn [String.length]. lia.
      * intros Hlt. apply Hshort. lia.
    + destruct Hc as (f1 & Hin & Hf1 & Hin1 & Hcnt).
      intros H; inversion H; subst. exists f1.
      split; [exact Hf1|]. split; [auto|]. split.
      * rewrite Hin, Hin1. cbn. lia.
      * auto.
Qed.

Lemma read_rows_P5 todo : forall row r f r',
  type (iF (rd_c r)) = P5 -> fStream (iF (rd_c r)) = Some f ->
  (f_eof f = true -> f_in f = "") ->
  read_rows todo row r = Done r' ->
  exists f',
    fStream (iF (rd_c r')) = Some f' /\ (f_eof f' = true -> f_in f' = "") /\
    Z.of_nat (String.length (f_in f))
      = Z.of_nat (String.length (f_in f')) + (rd_dataCount r' - rd_dataCount r).
Proof.
  induction todo as [|todo IH]; intros row r f r' Ht Hf Hwf; cbn [read_rows].
  - intros H; inversion H; subst. exists f. repeat split; auto; lia.
  - destruct (read_columns _ row 0 r) as [r1| |] eqn:E; cbn [bind]; try discriminate.
    destruct (read_columns_P5 _ _ _ _ _ _ Ht Hf Hwf E) as (f1 & Hf1 & Hwf1 & Hlen1 & _).
    destruct (read_columns_Done _ _ _ _ _ E) as (k & _ & _ & Hs & _).
    destruct Hs as (_ & _ & _ & _ & _ & _ & _ & Ht1 & _).
    intros H.
    destruct (IH (row + 1) r1 f1 r' ltac:(congruence) Hf1 Hwf1 H)
      as (f' & Hf' & Hwf' & Hlen).
    exists f'. split; [exact Hf'|]. split; [exact Hwf'|]. lia.
Qed.

Lemma TryReadPgmData_P5_length c f c' :
  type (iF c) = P5 -> fStream (iF c) = Some f ->
  (f_eof f = true -> f_in f = "") ->
  TryReadPgmData c = Done c' ->
  Z.of_nat (String.length (f_in f)) = width (iF c) * height (iF c).
Proof.
  intros Ht Hf Hwf Hd.
  destruct (TryReadPgmData_Done _ _ Hd) as (r' & Hrows & _ & _ & Hcnt & _).
  destruct (read_rows_P5 _ 0 (mkReader c 0 0) f r' Ht Hf Hwf Hrows)
    as (f' & Hf' & Hwf' & Hlen).
  cbn [rd_c rd_dataCount] in *.
  assert (Hend : f_in f' = "").
  { unfold TryReadPgmData in Hd. rewrite Hrows in Hd. cbn [bind] in Hd.
    destruct (read_rows_Done _ _ _ _ Hrows) as (Hs & _). cbn [rd_c] in Hs.
    destruct Hs as (_ & _ & _ & _ & _ & _ & _ & Ht1 & _).
    rewrite Ht1, Ht in Hd. cbn [PgmType_eqb] in Hd. unfold stream_of in Hd.
    rewrite Hf' in Hd. cbn [bind] in Hd. unfold fgetc in Hd.
    destruct (f_in f'); [reflexivity|].
    assert (Hne : code a <> EOF) by (unfold code, EOF; lia).
    apply Z.eqb_neq in Hne. rewrite Hne in Hd. discriminate. }
  rewrite Hend in Hlen. cbn in Hlen. lia.
Qed.

Lemma skip_space_head s c r : skip_space s = String c r -> isspace c = false.
Proof.
  induction s as [|a s IH]; cbn [skip_space]; [discriminate|].
  destruct (isspace a) eqn:E; [exact IH|]. intros H; inversion H; subst. exact E.
Qed.

Lemma TryReadPgmInfo_stream c c1 :
  (forall f, fStream (iF c) = Some f -> f_eof f = false) ->
  TryReadPgmInfo c = Done c1 ->
  exists f1, fStream (iF c1) = Some f1 /\ (f_eof f1 = true -> f_in f1 = "").
Proof.
  intros Hfresh. unfold TryReadPgmInfo, stream_of.
  destruct (fStream (iF c)) as [f|] eqn:Hf; cbn [bind]; [|discriminate].
  unfold fscanf.
  destruct (scanf header_format _ (f_in f) false 0 nil) as [[[ret args] rest]| |] eqn:E;
    cbn [bind fst snd]; try discriminate.
  cbv beta iota zeta.
  destruct (negb (4 =? ret)) eqn:E4; [discriminate|].
  set (c0 := set_iF _ c).
  assert (H0 : exists f1, fStream (iF c0) = Some f1 /\ (f_eof f1 = true -> f_in f1 = "")).
  { subst c0. cbn. eexists. split; [reflexivity|]. cbn.
    rewrite (Hfresh f eq_refl). cbn. destruct rest; [reflexivity|discriminate]. }
  clearbody c0.
  match goal with
  | |- context [if ?b then set_iF ?p c0 else c0] =>
      set (c2 := if b then set_iF p c0 else c0)
  end.
  assert (H2 : exists f1, fStream (iF c2) = Some f1 /\ (f_eof f1 = true -> f_in f1 = "")).
  { subst c2. destruct (_ && _); [|exact H0]. cbn. exact H0. }
  clearbody c2.
  match goal with |- context [if ?b then _ else Done c2] => destruct b end.
  - destruct (PgmTypeToStr _); discriminate.
  - intros H; inversion H; subst. exact H2.
Qed.

(** X13.  A P5 decode succeeds only when exactly width x height bytes
    are left after the header scan, which has taken all the white space
    after the maximum: so the first sample of a decoded P5 picture is
    never the code of a white space character (9 to 13, or 32); a
    picture that begins with such a byte cannot be read. *)
Theorem DecodePgm_P5_body content c0 c1 c' f1 :
  TryReadPgmInfo (opened content c0) = Done c1 ->
  fStream (iF c1) = Some f1 ->
  TryReadPgmData c1 = Done c' ->
  type (iF c1) = P5 ->
  Z.of_nat (String.length (f_in f1)) = width (iF c1) * height (iF c1) /\
  (1 <= width (iF c1) -> 1 <= height (iF c1) ->
   exists ch rest,
     f_in f1 = String ch rest /\ isspace ch = false /\
     sample c' 0 0 = Some (code ch)).
Proof.
  intros Hinfo Hf1 Hdata Ht.
  destruct (TryReadPgmInfo_rest _ _ Hinfo) as (f1' & Hf1' & Hsk).
  assert (Hfresh : forall f, fStream (iF (opened content c0)) = Some f -> f_eof f = false)
    by (intros f Hf; inversion Hf; reflexivity).
  destruct (TryReadPgmInfo_stream _ _ Hfresh Hinfo) as (f1'' & Hf1'' & Hwf).
  assert (f1' = f1) by congruence. assert (f1'' = f1) by congruence. subst f1' f1''.
  pose proof (TryReadPgmData_P5_length c1 f1 c' Ht Hf1 Hwf Hdata) as Hlen.
  split; [exact Hlen|]. intros Hw Hh.
  destruct (f_in f1) as [|ch rest] eqn:Hin; [cbn in Hlen; nia|].
  assert (Hwf1 : f_eof f1 = true -> f_in f1 = "") by (rewrite Hin; exact Hwf).
  exists ch, rest. split; [reflexivity|].
  split; [exact (skip_space_head _ _ _ Hsk)|].
  destruct (TryReadPgmData_Done _ _ Hdata) as (r' & Hrows & _ & Hd & _).
  unfold sample. rewrite Hd.
  destruct (Z.to_nat (height (iF c1))) as [|n] eqn:En; [lia|].
  cbn [read_rows rd_c] in Hrows.
  destruct (Z.to_nat (width (iF c1))) as [|k] eqn:Ek; [lia|].
  cbn [read_columns] in Hrows.
  destruct (read_cell 0 0 (mkReader c1 0 0)) as [fl| |] eqn:Ec; cbn [bind] in Hrows;
    try discriminate.
  pose proof (read_cell_P5 0 0 (mkReader c1 0 0) f1 fl Ht Hf1 Hwf1 Ec) as Hc.
  destruct fl as [r1|r1].
  - destruct Hc as (ch' & f2 & Hin2 & _ & _ & Hd1 & _).
    rewrite Hin in Hin2. inversion Hin2; subst ch'.
    destruct (read_columns k 0 (0 + 1) r1) as [r2| |] eqn:Ecols; cbn [bind] in Hrows;
      try discriminate.
    destruct (read_columns_Done _ _ _ _ _ Ecols) as (k' & _ & _ & _ & Hkeep & _).
    destruct (read_rows_Done _ _ _ _ Hrows) as (_ & _ & Hkeep' & _).
    rewrite Hkeep' by lia. rewrite Hkeep by lia. rewrite Hd1.
    apply lookup_insert_eq.
  - destruct Hc as (f2 & Hin2 & _). rewrite Hin in Hin2. discriminate.
Qed.

Lemma DecodePgm_P5_body_witness :
  TryReadPgmData column_header = Done column_read /\
  Z.of_nat (String.length (f_in column_stream))
    = width (iF column_header) * height (iF column_header).
Proof.
  assert (H : TryReadPgmData column_header = Done column_read)
    by (vm_compute; reflexivity).
  split; [exact H|].
  refine (proj1 (DecodePgm_P5_body column_pgm (cmd_P5toP2 "in.pgm" "out.pgm")
                   column_header column_read column_stream _ _ H _));
    vm_compute; reflexivity.
Defined.

(** ** Scaling by a whole number *)












(** ** The hexadecimal dump *)

Lemma all_chars_app p a b :
  all_chars p (a ++ b) = all_chars p a && all_chars p b.
Proof.
  induction a as [|c a IH]; [reflexivity|].
  rewrite append_String. cbn [all_chars]. rewrite IH, andb_assoc. reflexivity.
Qed.

Lemma newlines_app a b : newlines (a ++ b) = newlines a + newlines b.
Proof.
  induction a as [|c a IH]; [reflexivity|].
  rewrite append_String. cbn [newlines]. rewrite IH. lia.
Qed.

Lemma printable_no_newline s : all_chars printable s = true -> newlines s = 0.
Proof.
  induction s as [|c s IH]; [reflexivity|]. cbn [all_chars newlines].
  intros H. apply andb_true_iff in H. destruct H as [Hc Hs].
  rewrite (IH Hs). unfold printable in Hc.
  replace (code c =? 10) with false by lia. reflexivity.
Qed.

Lemma hex_digit_printable upper d :
  0 <= d < 16 -> printable (hex_digit upper d) = true.
Proof.
  intros Hd.
  assert (H : d = 0 \/ d = 1 \/ d = 2 \/ d = 3 \/ d = 4 \/ d = 5 \/ d = 6 \/ d = 7 \/
              d = 8 \/ d = 9 \/ d = 10 \/ d = 11 \/ d = 12 \/ d = 13 \/ d = 14 \/
              d = 15) by lia.
  destruct upper;
    repeat (destruct H as [->|H]; [reflexivity|]); subst; reflexivity.
Qed.

Lemma hex_digits_printable upper fuel : forall n acc,
  0 <= n -> all_chars printable acc = true ->
  all_chars printable (hex_digits upper fuel n acc) = true.
Proof.
  induction fuel as [|fuel IH]; intros n acc Hn Hacc; cbn [hex_digits]; [exact Hacc|].
  destruct (n =? 0); [exact Hacc|].
  apply IH.
  - apply Z.div_pos; lia.
  - cbn [all_chars]. rewrite Hacc, hex_digit_printable; [reflexivity|].
    apply Z.mod_pos_bound. lia.
Qed.

Lemma zeros_printable n : all_chars printable (zeros n) = true.
Proof. induction n as [|n IH]; [reflexivity|]. cbn [zeros all_chars]. rewrite IH. reflexivity. Qed.

Lemma print_hex_printable upper width n :
  0 <= n -> all_chars printable (print_hex upper width n) = true.
Proof.
  intros Hn. unfold print_hex. rewrite all_chars_app, zeros_printable.
  apply hex_digits_printable; [exact Hn|reflexivity].
Qed.

Lemma dump_byte_printable c : all_chars printable (dump_byte c) = true.
Proof.
  unfold dump_byte. cbv zeta.
  rewrite !all_chars_app, print_hex_printable by (unfold code; lia).
  destruct ((32 <=? code c) && (code c <=? 126)) eqn:E; [|reflexivity].
  cbn [all_chars]. unfold printable. rewrite E. reflexivity.
Qed.

Lemma dump_chunk_printable chunk : all_chars printable (dump_chunk chunk) = true.
Proof.
  induction chunk as [|c chunk IH]; [reflexivity|]. cbn [dump_chunk].
  rewrite all_chars_app, dump_byte_printable, IH. reflexivity.
Qed.

Lemma all_chars_weaken (p q : ascii -> bool) s :
  (forall c, p c = true -> q c = true) ->
  all_chars p s = true -> all_chars q s = true.
Proof.
  intros Hpq. induction s as [|c s IH]; [reflexivity|]. cbn [all_chars].
  intros H. apply andb_true_iff in H. destruct H as [Hc Hs].
  rewrite (Hpq c Hc), (IH Hs). reflexivity.
Qed.

Lemma printable_text s :
  all_chars printable s = true -> all_chars printable_or_newline s = true.
Proof.
  apply all_chars_weaken. intros c H. unfold printable_or_newline. rewrite H. reflexivity.
Qed.

Lemma length_take n : forall s, String.length (take n s) = Nat.min n (String.length s).
Proof.
  induction n as [|n IH]; intros [|c s]; cbn [take String.length]; try reflexivity.
  rewrite IH. reflexivity.
Qed.

Lemma length_drop n : forall s, String.length (drop n s) = (String.length s - n)%nat.
Proof.
  induction n as [|n IH]; intros [|c s]; cbn [drop String.length]; try reflexivity.
  apply IH.
Qed.

Lemma take_all n : forall s, (String.length s <= n)%nat -> take n s = s.
Proof.
  induction n as [|n IH]; intros [|c s]; cbn [take String.length]; intros H;
    try reflexivity; [lia|].
  rewrite IH by lia. reflexivity.
Qed.

(** The loop ends within its turns; what it writes ends with the line
    of the total, and before that line come one line for every eight
    bytes or part of eight, all of printable characters. *)
Lemma dump_loop_text turns : forall input total,
  (String.length input / 8 < turns)%nat ->
  0 <= total -> total + Z.of_nat (String.length input) <= INT_MAX ->
  exists body,
    dump_loop turns input total
      = Done (body ++ print_hex false 7 (total + Z.of_nat (String.length input)) ++ nl) /\
    all_chars printable_or_newline body = true /\
    newlines body = (Z.of_nat (String.length input) + 7) / 8.
Proof.
  induction turns as [|turns IH]; intros input total Hturns Htot Hmax; [lia|].
  cbn [dump_loop]. cbv zeta.
  pose proof (length_take 8 input) as Hlen.
  destruct (Z.of_nat (String.length (take 8 input)) =? 0) eqn:E0.
  - assert (Hz : String.length input = O) by lia.
    exists "". rewrite Hz. cbn [String.append]. rewrite Z.add_0_r.
    repeat split; reflexivity.
  - unfold to_int.
    replace (in_int (total + Z.of_nat (String.length (take 8 input)))) with true
      by (unfold in_int, INT_MIN, INT_MAX in *; lia).
    cbn [bind].
    set (line := print_hex false 7 total ++ dump_chunk (take 8 input) ++ nl).
    assert (Hline : all_chars printable_or_newline line = true /\ newlines line = 1).
    { subst line. split.
      - rewrite !all_chars_app.
        rewrite (printable_text _ (print_hex_printable false 7 total Htot)).
        rewrite (printable_text _ (dump_chunk_printable _)). reflexivity.
      - rewrite !newlines_app.
        rewrite (printable_no_newline _ (print_hex_printable false 7 total Htot)).
        rewrite (printable_no_newline _ (dump_chunk_printable _)). reflexivity. }
    destruct Hline as [Hp Hn].
    destruct (Z.of_nat (String.length (take 8 input)) <? 8) eqn:E8.
    + assert (Hshort : (String.length input <= 8)%nat) by lia.
      rewrite (take_all 8 input Hshort) in *.
      exists line. split; [reflexivity|]. split; [exact Hp|].
      rewrite Hn.
      assert (1 <= Z.of_nat (String.length input) <= 7) by lia.
      apply Z.div_unique with (r := Z.of_nat (String.length input) - 1); lia.
    + assert (Hlong : (8 <= String.length input)%nat) by lia.
      assert (Hl8 : Z.of_nat (String.length (take 8 input)) = 8) by lia.
      rewrite Hl8.
      pose proof (length_drop 8 input) as Hdrop.
      destruct (IH (drop 8 input) (total + 8)) as (body & Hrun & Hbp & Hbn).
      * rewrite Hdrop.
        assert (String.length input / 8 = S ((String.length input - 8) / 8))%nat.
        { replace (String.length input) with ((String.length input - 8) + 1 * 8)%nat at 1
            by lia.
          rewrite Nat.div_add by lia. lia. }
        lia.
      * lia.
      * rewrite Hdrop. lia.
      * rewrite Hrun. cbn [bind]. exists (line ++ body).
        rewrite Hdrop. rewrite append_assoc.
        replace (total + 8 + Z.of_nat (String.length input - 8))
          with (total + Z.of_nat (String.length input)) by lia.
        split; [reflexivity|]. split.
        -- rewrite all_chars_app, Hp, Hbp. reflexivity.
        -- rewrite newlines_app, Hn, Hbn, Hdrop.
           replace (Z.of_nat (String.length input) + 7)
             with (Z.of_nat (String.length input - 8) + 7 + 1 * 8) by lia.
           rewrite Z.div_add by lia. lia.
Qed.

(** X15.  On a stream of fewer than 2^31 bytes [PrintHexDump] returns;
    what it writes ends with a line that holds the number of bytes in
    hexadecimal, and before that line come as many lines as there are
    groups of eight bytes, the last group possibly shorter. *)
Theorem PrintHexDump_lines input :
  Z.of_nat (String.length input) <= INT_MAX ->
  exists body,
    PrintHexDump input
      = Done (body ++ print_hex false 7 (Z.of_nat (String.length input)) ++ nl) /\
    newlines body = (Z.of_nat (String.length input) + 7) / 8.
Proof.
  intros Hmax. unfold PrintHexDump.
  destruct (dump_loop_text (S (String.length input / 8)) input 0)
    as (body & Hrun & _ & Hn); [lia|lia|lia|].
  exists body. split; [exact Hrun|exact Hn].
Qed.

Lemma PrintHexDump_lines_witness :
  exists body,
    PrintHexDump "Hello, world"
      = Done (body ++ print_hex false 7 12 ++ nl) /\
    newlines body = 2.
Proof.
  apply (PrintHexDump_lines "Hello, world"). vm_compute. discriminate.
Defined.

Lemma Done_eq {S A : Type} (a b : A) : Done (S := S) a = Done b -> a = b.
Proof. congruence. Qed.

Lemma dump_loop_printable turns : forall input total text,
  0 <= total -> dump_loop turns input total = Done text ->
  all_chars printable_or_newline text = true.
Proof.
  induction turns as [|turns IH]; intros input total text Htot; cbn [dump_loop];
    [discriminate|].
  cbv zeta.
  assert (Hfinal : forall n, 0 <= n ->
            all_chars printable_or_newline (print_hex false 7 n ++ nl) = true).
  { intros n Hn. rewrite all_chars_app.
    rewrite (printable_text _ (print_hex_printable false 7 n Hn)). reflexivity. }
  destruct (_ =? 0).
  - intros H; apply Done_eq in H; subst text. apply Hfinal, Htot.
  - unfold to_int. destruct (in_int _); cbn [bind]; [|discriminate].
    assert (Hline : all_chars printable_or_newline
                      (print_hex false 7 total ++ dump_chunk (take 8 input) ++ nl) = true).
    { rewrite !all_chars_app.
      rewrite (printable_text _ (print_hex_printable false 7 total Htot)).
      rewrite (printable_text _ (dump_chunk_printable _)). reflexivity. }
    destruct (_ <? 8).
    + intros H; apply Done_eq in H; subst text. rewrite all_chars_app, Hline.
      apply Hfinal. lia.
    + destruct (dump_loop turns _ _) as [more| |] eqn:E; cbn [bind]; try discriminate.
      intros H; apply Done_eq in H; subst text. rewrite all_chars_app, Hline.
      eapply IH; [|exact E]. lia.
Qed.

(** X16.  Whatever the bytes dumped, [PrintHexDump] writes text: every
    character written is a printable character of ASCII or a newline. *)
Theorem PrintHexDump_writes_text input text :
  PrintHexDump input = Done text ->
  all_chars printable_or_newline text = true.
Proof. apply dump_loop_printable. lia. Qed.

Lemma PrintHexDump_writes_text_witness :
  exists text,
    PrintHexDump "Hello, world" = Done text /\
    all_chars printable_or_newline text = true.
Proof.
  eexists. split; [vm_compute; reflexivity|].
  apply (PrintHexDump_writes_text "Hello, world"). vm_compute. reflexivity.
Defined.

(** ** Main *)

Lemma message_not_empty text : message text <> "".
Proof.
  unfold message. destruct text; [discriminate|]. rewrite append_String. discriminate.
Qed.

Lemma failure_line_not_empty msg : In msg failure_lines -> msg <> "".
Proof.
  unfold failure_lines. cbn [In].
  intros [<-|[<-|[<-|[<-|[<-|[<-|[<-|[]]]]]]]]; apply message_not_empty.
Qed.

Lemma dump_loop_passes turns : forall input total msg s,
  dump_loop turns input total <> Failed msg s.
Proof.
  induction turns as [|turns IH]; intros input total msg s; cbn [dump_loop];
    [discriminate|].
  cbv zeta. destruct (_ =? 0); [discriminate|].
  unfold to_int. destruct (in_int _); cbn [bind]; [|discriminate].
  destruct (_ <? 8); [discriminate|].
  destruct (dump_loop turns _ _) as [more|m' s'|] eqn:E; cbn [bind]; try discriminate.
  exfalso. exact (IH _ _ _ _ E).
Qed.

Lemma TryPrintHexDump_Failed fs i argv text s :
  TryPrintHexDump fs i argv = Failed text s -> text <> "".
Proof.
  unfold TryPrintHexDump.
  destruct (negb (stdin_length i =? 0)).
  - intros H. exfalso. exact (dump_loop_passes _ _ _ _ _ H).
  - destruct (negb _).
    + intros H; inversion H. discriminate.
    + destruct (fs _).
      * intros H. exfalso. exact (dump_loop_passes _ _ _ _ _ H).
      * intros H; inversion H. apply message_not_empty.
Qed.

Lemma convert_status fs c r :
  convert fs c = Done r ->
  (status r = 0 /\ err r = "") \/
  (status r = 1 /\ err r <> "" /\ out r = "" /\
   exists name, written r = Some (name, "")).
Proof.
  unfold convert. destruct (TryConvertPgm fs c) as [c'|msg c'|] eqn:E; [| |discriminate].
  - intros H; inversion H; subst. left. split; reflexivity.
  - intros H; inversion H; subst. right.
    destruct (TryConvertPgm_Failed _ _ _ _ E) as (Hmsg & _ & _ & Hout).
    cbn. rewrite Hout. repeat split; eauto using failure_line_not_empty.
Qed.

(** X17.  [main] returns 0 or 1.  When it returns 0 nothing was written
    on [stderr]; when it returns 1 an error was written on [stderr],
    nothing on [stdout], and the output file, if a conversion opened
    one, is empty. *)
Theorem main_status fs i argv r :
  main fs i argv = Done r ->
  (status r = 0 /\ err r = "") \/
  (status r = 1 /\ err r <> "" /\ out r = "" /\
   (written r = None \/ exists name, written r = Some (name, ""))).
Proof.
  unfold main. cbv zeta.
  assert (Hbad : forall r0, Done (S := unit) (mkRun 1 "" (bad_arguments ++ PrintUsage) None)
                            = Done r0 ->
          (status r0 = 0 /\ err r0 = "") \/
          (status r0 = 1 /\ err r0 <> "" /\ out r0 = "" /\
           (written r0 = None \/ exists name, written r0 = Some (name, "")))).
  { intros r0 H; inversion H; subst. right. cbn. repeat split; auto; discriminate. }
  assert (Hconv : forall c r0, convert fs c = Done r0 ->
          (status r0 = 0 /\ err r0 = "") \/
          (status r0 = 1 /\ err r0 <> "" /\ out r0 = "" /\
           (written r0 = None \/ exists name, written r0 = Some (name, "")))).
  { intros c r0 H. destruct (convert_status _ _ _ H) as [?|(?&?&?&?)]; [left|right]; auto. }
  destruct (length argv =? 1)%nat; [apply Hbad|].
  destruct (nth_error argv 1) as [cmd|]; [|discriminate].
  destruct (_ && _).
  { intros H; inversion H; subst. left. split; reflexivity. }
  destruct (_ && _).
  { intros H; inversion H; subst. left. split; reflexivity. }
  destruct (String.eqb cmd "--hexdump").
  { destruct (TryPrintHexDump fs i argv) as [text|text s|] eqn:E; [| |discriminate].
    - intros H; inversion H; subst. left. split; reflexivity.
    - intros H; inversion H; subst. right. cbn.
      repeat split; auto. exact (TryPrintHexDump_Failed _ _ _ _ _ E). }
  repeat (destruct (_ && _); [apply Hconv|]).
  apply Hbad.
Qed.

Lemma main_status_witness :
  main (one_file p3_pgm) (mkSTDIN true "")
       ("pnmdump" :: "--P2toP5" :: "in.pgm" :: "out.pgm" :: nil) = Done p3_run /\
  ((status p3_run = 0 /\ err p3_run = "") \/
   (status p3_run = 1 /\ err p3_run <> "" /\ out p3_run = "" /\
    (written p3_run = None \/ exists name, written p3_run = Some (name, "")))).
Proof.
  assert (H : main (one_file p3_pgm) (mkSTDIN true "")
                ("pnmdump" :: "--P2toP5" :: "in.pgm" :: "out.pgm" :: nil) = Done p3_run)
    by (vm_compute; reflexivity).
  split; [exact H|]. exact (main_status _ _ _ _ H).
Defined.

(** ** Reading what was written *)

(** X18.  Reading a pgm file stores exactly its picture: the two reading
    steps succeed, the converter holds the width, height, maximum and
    type of the header, the array holds the sample of the file at every
    (row, col) of the picture, and every other cell of the array is as
    it was. *)
Theorem DecodePgm_reads_file c0 content t w h m px :
  pgm_file content t w h m px ->
  type (iF c0) = UNKNOWN \/ type (iF c0) = t ->
  exists c',
    DecodePgm (opened content c0) = Done c' /\
    descriptor c' = (w, h, m, t) /\
    forall i j,
      sample c' i j = if inside w h i j then Some (px i j) else sample c0 i j.
Proof.
  intros Hfile Hty.
  destruct (DecodePgm_file c0 content t w h m px Hfile Hty)
    as (c' & Hdec & Hdesc & _ & _ & _ & _ & _ & Hdata).
  exists c'. repeat split; assumption.
Qed.

Lemma DecodePgm_reads_file_witness :
  exists c',
    DecodePgm (opened grey_pgm (cmd_rotate "in.pgm" "out.pgm")) = Done c' /\
    descriptor c' = (2, 2, 255, P2) /\
    forall i j,
      sample c' i j
        = if inside 2 2 i j then Some (grey_px i j)
          else sample (cmd_rotate "in.pgm" "out.pgm") i j.
Proof.
  exact (DecodePgm_reads_file (cmd_rotate "in.pgm" "out.pgm") grey_pgm P2 2 2 255 grey_px
           grey_pgm_file (or_introl eq_refl)).
Defined.

(** X19.  What the two writing steps write, the two reading steps read
    back: when [getData] gives the sample [g row col] of a picture of
    [h] rows of [w] samples between 0 and the maximum, written as P2
    with two columns or more, or as P5 with samples up to 255 and a
    first sample that is not the code of a white space character, then
    decoding the bytes written gives the same width, height, maximum and
    type and the samples [g row col]. *)
Theorem EncodePgm_DecodePgm c c0 g name :
  fStream (oF c) = Some fopen_wb ->
  PgmTypeToStr (type (oF c)) = Some name ->
  1 <= width (oF c) <= 512 -> 1 <= height (oF c) <= 512 ->
  maxDataValue (oF c) <= INT_MAX ->
  (forall i j, 0 <= i < height (oF c) -> 0 <= j < width (oF c) ->
     call_getData c i j = Done (g i j) /\ 0 <= g i j <= maxDataValue (oF c)) ->
  (type (oF c) = P2 -> 2 <= width (oF c)) ->
  (type (oF c) = P5 ->
   g 0 0 <> 32 /\ ~ 9 <= g 0 0 <= 13 /\
   forall i j, 0 <= i < height (oF c) -> 0 <= j < width (oF c) -> g i j <= 255) ->
  type (iF c0) = UNKNOWN \/ type (iF c0) = type (oF c) ->
  exists c1 c',
    EncodePgm c = Done c1 /\
    DecodePgm (opened (output c1) c0) = Done c' /\
    descriptor c'
      = (width (oF c), height (oF c), maxDataValue (oF c), type (oF c)) /\
    forall i j, 0 <= i < height (oF c) -> 0 <= j < width (oF c) ->
      sample c' i j = Some (g i j).
Proof.
  intros Hf Hname Hw Hh Hm Hg H2 H5 Hty.
  assert (Henc := EncodePgm_text g c fopen_wb name Hf Hname
            ltac:(unfold in_int, INT_MIN, INT_MAX; lia)
            (fun i j Hi Hj => proj1 (Hg i j Hi Hj))).
  assert (Hmagic : magic_of (type (oF c)) = name)
    by (unfold magic_of; rewrite Hname; reflexivity).
  rewrite <- Hmagic in Henc.
  change (header_text _ _ _ _ _ ++ _)
    with (pgm_text (type (oF c)) (width (oF c)) (height (oF c)) (maxDataValue (oF c)) g)
    in Henc.
  set (text := pgm_text _ _ _ _ g) in Henc.
  assert (Hfile : pgm_file text (type (oF c)) (width (oF c)) (height (oF c))
                           (maxDataValue (oF c)) g).
  { subst text. destruct (type (oF c)) eqn:Et; [discriminate| |].
    - apply pgm_text_P2_file; try assumption.
      + specialize (H2 eq_refl). lia.
      + intros i j Hi Hj. apply Hg; assumption.
    - destruct (H5 eq_refl) as (Ha & Hb & Hc).
      apply pgm_text_P5_file; try assumption.
      intros i j Hi Hj. destruct (Hg i j Hi Hj) as [_ ?].
      specialize (Hc i j Hi Hj). lia. }
  destruct (DecodePgm_file c0 text _ _ _ _ g Hfile Hty)
    as (c' & Hdec & Hdesc & _ & _ & _ & _ & _ & Hdata).
  unfold fprintf_oF, stream_of in Henc. rewrite Hf in Henc. cbn [bind] in Henc.
  eexists. exists c'. split; [exact Henc|].
  assert (Hout : output (set_oF (set_fStream (fputs text fopen_wb) (oF c)) c) = text).
  { destruct c as [i o a s d]. destruct o. reflexivity. }
  rewrite Hout. split; [exact Hdec|]. split; [exact Hdesc|].
  intros i j Hi Hj. unfold sample. rewrite Hdata.
  replace (inside _ _ i j) with true; [reflexivity|].
  unfold inside. symmetry. rewrite !andb_true_iff.
  repeat split; lia.
Qed.

Lemma grey_writer_facts :
  fStream (oF grey_writer) = Some fopen_wb /\ type (oF grey_writer) = P2 /\
  width (oF grey_writer) = 2 /\ height (oF grey_writer) = 2 /\
  maxDataValue (oF grey_writer) = 255 /\
  call_getData grey_writer 0 0 = Done 65 /\ call_getData grey_writer 0 1 = Done 66 /\
  call_getData grey_writer 1 0 = Done 67 /\ call_getData grey_writer 1 1 = Done 68.
Proof. vm_compute. repeat split; reflexivity. Qed.

Lemma EncodePgm_DecodePgm_witness :
  exists c1 c',
    EncodePgm grey_writer = Done c1 /\
    DecodePgm (opened (output c1) (cmd_identity "in.pgm" "out.pgm")) = Done c' /\
    sample c' 1 1 = Some 68.
Proof.
  destruct grey_writer_facts as (Hf & Ht & Hw & Hh & Hm & H00 & H01 & H10 & H11).
  destruct (EncodePgm_DecodePgm grey_writer (cmd_identity "in.pgm" "out.pgm") grey_px "P2")
    as (c1 & c' & He & Hd & _ & Hs).
  - exact Hf.
  - rewrite Ht. reflexivity.
  - rewrite Hw. lia.
  - rewrite Hh. lia.
  - rewrite Hm. unfold INT_MAX. lia.
  - rewrite Hw, Hh, Hm. intros i j Hi Hj. unfold grey_px.
    assert (Ei : i = 0 \/ i = 1) by lia. assert (Ej : j = 0 \/ j = 1) by lia.
    destruct Ei as [-> | ->], Ej as [-> | ->]; (split; [assumption|lia]).
  - rewrite Hw. lia.
  - rewrite Ht. discriminate.
  - right. rewrite Ht. reflexivity.
  - exists c1, c'. split; [exact He|]. split; [exact Hd|].
    apply (Hs 1 1); [rewrite Hh|rewrite Hw]; lia.
Defined.
